(** * Next-address decoder for A32 instructions (ARM_decode_table.c)

    A shallow embedding of the decode-table dispatcher, the multiplexer
    [arm_mux] and every decoding function of the file: branch, coprocessor,
    data-processing, multiply, exception, load/store, status-register and
    floating-point handlers.  Machine words are integers of [Z] with the
    32-bit wrap-around written out; the register context, the extension
    registers, target memory and the system registers are an explicit
    machine state threaded through a small state monad. *)

From Stdlib Require Import ZArith List Bool Lia.
Import ListNotations.
Open Scope Z_scope.

(** ** 32-bit words *)

Module Word.

(** Conversion to [unsigned int]. *)
Definition u32 (x : Z) : Z := x mod 2 ^ 32.

(** Conversion of a word to [int] (two's complement). *)
Definition to_int (x : Z) : Z :=
  let w := u32 x in if w <? 2 ^ 31 then w else w - 2 ^ 32.

(** Conversion to [short int]. *)
Definition to_short (x : Z) : Z :=
  let w := x mod 2 ^ 16 in if w <? 2 ^ 15 then w else w - 2 ^ 16.

Definition add32 (a b : Z) : Z := u32 (a + b).
Definition sub32 (a b : Z) : Z := u32 (a - b).
Definition mul32 (a b : Z) : Z := u32 (a * b).
(** [~x] on an [unsigned int]. *)
Definition not32 (a : Z) : Z := u32 (Z.lnot a).
(** [x << n] on an [unsigned int]; a count of 32 or more leaves no bit. *)
Definition shl32 (a n : Z) : Z := u32 (Z.shiftl a n).
(** [x >> n] on an [unsigned int]. *)
Definition shr32 (a n : Z) : Z := Z.shiftr (u32 a) n.
(** [x >> n] on an [int]: the compiler's arithmetic shift. *)
Definition asr32 (a n : Z) : Z := u32 (Z.shiftr (to_int a) n).
(** C truth value of an integer. *)
Definition truthy (x : Z) : bool := negb (x =? 0).
(** [a || b] on integers: the result is 0 or 1. *)
Definition lor_c (a b : Z) : Z := if truthy a || truthy b then 1 else 0.
(** The mask [(~0) << n] seen as an [unsigned int]. *)
Definition mask_from (n : Z) : Z := u32 (Z.shiftl (Z.lnot 0) n).

End Word.
Import Word.

(** ** Bit-field utilities (instr_util) *)

(** Modelled from the spec: instr_util.h is not part of the sources; the
    spec lists its helpers as pure integer functions that extract a single
    bit, extract an inclusive bit range and sign-extend a field. *)
Definition bit (x n : Z) : Z := Z.land (Z.shiftr x n) 1.

Definition bitrng (x hi lo : Z) : Z :=
  Z.land (Z.shiftr x lo) (Z.ones (hi - lo + 1)).

Definition sx32 (x hi lo : Z) : Z :=
  let w := hi - lo + 1 in
  let f := bitrng x hi lo in
  if Z.testbit f (w - 1) then f - 2 ^ w else f.

(** Modelled from the spec: [bits(value, mask)] of instr_util gathers the
    bits selected by [mask] into the low end of the result, lowest first;
    its call sites switch on the gathered P/U and P/W bits as 0..3, the four
    addressing sub-modes of the spec. *)
Fixpoint bits_from (n : nat) (i : Z) (value mask : Z) : Z :=
  match n with
  | O => 0
  | S n' =>
      if Z.testbit mask i
      then Z.b2z (Z.testbit value i) + 2 * bits_from n' (i + 1) value mask
      else bits_from n' (i + 1) value mask
  end.

Definition bits (value mask : Z) : Z := bits_from 32 0 value mask.

(** ** The outcome value (instr_next_addr_t) *)

(** Modelled from the spec: the flag word of instr_util.h holds a state tag
    (ARM, THUMB, UNDEFINED) and an UNPREDICTABLE overlay bit that
    [set_unpred_addr] adds without touching tag or address.  The test
    [(flag & ~INSTR_ADDR_UNPRED) == INSTR_ADDR_ARM] of the source reads the
    tag; the assignment [flag = INSTR_ADDR_ARM] sets the tag and clears the
    overlay. *)
Inductive instr_addr_flag : Set :=
  | INSTR_ADDR_UNDEF
  | INSTR_ADDR_ARM
  | INSTR_ADDR_THUMB.

Record instr_next_addr_t : Set := mk_next_addr {
  flag : instr_addr_flag;
  unpred : bool;
  address : Z
}.

Definition flag_eqb (a b : instr_addr_flag) : bool :=
  match a, b with
  | INSTR_ADDR_UNDEF, INSTR_ADDR_UNDEF
  | INSTR_ADDR_ARM, INSTR_ADDR_ARM
  | INSTR_ADDR_THUMB, INSTR_ADDR_THUMB => true
  | _, _ => false
  end.

(** [set_addr_lin] is defined in the source file itself: flag ARM and the
    sentinel address 0xffffffff. *)
Definition set_addr_lin : instr_next_addr_t :=
  mk_next_addr INSTR_ADDR_ARM false 0xffffffff.

(** Modelled from the spec: the remaining result builders live in
    instr_util.h.  UNDEFINED carries a meaningless address (the sentinel is
    used here, as in [set_addr_lin]); the ARM and THUMB builders store the
    address they are given. *)
Definition set_undef_addr : instr_next_addr_t :=
  mk_next_addr INSTR_ADDR_UNDEF false 0xffffffff.

Definition set_arm_addr (addr : Z) : instr_next_addr_t :=
  mk_next_addr INSTR_ADDR_ARM false addr.

Definition set_thumb_addr (addr : Z) : instr_next_addr_t :=
  mk_next_addr INSTR_ADDR_THUMB false addr.

Definition set_unpred_addr (r : instr_next_addr_t) : instr_next_addr_t :=
  mk_next_addr (flag r) true (address r).

(** [retval.address = a; retval.flag = INSTR_ADDR_ARM;] *)
Definition assign_arm (a : Z) : instr_next_addr_t :=
  mk_next_addr INSTR_ADDR_ARM false a.

(** ** Sub-type tags (ARM_decode_extra_t)

    The enumeration is read from ARM_decode_table_extras.h and extended in
    the source file; the tags below are the ones the source file names. *)
Inductive ARM_decode_extra_t : Set :=
  | arm_cdata_mov_r  | arm_cdata_lsl_imm  | arm_ret_mov_pc
  | arm_ret_lsl_imm  | arm_cdata_rrx_r  | arm_cdata_ror_imm
  | arm_vldste_vld1_mult  | arm_vldste_vld2_mult  | arm_vldste_vld3_mult
  | arm_vldste_vld4_mult  | arm_vldste_vst1_mult  | arm_vldste_vst2_mult
  | arm_vldste_vst3_mult  | arm_vldste_vst4_mult  | arm_extras_last
  | arm_mux_vbic_vmvn  | arm_mux_wfe_wfi  | arm_mux_vshrn_q_imm
  | arm_mux_vrshrn_q_imm  | arm_mux_vshll_i_vmovl  | arm_mux_vorr_i_vmov_i
  | arm_mux_lsl_i_mov  | arm_mux_lsl_i_mov_pc  | arm_mux_ror_i_rrx
  | arm_mux_vmovn_q  | arm_mux_msr_r_pr  | arm_mux_mrs_r_pr
  | arm_mux_msr_i_pr_hints  | arm_mux_vorr_vmov_nm  | arm_mux_vst_type
  | arm_mux_vld_type  | arm_bra_b_lbl  | arm_bra_bl_lbl
  | arm_bra_blx_lbl  | arm_bra_bx_r  | arm_bra_blx_r
  | arm_bra_bxj_r  | arm_cop_mcrr2  | arm_cop_mcrr
  | arm_cop_mcr2  | arm_cop_mcr  | arm_cop_ldc2
  | arm_cop_ldc  | arm_cop_ldc2_pc  | arm_cop_ldc_pc
  | arm_cop_mrrc2  | arm_cop_mrrc  | arm_cop_mrc2
  | arm_cop_mrc  | arm_cop_stc2  | arm_cop_stc
  | arm_cop_cdp2  | arm_cop_cdp  | arm_div_sdiv
  | arm_div_udiv  | arm_cmac_mul  | arm_cmac_mla
  | arm_cmac_mls  | arm_cmac_smulw  | arm_cmac_smlaw
  | arm_cmac_smul  | arm_cmac_smla  | arm_cmac_smmul
  | arm_cmac_smmla  | arm_cmac_smmls  | arm_cmac_smuad
  | arm_cmac_smusd  | arm_cmac_smlad  | arm_cmac_smlsd
  | arm_cmac_smlal16  | arm_cmac_smlal  | arm_cmac_smull
  | arm_cmac_umaal  | arm_cmac_umlal  | arm_cmac_umull
  | arm_cmac_smlald  | arm_cmac_smlsld  | arm_cmisc_movw
  | arm_cmisc_movt  | arm_cmisc_clz  | arm_cmisc_bfc
  | arm_cmisc_bfi  | arm_cmisc_rbit  | arm_cmisc_rev
  | arm_cmisc_rev16  | arm_cmisc_revsh  | arm_cmisc_sbfx
  | arm_cmisc_ubfx  | arm_cmisc_sel  | arm_cmisc_usad8
  | arm_cmisc_usada8  | arm_pack_pkh  | arm_pack_sxtb
  | arm_pack_uxtb  | arm_pack_sxtab  | arm_pack_uxtab
  | arm_pack_sxtab16  | arm_pack_uxtab16  | arm_pack_sxtb16
  | arm_pack_uxtb16  | arm_pack_sxth  | arm_pack_sxtah
  | arm_pack_uxtah  | arm_pack_uxth  | arm_par_qadd16
  | arm_par_qsub16  | arm_par_sadd16  | arm_par_ssub16
  | arm_par_shadd16  | arm_par_shsub16  | arm_par_qadd8
  | arm_par_qsub8  | arm_par_sadd8  | arm_par_shadd8
  | arm_par_shsub8  | arm_par_ssub8  | arm_par_qasx
  | arm_par_qsax  | arm_par_sasx  | arm_par_shasx
  | arm_par_shsax  | arm_par_ssax  | arm_par_uadd16
  | arm_par_uhadd16  | arm_par_uhsub16  | arm_par_uqadd16
  | arm_par_uqsub16  | arm_par_usub16  | arm_par_uadd8
  | arm_par_uhadd8  | arm_par_uhsub8  | arm_par_uqadd8
  | arm_par_uqsub8  | arm_par_usub8  | arm_par_uasx
  | arm_par_uhasx  | arm_par_uhsax  | arm_par_uqasx
  | arm_par_uqsax  | arm_par_usax  | arm_sat_qadd
  | arm_sat_qdadd  | arm_sat_qdsub  | arm_sat_qsub
  | arm_sat_ssat  | arm_sat_usat  | arm_sat_ssat16
  | arm_sat_usat16  | arm_ret_asr_imm  | arm_cdata_asr_imm
  | arm_ret_lsr_imm  | arm_cdata_lsr_imm  | arm_ret_ror_imm
  | arm_ret_rrx_pc  | arm_cdata_asr_r  | arm_cdata_lsl_r
  | arm_cdata_lsr_r  | arm_cdata_ror_r  | arm_cdata_cmn_r
  | arm_cdata_cmp_r  | arm_cdata_teq_r  | arm_cdata_tst_r
  | arm_cdata_adc_r  | arm_ret_adc_r  | arm_cdata_add_r
  | arm_cdata_add_r_sp  | arm_ret_add_r  | arm_cdata_and_r
  | arm_ret_and_r  | arm_cdata_bic_r  | arm_ret_bic_r
  | arm_cdata_eor_r  | arm_ret_eor_r  | arm_cdata_mvn_r
  | arm_ret_mvn_r  | arm_cdata_orr_r  | arm_ret_orr_r
  | arm_cdata_rsb_r  | arm_ret_rsb_r  | arm_cdata_rsc_r
  | arm_ret_rsc_r  | arm_cdata_sbc_r  | arm_ret_sbc_r
  | arm_cdata_sub_r  | arm_cdata_sub_r_sp  | arm_ret_sub_r
  | arm_cdata_cmn_rshr  | arm_cdata_cmp_rshr  | arm_cdata_teq_rshr
  | arm_cdata_tst_rshr  | arm_cdata_adc_rshr  | arm_cdata_add_rshr
  | arm_cdata_and_rshr  | arm_cdata_bic_rshr  | arm_cdata_eor_rshr
  | arm_cdata_mvn_rshr  | arm_cdata_orr_rshr  | arm_cdata_rsb_rshr
  | arm_cdata_rsc_rshr  | arm_cdata_sbc_rshr  | arm_cdata_sub_rshr
  | arm_cdata_cmn_imm  | arm_cdata_cmp_imm  | arm_cdata_teq_imm
  | arm_cdata_tst_imm  | arm_cdata_adc_imm  | arm_ret_adc_imm
  | arm_cdata_add_imm  | arm_cdata_add_imm_sp  | arm_ret_add_imm
  | arm_cdata_adr_lbla  | arm_cdata_adr_lblb  | arm_cdata_and_imm
  | arm_cdata_bic_imm  | arm_ret_bic_imm  | arm_cdata_eor_imm
  | arm_ret_eor_imm  | arm_cdata_mov_imm  | arm_ret_mov_imm
  | arm_cdata_mvn_imm  | arm_ret_mvn_imm  | arm_cdata_orr_imm
  | arm_cdata_rsb_imm  | arm_ret_rsb_imm  | arm_cdata_rsc_imm
  | arm_ret_rsc_imm  | arm_cdata_sbc_imm  | arm_ret_sbc_imm
  | arm_cdata_sub_imm  | arm_cdata_sub_imm_sp  | arm_ret_sub_imm
  | arm_exc_eret  | arm_exc_bkpt  | arm_exc_hvc
  | arm_exc_smc  | arm_exc_svc  | arm_exc_udf
  | arm_exc_rfe  | arm_exc_srs  | arm_cldstm_pop_r
  | arm_cldstm_push_r  | arm_sync_ldrexd  | arm_sync_ldrex
  | arm_sync_ldrexb  | arm_sync_ldrexh  | arm_sync_strexd
  | arm_misc_sev  | arm_misc_dbg  | arm_misc_setend
  | arm_misc_clrex  | arm_misc_dmb  | arm_misc_dsb
  | arm_misc_isb  | arm_misc_pld_imm  | arm_misc_pld_lbl
  | arm_misc_pli_lbl  | arm_misc_pld_r  | arm_misc_pli_r
  | arm_misc_swp  | arm_cstat_cps  | arm_cstat_msr_b
  | arm_cstat_mrs_b  | arm_fp_vcmp_r  | arm_fp_vcmp_z
  | arm_fp_vcvt_f3216  | arm_fp_vcvt_f6432  | arm_fp_vcvt_f6432_bc
  | arm_fp_vcvt_sf6432  | arm_fp_vdiv  | arm_fp_vfnm
  | arm_vbits_vmov_6432_i  | arm_vbits_vmov_6432_r  | arm_vbits_vand
  | arm_vbits_vbic  | arm_vbits_vbif  | arm_vbits_vbit
  | arm_vbits_vbsl  | arm_vbits_veor  | arm_vbits_vmvn
  | arm_vbits_vorn  | arm_vcmp_vacge  | arm_vcmp_vacgt
  | arm_vcmp_vceq  | arm_vcmp_vceq_dt  | arm_vcmp_vceq_z
  | arm_vcmp_vcge  | arm_vcmp_vcge_dt  | arm_vcmp_vcge_z
  | arm_vcmp_vcgt_dt  | arm_vcmp_vcgt  | arm_vcmp_vcgt_z
  | arm_vcmp_vcle_z  | arm_vcmp_vclt_z  | arm_vcmp_vtst
  | arm_vldste_vld1_all  | arm_vldste_vld1_one  | arm_vldste_vld2_all
  | arm_vldste_vld2_one  | arm_vldste_vld3_all  | arm_vldste_vld3_one
  | arm_vldste_vld4_all  | arm_vldste_vld4_one  | arm_vldste_vst1_one
  | arm_vldste_vst2_one  | arm_vldste_vst3_one  | arm_vldste_vst4_one
  | arm_vldstx_vldm32  | arm_vldstx_vldm64  | arm_vldstx_vstm32
  | arm_vldstx_vstm64  | arm_vldstx_vldr_d_imm  | arm_vldstx_vldr_s_imm
  | arm_vldstx_vstr_d_imm  | arm_vldstx_vstr_s_imm  | arm_vldstx_vpop32
  | arm_vldstx_vpop64  | arm_vldstx_vpush32  | arm_vldstx_vpush64
  | arm_vfpxfer_vmov_d  | arm_vfpxfer_vmov_ss  | arm_vfpxfer_vdup
  | arm_vfpxfer_vmov_dt_dx  | arm_vfpxfer_vmov_dx  | arm_vfpxfer_vmov_s
  | arm_vfpxfer_vmrs_fpscr  | arm_vfpxfer_vmrs_r  | arm_vfpxfer_vmsr_fpscr
  | arm_vfpxfer_vmsr_r  .

(** The integer behind each tag, for the comparisons [extra == tag] of the
    source. *)
Definition extra_tag (e : ARM_decode_extra_t) : Z :=
  match e with
  | arm_cdata_mov_r => 0 | arm_cdata_lsl_imm => 1 | arm_ret_mov_pc => 2
  | arm_ret_lsl_imm => 3 | arm_cdata_rrx_r => 4 | arm_cdata_ror_imm => 5
  | arm_vldste_vld1_mult => 6 | arm_vldste_vld2_mult => 7
  | arm_vldste_vld3_mult => 8 | arm_vldste_vld4_mult => 9
  | arm_vldste_vst1_mult => 10 | arm_vldste_vst2_mult => 11
  | arm_vldste_vst3_mult => 12 | arm_vldste_vst4_mult => 13
  | arm_extras_last => 14 | arm_mux_vbic_vmvn => 15 | arm_mux_wfe_wfi => 16
  | arm_mux_vshrn_q_imm => 17 | arm_mux_vrshrn_q_imm => 18
  | arm_mux_vshll_i_vmovl => 19 | arm_mux_vorr_i_vmov_i => 20
  | arm_mux_lsl_i_mov => 21 | arm_mux_lsl_i_mov_pc => 22
  | arm_mux_ror_i_rrx => 23 | arm_mux_vmovn_q => 24 | arm_mux_msr_r_pr => 25
  | arm_mux_mrs_r_pr => 26 | arm_mux_msr_i_pr_hints => 27
  | arm_mux_vorr_vmov_nm => 28 | arm_mux_vst_type => 29
  | arm_mux_vld_type => 30 | arm_bra_b_lbl => 31 | arm_bra_bl_lbl => 32
  | arm_bra_blx_lbl => 33 | arm_bra_bx_r => 34 | arm_bra_blx_r => 35
  | arm_bra_bxj_r => 36 | arm_cop_mcrr2 => 37 | arm_cop_mcrr => 38
  | arm_cop_mcr2 => 39 | arm_cop_mcr => 40 | arm_cop_ldc2 => 41
  | arm_cop_ldc => 42 | arm_cop_ldc2_pc => 43 | arm_cop_ldc_pc => 44
  | arm_cop_mrrc2 => 45 | arm_cop_mrrc => 46 | arm_cop_mrc2 => 47
  | arm_cop_mrc => 48 | arm_cop_stc2 => 49 | arm_cop_stc => 50
  | arm_cop_cdp2 => 51 | arm_cop_cdp => 52 | arm_div_sdiv => 53
  | arm_div_udiv => 54 | arm_cmac_mul => 55 | arm_cmac_mla => 56
  | arm_cmac_mls => 57 | arm_cmac_smulw => 58 | arm_cmac_smlaw => 59
  | arm_cmac_smul => 60 | arm_cmac_smla => 61 | arm_cmac_smmul => 62
  | arm_cmac_smmla => 63 | arm_cmac_smmls => 64 | arm_cmac_smuad => 65
  | arm_cmac_smusd => 66 | arm_cmac_smlad => 67 | arm_cmac_smlsd => 68
  | arm_cmac_smlal16 => 69 | arm_cmac_smlal => 70 | arm_cmac_smull => 71
  | arm_cmac_umaal => 72 | arm_cmac_umlal => 73 | arm_cmac_umull => 74
  | arm_cmac_smlald => 75 | arm_cmac_smlsld => 76 | arm_cmisc_movw => 77
  | arm_cmisc_movt => 78 | arm_cmisc_clz => 79 | arm_cmisc_bfc => 80
  | arm_cmisc_bfi => 81 | arm_cmisc_rbit => 82 | arm_cmisc_rev => 83
  | arm_cmisc_rev16 => 84 | arm_cmisc_revsh => 85 | arm_cmisc_sbfx => 86
  | arm_cmisc_ubfx => 87 | arm_cmisc_sel => 88 | arm_cmisc_usad8 => 89
  | arm_cmisc_usada8 => 90 | arm_pack_pkh => 91 | arm_pack_sxtb => 92
  | arm_pack_uxtb => 93 | arm_pack_sxtab => 94 | arm_pack_uxtab => 95
  | arm_pack_sxtab16 => 96 | arm_pack_uxtab16 => 97 | arm_pack_sxtb16 => 98
  | arm_pack_uxtb16 => 99 | arm_pack_sxth => 100 | arm_pack_sxtah => 101
  | arm_pack_uxtah => 102 | arm_pack_uxth => 103 | arm_par_qadd16 => 104
  | arm_par_qsub16 => 105 | arm_par_sadd16 => 106 | arm_par_ssub16 => 107
  | arm_par_shadd16 => 108 | arm_par_shsub16 => 109 | arm_par_qadd8 => 110
  | arm_par_qsub8 => 111 | arm_par_sadd8 => 112 | arm_par_shadd8 => 113
  | arm_par_shsub8 => 114 | arm_par_ssub8 => 115 | arm_par_qasx => 116
  | arm_par_qsax => 117 | arm_par_sasx => 118 | arm_par_shasx => 119
  | arm_par_shsax => 120 | arm_par_ssax => 121 | arm_par_uadd16 => 122
  | arm_par_uhadd16 => 123 | arm_par_uhsub16 => 124 | arm_par_uqadd16 => 125
  | arm_par_uqsub16 => 126 | arm_par_usub16 => 127 | arm_par_uadd8 => 128
  | arm_par_uhadd8 => 129 | arm_par_uhsub8 => 130 | arm_par_uqadd8 => 131
  | arm_par_uqsub8 => 132 | arm_par_usub8 => 133 | arm_par_uasx => 134
  | arm_par_uhasx => 135 | arm_par_uhsax => 136 | arm_par_uqasx => 137
  | arm_par_uqsax => 138 | arm_par_usax => 139 | arm_sat_qadd => 140
  | arm_sat_qdadd => 141 | arm_sat_qdsub => 142 | arm_sat_qsub => 143
  | arm_sat_ssat => 144 | arm_sat_usat => 145 | arm_sat_ssat16 => 146
  | arm_sat_usat16 => 147 | arm_ret_asr_imm => 148 | arm_cdata_asr_imm => 149
  | arm_ret_lsr_imm => 150 | arm_cdata_lsr_imm => 151
  | arm_ret_ror_imm => 152 | arm_ret_rrx_pc => 153 | arm_cdata_asr_r => 154
  | arm_cdata_lsl_r => 155 | arm_cdata_lsr_r => 156 | arm_cdata_ror_r => 157
  | arm_cdata_cmn_r => 158 | arm_cdata_cmp_r => 159 | arm_cdata_teq_r => 160
  | arm_cdata_tst_r => 161 | arm_cdata_adc_r => 162 | arm_ret_adc_r => 163
  | arm_cdata_add_r => 164 | arm_cdata_add_r_sp => 165 | arm_ret_add_r => 166
  | arm_cdata_and_r => 167 | arm_ret_and_r => 168 | arm_cdata_bic_r => 169
  | arm_ret_bic_r => 170 | arm_cdata_eor_r => 171 | arm_ret_eor_r => 172
  | arm_cdata_mvn_r => 173 | arm_ret_mvn_r => 174 | arm_cdata_orr_r => 175
  | arm_ret_orr_r => 176 | arm_cdata_rsb_r => 177 | arm_ret_rsb_r => 178
  | arm_cdata_rsc_r => 179 | arm_ret_rsc_r => 180 | arm_cdata_sbc_r => 181
  | arm_ret_sbc_r => 182 | arm_cdata_sub_r => 183 | arm_cdata_sub_r_sp => 184
  | arm_ret_sub_r => 185 | arm_cdata_cmn_rshr => 186
  | arm_cdata_cmp_rshr => 187 | arm_cdata_teq_rshr => 188
  | arm_cdata_tst_rshr => 189 | arm_cdata_adc_rshr => 190
  | arm_cdata_add_rshr => 191 | arm_cdata_and_rshr => 192
  | arm_cdata_bic_rshr => 193 | arm_cdata_eor_rshr => 194
  | arm_cdata_mvn_rshr => 195 | arm_cdata_orr_rshr => 196
  | arm_cdata_rsb_rshr => 197 | arm_cdata_rsc_rshr => 198
  | arm_cdata_sbc_rshr => 199 | arm_cdata_sub_rshr => 200
  | arm_cdata_cmn_imm => 201 | arm_cdata_cmp_imm => 202
  | arm_cdata_teq_imm => 203 | arm_cdata_tst_imm => 204
  | arm_cdata_adc_imm => 205 | arm_ret_adc_imm => 206
  | arm_cdata_add_imm => 207 | arm_cdata_add_imm_sp => 208
  | arm_ret_add_imm => 209 | arm_cdata_adr_lbla => 210
  | arm_cdata_adr_lblb => 211 | arm_cdata_and_imm => 212
  | arm_cdata_bic_imm => 213 | arm_ret_bic_imm => 214
  | arm_cdata_eor_imm => 215 | arm_ret_eor_imm => 216
  | arm_cdata_mov_imm => 217 | arm_ret_mov_imm => 218
  | arm_cdata_mvn_imm => 219 | arm_ret_mvn_imm => 220
  | arm_cdata_orr_imm => 221 | arm_cdata_rsb_imm => 222
  | arm_ret_rsb_imm => 223 | arm_cdata_rsc_imm => 224
  | arm_ret_rsc_imm => 225 | arm_cdata_sbc_imm => 226
  | arm_ret_sbc_imm => 227 | arm_cdata_sub_imm => 228
  | arm_cdata_sub_imm_sp => 229 | arm_ret_sub_imm => 230
  | arm_exc_eret => 231 | arm_exc_bkpt => 232 | arm_exc_hvc => 233
  | arm_exc_smc => 234 | arm_exc_svc => 235 | arm_exc_udf => 236
  | arm_exc_rfe => 237 | arm_exc_srs => 238 | arm_cldstm_pop_r => 239
  | arm_cldstm_push_r => 240 | arm_sync_ldrexd => 241 | arm_sync_ldrex => 242
  | arm_sync_ldrexb => 243 | arm_sync_ldrexh => 244 | arm_sync_strexd => 245
  | arm_misc_sev => 246 | arm_misc_dbg => 247 | arm_misc_setend => 248
  | arm_misc_clrex => 249 | arm_misc_dmb => 250 | arm_misc_dsb => 251
  | arm_misc_isb => 252 | arm_misc_pld_imm => 253 | arm_misc_pld_lbl => 254
  | arm_misc_pli_lbl => 255 | arm_misc_pld_r => 256 | arm_misc_pli_r => 257
  | arm_misc_swp => 258 | arm_cstat_cps => 259 | arm_cstat_msr_b => 260
  | arm_cstat_mrs_b => 261 | arm_fp_vcmp_r => 262 | arm_fp_vcmp_z => 263
  | arm_fp_vcvt_f3216 => 264 | arm_fp_vcvt_f6432 => 265
  | arm_fp_vcvt_f6432_bc => 266 | arm_fp_vcvt_sf6432 => 267
  | arm_fp_vdiv => 268 | arm_fp_vfnm => 269 | arm_vbits_vmov_6432_i => 270
  | arm_vbits_vmov_6432_r => 271 | arm_vbits_vand => 272
  | arm_vbits_vbic => 273 | arm_vbits_vbif => 274 | arm_vbits_vbit => 275
  | arm_vbits_vbsl => 276 | arm_vbits_veor => 277 | arm_vbits_vmvn => 278
  | arm_vbits_vorn => 279 | arm_vcmp_vacge => 280 | arm_vcmp_vacgt => 281
  | arm_vcmp_vceq => 282 | arm_vcmp_vceq_dt => 283 | arm_vcmp_vceq_z => 284
  | arm_vcmp_vcge => 285 | arm_vcmp_vcge_dt => 286 | arm_vcmp_vcge_z => 287
  | arm_vcmp_vcgt_dt => 288 | arm_vcmp_vcgt => 289 | arm_vcmp_vcgt_z => 290
  | arm_vcmp_vcle_z => 291 | arm_vcmp_vclt_z => 292 | arm_vcmp_vtst => 293
  | arm_vldste_vld1_all => 294 | arm_vldste_vld1_one => 295
  | arm_vldste_vld2_all => 296 | arm_vldste_vld2_one => 297
  | arm_vldste_vld3_all => 298 | arm_vldste_vld3_one => 299
  | arm_vldste_vld4_all => 300 | arm_vldste_vld4_one => 301
  | arm_vldste_vst1_one => 302 | arm_vldste_vst2_one => 303
  | arm_vldste_vst3_one => 304 | arm_vldste_vst4_one => 305
  | arm_vldstx_vldm32 => 306 | arm_vldstx_vldm64 => 307
  | arm_vldstx_vstm32 => 308 | arm_vldstx_vstm64 => 309
  | arm_vldstx_vldr_d_imm => 310 | arm_vldstx_vldr_s_imm => 311
  | arm_vldstx_vstr_d_imm => 312 | arm_vldstx_vstr_s_imm => 313
  | arm_vldstx_vpop32 => 314 | arm_vldstx_vpop64 => 315
  | arm_vldstx_vpush32 => 316 | arm_vldstx_vpush64 => 317
  | arm_vfpxfer_vmov_d => 318 | arm_vfpxfer_vmov_ss => 319
  | arm_vfpxfer_vdup => 320 | arm_vfpxfer_vmov_dt_dx => 321
  | arm_vfpxfer_vmov_dx => 322 | arm_vfpxfer_vmov_s => 323
  | arm_vfpxfer_vmrs_fpscr => 324 | arm_vfpxfer_vmrs_r => 325
  | arm_vfpxfer_vmsr_fpscr => 326 | arm_vfpxfer_vmsr_r => 327
  end.

Definition extra_eqb (a b : ARM_decode_extra_t) : bool :=
  extra_tag a =? extra_tag b.

(** ** Target state *)

(** The register context of rpi2.h: [storage[0..15]] are the general
    registers ([reg.r13], [reg.r14], [reg.r15] name entries 13 to 15), with
    the current and the saved status word beside them. *)
Record rpi2_reg_context_t : Type := mk_reg_context {
  storage : list Z;
  reg_cpsr : Z;
  reg_spsr : Z
}.

(** What a decode call can see: the register context and the words that an
    index outside [storage[0..15]] reaches behind it, the extension register
    file [rpi2_neon_context.storage] as words, the target memory (one byte
    per address), the system registers behind [get_SCR], [get_HCR],
    [get_NSACR], [get_elr_hyp], [get_security_state] and the VMRS
    instructions, and the indeterminate content of an automatic variable read
    before it is assigned. *)
Record machine : Type := mk_machine {
  rpi2_reg_context : rpi2_reg_context_t;
  beyond_context : Z -> Z;
  neon_storage : Z -> Z;
  memory : Z -> Z;
  hw_scr : Z;
  hw_hcr : Z;
  hw_nsacr : Z;
  hw_elr_hyp : Z;
  hw_vfp : Z -> Z;
  hw_secure : bool;
  indeterminate : Z
}.

(** The collaborators of instr_util that the source file calls but does not
    define.  Each one inspects the target and returns a value; the decoder
    is stated for every such environment. *)
Record instr_util : Type := mk_instr_util {
  will_branch_of : Z -> machine -> bool;
  check_proc_mode_of : Z -> Z -> Z -> Z -> machine -> bool;
  check_coproc_access_of : Z -> machine -> bool;
  get_proc_mode_of : machine -> Z;
  get_mode_reg_of : Z -> Z -> machine -> Z;
  INSTR_PMODE_USR : Z;
  INSTR_PMODE_FIQ : Z;
  INSTR_PMODE_IRQ : Z;
  INSTR_PMODE_SVC : Z;
  INSTR_PMODE_MON : Z;
  INSTR_PMODE_ABT : Z;
  INSTR_PMODE_HYP : Z;
  INSTR_PMODE_UND : Z;
  INSTR_PMODE_SYS : Z;
  (* lane helpers: arguments and results are the C values as integers *)
  instr_util_rorb : Z -> Z -> Z;
  instr_util_shgetlo : Z -> Z;
  instr_util_shgethi : Z -> Z;
  instr_util_signx_byte : Z -> Z;
  instr_util_signx_short : Z -> Z;
  instr_util_ssat : Z -> Z -> Z;
  instr_util_usat : Z -> Z -> Z;
  instr_util_lssat : Z -> Z -> Z;
  instr_util_ustuffs16 : Z -> Z -> Z;
  instr_util_ustuffu16 : Z -> Z -> Z;
  instr_util_ustuffs8 : Z -> Z -> Z -> Z -> Z;
  instr_util_ustuffu8 : Z -> Z -> Z -> Z -> Z
}.

(** ** The decode monad: explicit state passing over [machine] *)

Definition M (A : Type) : Type := machine -> A * machine.

Definition ret {A : Type} (a : A) : M A := fun s => (a, s).

Definition bind {A B : Type} (m : M A) (k : A -> M B) : M B :=
  fun s => let (a, s') := m s in k a s'.

Declare Scope decode_scope.
Delimit Scope decode_scope with decode.
Notation "x <- m ;; k" := (bind m (fun x => k))
  (at level 61, m at next level, right associativity) : decode_scope.
Open Scope decode_scope.

(** A read of the target: the state is handed on as it came. *)
Definition gets {A : Type} (f : machine -> A) : M A := fun s => (f s, s).

Definition run {A : Type} (m : M A) (s : machine) : A := fst (m s).
Definition final {A : Type} (m : M A) (s : machine) : machine := snd (m s).

(** [rpi2_reg_context.storage[n]]: a general register for n in 0..15, and
    whatever lies behind the context for an index outside that range. *)
Definition context_word (s : machine) (n : Z) : Z :=
  if (0 <=? n) && (n <? 16)
  then nth (Z.to_nat n) (storage (rpi2_reg_context s)) 0
  else beyond_context s n.

Definition rd_storage (n : Z) : M Z := gets (fun s => context_word s n).

Definition rd_r13 : M Z := rd_storage 13.
Definition rd_r14 : M Z := rd_storage 14.
Definition rd_r15 : M Z := rd_storage 15.
Definition rd_cpsr : M Z := gets (fun s => reg_cpsr (rpi2_reg_context s)).
Definition rd_spsr : M Z := gets (fun s => reg_spsr (rpi2_reg_context s)).

(** [*((unsigned char * ) a)] and [*((unsigned int * ) a)], little-endian. *)
Definition byte_at (s : machine) (a : Z) : Z := memory s (u32 a) mod 256.

Definition word_at (s : machine) (a : Z) : Z :=
  byte_at s a + 2 ^ 8 * byte_at s (a + 1)
  + 2 ^ 16 * byte_at s (a + 2) + 2 ^ 24 * byte_at s (a + 3).

Definition half_at (s : machine) (a : Z) : Z :=
  byte_at s a + 2 ^ 8 * byte_at s (a + 1).

Definition load8 (a : Z) : M Z := gets (fun s => byte_at s a).
Definition load16 (a : Z) : M Z := gets (fun s => half_at s a).
Definition load32 (a : Z) : M Z := gets (fun s => word_at s a).

(** [((unsigned int * )rpi2_neon_context.storage)[n]] and byte [k] counted
    from the word of index [n]. *)
Definition rd_neon (n : Z) : M Z := gets (fun s => neon_storage s n).

Definition rd_neon_byte (n k : Z) : M Z :=
  gets (fun s =>
          Z.land (Z.shiftr (neon_storage s (n + k / 4)) (8 * (k mod 4)))
                 0xff).

(** [vmrs Rt, <reg>]: a read of a VFP system register. *)
Definition vmrs (reg : Z) : M Z := gets (fun s => hw_vfp s reg).

(** An automatic variable that is read before any assignment. *)
Definition unassigned : M Z := gets indeterminate.

Definition get_security_state : M bool := gets hw_secure.
Definition get_SCR : M Z := gets hw_scr.
Definition get_HCR : M Z := gets hw_hcr.
Definition get_NSACR : M Z := gets hw_nsacr.
Definition get_elr_hyp : M Z := gets hw_elr_hyp.

(** ** The handlers *)

Section Decoder.

Variable U : instr_util.

Definition will_branch (instr : Z) : M bool := gets (will_branch_of U instr).

Definition check_proc_mode (m1 m2 m3 m4 : Z) : M bool :=
  gets (check_proc_mode_of U m1 m2 m3 m4).

Definition check_coproc_access (n : Z) : M bool :=
  gets (check_coproc_access_of U n).

Definition get_proc_mode : M Z := gets (get_proc_mode_of U).

Definition get_mode_reg (mode reg : Z) : M Z :=
  gets (get_mode_reg_of U mode reg).

(** The branch on the low bits of a candidate address shared by the
    handlers: THUMB when bit 0 is set, ARM when bits 1:0 are clear, and
    [other] for the remaining pattern. *)
Definition by_low_bits (a : Z) (other : instr_next_addr_t)
  : instr_next_addr_t :=
  if truthy (Z.land a 1) then set_thumb_addr a
  else if negb (truthy (Z.land a 3)) then set_arm_addr a
  else other.

(** *** arm_vfp_ldst_elem

    The counter [und] of the element load/store handler.  The advancement
    [tmp4] the source computes beside it is never read: the write-back
    block that would use it stands after the [break] of the last case and
    is not reachable, so [unp] stays 0 and [retval] stays as initialised. *)
Definition vldste_und (instr : Z) (extra : ARM_decode_extra_t) : Z :=
  let b (c : bool) : Z := if c then 1 else 0 in
  match extra with
  | arm_vldste_vld1_mult | arm_vldste_vst1_mult =>
      let tmp3 := bitrng instr 5 4 in
      let type := bitrng instr 11 8 in
      if type =? 2 then 0
      else if type =? 6 then b (truthy (Z.land tmp3 2))
      else if type =? 7 then b (truthy (Z.land tmp3 2))
      else if type =? 10 then b (tmp3 =? 3)
      else 0
  | arm_vldste_vld2_mult | arm_vldste_vst2_mult =>
      let tmp3 := bitrng instr 5 4 in
      let und := b (bitrng instr 7 6 =? 3) in
      let type := bitrng instr 11 8 in
      if type =? 3 then und
      else if type =? 8 then und + b (tmp3 =? 3)
      else if type =? 9 then und + b (tmp3 =? 3)
      else und
  | arm_vldste_vld3_mult | arm_vldste_vst3_mult =>
      b (truthy (bit instr 5)) + b (bitrng instr 7 6 =? 3)
  | arm_vldste_vld4_mult | arm_vldste_vst4_mult =>
      b (bitrng instr 7 6 =? 3)
  | arm_vldste_vld1_one | arm_vldste_vst1_one =>
      let tmp3 := bitrng instr 7 4 in
      let size := bitrng instr 11 10 in
      if size =? 0 then b (truthy (Z.land tmp3 1))
      else if size =? 1 then b (truthy (Z.land tmp3 2))
      else if size =? 2 then
        b (truthy (Z.land tmp3 4))
        + b ((Z.land tmp3 3 =? 1) || (Z.land tmp3 3 =? 2))
      else 0
  | arm_vldste_vld2_one | arm_vldste_vst2_one =>
      let tmp3 := bitrng instr 7 4 in
      let size := bitrng instr 11 10 in
      if size =? 0 then 0
      else if size =? 1 then 0
      else if size =? 2 then b (truthy (Z.land tmp3 2))
      else 0
  | arm_vldste_vld3_one | arm_vldste_vst3_one =>
      let tmp3 := bitrng instr 7 4 in
      let size := bitrng instr 11 10 in
      if size =? 0 then b (truthy (Z.land tmp3 1))
      else if size =? 1 then b (truthy (Z.land tmp3 1))
      else if size =? 2 then b (truthy (Z.land tmp3 3))
      else 0
  | arm_vldste_vld4_one | arm_vldste_vst4_one =>
      let tmp3 := bitrng instr 7 4 in
      let size := bitrng instr 11 10 in
      if size =? 0 then 0
      else if size =? 1 then 0
      else if size =? 2 then b (truthy (Z.land tmp3 3))
      else 0
  | arm_vldste_vld1_all =>
      let tmp3 := bitrng instr 7 6 in
      b (tmp3 =? 3) + b ((tmp3 =? 0) && truthy (bit instr 4))
  | arm_vldste_vld2_all =>
      b (bitrng instr 7 6 =? 3)
  | arm_vldste_vld3_all =>
      b ((bitrng instr 7 6 =? 3) || truthy (bit instr 4))
  | arm_vldste_vld4_all =>
      b ((bitrng instr 7 6 =? 3) && negb (truthy (bit instr 4)))
  | _ => 0
  end.

Definition arm_vfp_ldst_elem (instr : Z) (extra : ARM_decode_extra_t)
  : M instr_next_addr_t :=
  let retval := set_undef_addr in
  let und := vldste_und instr extra in
  let unp := 0 in
  ret (if truthy und then set_undef_addr
       else if truthy unp then set_unpred_addr retval
       else retval).

(** *** arm_core_data_bit *)

(** First block: the value left in [tmp3].  When Rd is not PC the block is
    skipped and [tmp3] has not been assigned. *)
Definition data_bit_tmp3 (instr : Z) (extra : ARM_decode_extra_t) : M Z :=
  if bitrng instr 15 12 =? 15 then
    let tmp3 := bitrng instr 3 0 in
    v <- rd_storage tmp3 ;;
    let tmp1 := if tmp3 =? 15 then add32 v 8 else v in
    match extra with
    | arm_ret_asr_imm | arm_cdata_asr_imm =>
        let tmp2 := bitrng instr 11 7 in
        ret (asr32 tmp1 tmp2)
    | arm_ret_lsr_imm | arm_cdata_lsr_imm =>
        let tmp2 := bitrng instr 11 7 in
        ret (shr32 tmp1 tmp2)
    | arm_ret_lsl_imm | arm_cdata_lsl_imm =>
        let tmp2 := bitrng instr 11 7 in
        ret (shl32 tmp1 tmp2)
    | arm_ret_mov_pc | arm_cdata_mov_r =>
        ret tmp1
    | arm_ret_ror_imm | arm_cdata_ror_imm =>
        let tmp2 := bitrng instr 11 7 in
        let tmp4 := bitrng tmp1 tmp2 0 in
        let tmp4 := shl32 tmp4 (32 - tmp2) in
        let tmp3 := shr32 tmp1 tmp2 in
        let tmp2 := mask_from tmp2 in
        ret (lor_c (Z.land tmp3 (not32 tmp2)) (Z.land tmp4 tmp2))
    | arm_ret_rrx_pc | arm_cdata_rrx_r =>
        c <- rd_cpsr ;;
        let tmp2 := bit c 29 in
        ret (Z.lor (shr32 tmp1 1) (shl32 tmp2 31))
    | arm_cdata_asr_r =>
        let tmp3 := bitrng instr 11 8 in
        w <- rd_storage tmp3 ;;
        let tmp2 := if tmp3 =? 15 then add32 w 8 else w in
        let tmp2 := Z.land tmp2 0x1f in
        ret (asr32 tmp1 tmp2)
    | arm_cdata_lsl_r =>
        let tmp3 := bitrng instr 11 8 in
        w <- rd_storage tmp3 ;;
        let tmp2 := if tmp3 =? 15 then add32 w 8 else w in
        if tmp2 >? 31 then ret 0
        else ret (shl32 tmp1 (Z.land tmp2 0x1f))
    | arm_cdata_lsr_r =>
        let tmp3 := bitrng instr 11 8 in
        w <- rd_storage tmp3 ;;
        let tmp2 := if tmp3 =? 15 then add32 w 8 else w in
        if tmp2 >? 31 then ret 0
        else ret (shr32 tmp1 (Z.land tmp2 0x1f))
    | arm_cdata_ror_r =>
        let tmp3 := bitrng instr 11 8 in
        w <- rd_storage tmp3 ;;
        let tmp2 := if tmp3 =? 15 then add32 w 8 else w in
        let tmp2 := Z.land tmp2 0x1f in
        if tmp2 =? 0 then ret tmp1
        else
          let tmp4 := bitrng tmp1 tmp2 0 in
          let tmp4 := shl32 tmp4 (32 - tmp2) in
          let tmp3 := shr32 tmp1 tmp2 in
          let tmp2 := mask_from tmp2 in
          ret (lor_c (Z.land tmp3 (not32 tmp2)) (Z.land tmp4 tmp2))
    | _ => ret tmp3
    end
  else unassigned.

Definition arm_core_data_bit (instr : Z) (extra : ARM_decode_extra_t)
  : M instr_next_addr_t :=
  let retval := set_undef_addr in
  tmp3 <- data_bit_tmp3 instr extra ;;
  match extra with
  | arm_ret_asr_imm | arm_ret_lsr_imm | arm_ret_lsl_imm
  | arm_ret_ror_imm | arm_ret_rrx_pc | arm_ret_mov_pc =>
      tmp1 <- rd_cpsr ;;
      if negb (truthy (bit instr 20)) then
        ret (by_low_bits tmp3 (set_unpred_addr (set_thumb_addr tmp3)))
      else
        let mode := Z.land tmp1 0x1f in
        if (mode =? 0x10) || (mode =? 0x1f) then
          ret (set_unpred_addr (set_arm_addr 0x8))
        else if mode =? 0x1a then ret set_undef_addr
        else
          tmp1 <- rd_spsr ;;
          ret (if truthy (bit tmp1 5) then set_thumb_addr tmp3 else retval)
  | arm_cdata_asr_r | arm_cdata_lsl_r | arm_cdata_lsr_r | arm_cdata_ror_r =>
      if bitrng instr 15 12 =? 15 then
        ret (set_unpred_addr (by_low_bits tmp3 (set_thumb_addr tmp3)))
      else ret set_addr_lin
  | _ => ret set_addr_lin
  end.

(** *** arm_mux

    The switch over the multiplexed sub-types; the condition check that
    follows it is [arm_mux] below. *)
Definition arm_mux_switch (instr : Z) (extra : ARM_decode_extra_t)
  : M instr_next_addr_t :=
  let retval := set_undef_addr in
  match extra with
  | arm_mux_vbic_vmvn =>
      if negb (bitrng instr 11 9 =? 7) then ret set_addr_lin else ret retval
  | arm_mux_wfe_wfi =>
      if (bitrng instr 7 0 =? 2) || (bitrng instr 7 0 =? 2)
      then ret set_addr_lin else ret retval
  | arm_mux_vshrn_q_imm =>
      if bit instr 0 =? 0 then ret set_addr_lin else ret retval
  | arm_mux_vrshrn_q_imm =>
      if bit instr 0 =? 0 then ret set_addr_lin else ret retval
  | arm_mux_vshll_i_vmovl =>
      if bit instr 12 =? 0 then
        let imm3 := bitrng instr 21 19 in
        if imm3 =? 0 then ret retval
        else if (imm3 =? 1) || (imm3 =? 2) || (imm3 =? 4) then ret set_addr_lin
        else ret set_addr_lin
      else ret retval
  | arm_mux_vorr_i_vmov_i =>
      if (bit instr 6 =? 1) && (bit instr 12 =? 0) then
        if (bit instr 7 =? 0) && (bitrng instr 21 19 =? 0) then
          if (bit instr 5 =? 0) && (bit instr 8 =? 1)
             && negb (bitrng instr 11 10 =? 3)
          then ret set_addr_lin
          else if (bit instr 8 =? 0) || (bitrng instr 11 10 =? 3)
          then ret set_addr_lin
          else ret retval
        else
          if (bit instr 6 =? 1) && (bit instr 0 =? 0)
          then ret set_addr_lin else ret retval
      else ret retval
  | arm_mux_lsl_i_mov | arm_mux_lsl_i_mov_pc =>
      if bitrng instr 11 7 =? 0 then
        if extra_eqb extra arm_mux_lsl_i_mov
        then arm_core_data_bit instr arm_cdata_mov_r
        else
          if bit instr 20 =? 1
          then arm_core_data_bit instr arm_ret_mov_pc
          else arm_core_data_bit instr arm_cdata_mov_r
      else
        if extra_eqb extra arm_mux_lsl_i_mov
        then arm_core_data_bit instr arm_cdata_lsl_imm
        else
          if bit instr 20 =? 1
          then arm_core_data_bit instr arm_ret_lsl_imm
          else arm_core_data_bit instr arm_cdata_lsl_imm
  | arm_mux_ror_i_rrx =>
      if bitrng instr 11 7 =? 0
      then arm_core_data_bit instr arm_cdata_rrx_r
      else arm_core_data_bit instr arm_cdata_ror_imm
  | arm_mux_vmovn_q =>
      if negb (bitrng instr 19 18 =? 3) && (bit instr 0 =? 0)
      then ret set_addr_lin else ret retval
  | arm_mux_msr_r_pr =>
      cpsr <- rd_cpsr ;;
      if bitrng cpsr 4 0 =? 16 then
        let retval := set_addr_lin in
        if bit instr 22 =? 1 then ret (set_unpred_addr retval)
        else if bitrng instr 19 18 =? 0 then ret (set_unpred_addr retval)
        else if bitrng instr 3 0 =? 15 then ret (set_unpred_addr retval)
        else ret retval
      else if bitrng cpsr 4 0 =? 31 then
        let retval := set_addr_lin in
        v <- rd_storage (bitrng instr 3 0) ;;
        let tmp1 := Z.land v 0x1f in
        if negb (tmp1 =? 16) && negb (tmp1 =? 31)
        then ret (set_unpred_addr retval)
        else if bitrng instr 19 16 =? 0 then ret (set_unpred_addr retval)
        else if bitrng instr 3 0 =? 15 then ret (set_unpred_addr retval)
        else ret retval
      else
        let retval := set_addr_lin in
        if bitrng instr 19 16 =? 0 then ret (set_unpred_addr retval)
        else if bitrng instr 3 0 =? 15 then ret (set_unpred_addr retval)
        else ret retval
  | arm_mux_mrs_r_pr =>
      let retval := set_addr_lin in
      cpsr <- rd_cpsr ;;
      let tmp1 := Z.land (bitrng cpsr 4 0) 0x1f in
      if tmp1 =? 16 then
        if bitrng instr 11 8 =? 15 then
          let retval :=
            if bit instr 22 =? 0
            then assign_arm (Z.land cpsr 0xf80f0000) else retval in
          ret (set_unpred_addr retval)
        else ret retval
      else if tmp1 =? 31 then
        if bitrng instr 11 8 =? 15 then
          let retval :=
            if bit instr 22 =? 0
            then assign_arm (Z.land cpsr 0xf8ff03df) else retval in
          ret (set_unpred_addr retval)
        else ret retval
      else
        if bitrng instr 11 8 =? 15 then
          if bit instr 22 =? 0
          then ret (set_unpred_addr (assign_arm (Z.land cpsr 0xf8ff03df)))
          else
            tmp2 <- rd_spsr ;;
            ret (set_unpred_addr (assign_arm tmp2))
        else ret retval
  | arm_mux_msr_i_pr_hints =>
      let retval := set_addr_lin in
      if negb (bitrng instr 19 16 =? 0) then
        cpsr <- rd_cpsr ;;
        if bitrng cpsr 4 0 =? 16 then
          if bit instr 22 =? 1 then ret (set_unpred_addr retval)
          else ret retval
        else if bitrng cpsr 4 0 =? 31 then
          v <- rd_storage (bitrng instr 3 0) ;;
          let tmp1 := Z.land v 0x1f in
          let retval :=
            if negb (tmp1 =? 16) && negb (tmp1 =? 31)
            then set_unpred_addr retval else retval in
          let retval :=
            if bit instr 22 =? 1 then set_unpred_addr retval else retval in
          ret retval
        else ret retval
      else
        let hint := bitrng instr 7 0 in
        if (hint =? 0) || (hint =? 1) || (hint =? 2) || (hint =? 3)
           || (hint =? 4)
        then ret retval
        else if negb (Z.land hint 0xf0 =? 0xf0) then ret set_undef_addr
        else ret retval
  | arm_mux_vorr_vmov_nm =>
      if (bit instr 16 =? 0) && (bit instr 12 =? 0) && (bit instr 0 =? 0)
      then ret set_addr_lin else ret retval
  | arm_mux_vst_type =>
      let type := bitrng instr 11 8 in
      if (type =? 2) || (type =? 6) || (type =? 7) || (type =? 10)
      then arm_vfp_ldst_elem instr arm_vldste_vst1_mult
      else if (type =? 3) || (type =? 8) || (type =? 9)
      then arm_vfp_ldst_elem instr arm_vldste_vst2_mult
      else if (type =? 4) || (type =? 5)
      then arm_vfp_ldst_elem instr arm_vldste_vst3_mult
      else if (type =? 0) || (type =? 1)
      then arm_vfp_ldst_elem instr arm_vldste_vst4_mult
      else ret retval
  | arm_mux_vld_type =>
      let type := bitrng instr 11 8 in
      if (type =? 2) || (type =? 6) || (type =? 7) || (type =? 10)
      then arm_vfp_ldst_elem instr arm_vldste_vld1_mult
      else if (type =? 3) || (type =? 8) || (type =? 9)
      then arm_vfp_ldst_elem instr arm_vldste_vld2_mult
      else if (type =? 4) || (type =? 5)
      then arm_vfp_ldst_elem instr arm_vldste_vld3_mult
      else if (type =? 0) || (type =? 1)
      then arm_vfp_ldst_elem instr arm_vldste_vld4_mult
      else ret retval
  | _ => ret retval
  end.

(** The condition is checked once, after the switch, and only for an
    outcome whose tag is ARM. *)
Definition arm_mux (instr : Z) (extra : ARM_decode_extra_t)
  : M instr_next_addr_t :=
  retval <- arm_mux_switch instr extra ;;
  if flag_eqb (flag retval) INSTR_ADDR_ARM then
    wb <- will_branch instr ;;
    if negb wb then ret set_addr_lin else ret retval
  else ret retval.

(** *** arm_branch *)
Definition arm_branch (instr : Z) (extra : ARM_decode_extra_t)
  : M instr_next_addr_t :=
  let retval := set_undef_addr in
  wb <- will_branch instr ;;
  if wb then
    match extra with
    | arm_bra_b_lbl | arm_bra_bl_lbl =>
        pc <- rd_r15 ;;
        let baddr := to_int pc in
        let baddr := baddr + 8 in
        let baddr := baddr + Z.shiftl (sx32 instr 23 0) 2 in
        ret (set_arm_addr (u32 baddr))
    | arm_bra_blx_lbl =>
        pc <- rd_r15 ;;
        let baddr := to_int pc in
        let baddr := baddr + 8 in
        let baddr :=
          baddr + Z.lor (Z.shiftl (sx32 instr 23 0) 2)
                        (Z.shiftl (bit instr 24) 1) in
        ret (set_thumb_addr (u32 baddr))
    | arm_bra_bx_r | arm_bra_blx_r | arm_bra_bxj_r =>
        a <- rd_storage (bitrng instr 3 0) ;;
        let retval :=
          if truthy (bit a 0) then set_thumb_addr (Z.land a (mask_from 1))
          else if bit a 1 =? 0 then set_arm_addr (Z.land a (mask_from 2))
          else set_unpred_addr set_addr_lin in
        let retval :=
          if bitrng instr 3 0 =? 15 then set_unpred_addr retval else retval in
        ret retval
    | _ => ret retval
    end
  else ret set_addr_lin.

(** *** arm_core_data_div

    Rd = bits 19-16, Rm = bits 11-8 (the divisor), Rn = bits 3-0. *)
Definition arm_core_data_div (instr : Z) (extra : ARM_decode_extra_t)
  : M instr_next_addr_t :=
  let tmp1 := bitrng instr 19 16 in
  let tmp2 := bitrng instr 11 8 in
  let tmp3 := bitrng instr 3 0 in
  if tmp1 =? 15 then
    if extra_eqb extra arm_div_sdiv then
      v2 <- rd_storage tmp2 ;;
      v3 <- rd_storage tmp3 ;;
      let stmp2 := to_int v2 in
      let stmp3 := to_int v3 in
      let stmp2 := if tmp2 =? 15 then to_int (stmp2 + 8) else stmp2 in
      let stmp3 := if tmp3 =? 15 then to_int (stmp3 + 8) else stmp3 in
      if stmp2 =? 0 then ret (set_arm_addr 0)
      else
        let stmp1 :=
          if bit (u32 stmp3) 31 =? bit (u32 stmp2) 31
          then Z.quot stmp3 stmp2
          else
            Z.shiftr
              (to_int (Z.quot (to_int (Z.shiftl stmp3 1)) stmp2 + 1)) 1 in
        ret (set_arm_addr (u32 stmp1))
    else
      let tmp4 := 0 in
      let tmp4 := if tmp2 =? 15 then tmp4 + 8 else tmp4 in
      v2 <- rd_storage tmp2 ;;
      let tmp2' := add32 v2 tmp4 in
      let tmp4 := if tmp3 =? 15 then tmp4 + 8 else tmp4 in
      v3 <- rd_storage tmp3 ;;
      let tmp3' := add32 v3 tmp4 in
      let tmp1 := if tmp2' =? 0 then tmp1 else Z.div tmp3' tmp2' in
      ret (set_arm_addr tmp1)
  else
    let retval := set_addr_lin in
    ret (if (tmp2 =? 15) || (tmp3 =? 15)
         then set_unpred_addr retval else retval).

(** *** arm_core_data_mac

    Rd = bits 19-16, Rm = bits 11-8, Rn = bits 3-0, Ra = bits 15-12.  A
    product of two [int]s is an [int]: it is cut to 32 bits before it is
    widened to [long long]. *)
Definition mac_half (sel v : Z) : Z :=
  if truthy sel then to_short (bitrng v 31 16) else to_short (bitrng v 15 0).

Definition arm_core_data_mac (instr : Z) (extra : ARM_decode_extra_t)
  : M instr_next_addr_t :=
  let retval := set_undef_addr in
  let tmp3 := bitrng instr 19 16 in
  if tmp3 =? 15 then
    let rm := bitrng instr 11 8 in
    let rn := bitrng instr 3 0 in
    vm <- rd_storage rm ;;
    let tmp1 := add32 vm (if rm =? 15 then 8 else 0) in
    vn <- rd_storage rn ;;
    let tmp2 := add32 vn (if rn =? 15 then 8 else 0) in
    match extra with
    | arm_cmac_mul | arm_cmac_mla | arm_cmac_mls =>
        let ltmp := mul32 tmp1 tmp2 in
        let tmp3 := Z.land ltmp 0xffffffff in
        if extra_eqb extra arm_cmac_mla then
          tmp4 <- rd_storage (bitrng instr 15 12) ;;
          let tmp3 := add32 tmp3 tmp4 in
          ret (set_unpred_addr (set_arm_addr tmp3))
        else if extra_eqb extra arm_cmac_mls then
          tmp4 <- rd_storage (bitrng instr 15 12) ;;
          let tmp3 := sub32 tmp4 tmp3 in
          ret (set_unpred_addr (set_arm_addr tmp3))
        else ret (set_unpred_addr (set_arm_addr tmp3))
    | arm_cmac_smulw | arm_cmac_smlaw =>
        let stmp1 := mac_half (bit instr 6) tmp1 in
        let stmp2 := to_int tmp2 in
        let ltmp := to_int (stmp2 * stmp1) in
        let stmp3 := to_int (Z.land (Z.shiftr ltmp 16) 0xffffffff) in
        if extra_eqb extra arm_cmac_smlaw then
          tmp4 <- rd_storage (bitrng instr 15 12) ;;
          let stmp3 := stmp3 + to_int tmp4 in
          ret (set_unpred_addr (set_arm_addr (u32 stmp3)))
        else ret (set_unpred_addr (set_arm_addr (u32 stmp3)))
    | arm_cmac_smul | arm_cmac_smla =>
        let stmp1 := mac_half (bit instr 6) tmp1 in
        let stmp2 := mac_half (bit instr 5) tmp2 in
        let stmp3 := stmp2 * stmp1 in
        if extra_eqb extra arm_cmac_smla then
          tmp4 <- rd_storage (bitrng instr 15 12) ;;
          let stmp3 := stmp3 + to_int tmp4 in
          ret (set_unpred_addr (set_arm_addr (u32 stmp3)))
        else ret (set_unpred_addr (set_arm_addr (u32 stmp3)))
    | arm_cmac_smmul | arm_cmac_smmla | arm_cmac_smmls =>
        let ltmp := to_int (to_int tmp1 * to_int tmp2) in
        let ltmp := if truthy (bit instr 5) then ltmp + 0x80000000 else ltmp in
        let stmp3 := to_int (Z.land (Z.shiftr ltmp 32) 0xffffffff) in
        if extra_eqb extra arm_cmac_smmla then
          tmp4 <- rd_storage (bitrng instr 15 12) ;;
          let stmp3 := stmp3 + to_int tmp4 in
          ret (set_unpred_addr (set_arm_addr (u32 stmp3)))
        else if extra_eqb extra arm_cmac_smmls then
          tmp4 <- rd_storage (bitrng instr 15 12) ;;
          let stmp3 := to_int tmp4 - stmp3 in
          ret (set_unpred_addr (set_arm_addr (u32 stmp3)))
        else ret (set_unpred_addr (set_arm_addr (u32 stmp3)))
    | arm_cmac_smuad | arm_cmac_smusd | arm_cmac_smlad | arm_cmac_smlsd =>
        let tmp1 :=
          if truthy (bit instr 5)
          then Z.lor (bitrng tmp1 31 16) (shl32 (bitrng tmp1 15 0) 16)
          else tmp1 in
        let stmp1 := to_short (Z.land tmp1 0xffff) in
        let stmp2 := to_short (Z.land tmp2 0xffff) in
        let stmp3 := stmp1 * stmp2 in
        let stmp1 := to_short (Z.land (shr32 tmp1 16) 0xffff) in
        let stmp2 := to_short (Z.land (shr32 tmp2 16) 0xffff) in
        let stmp3 :=
          if extra_eqb extra arm_cmac_smuad || extra_eqb extra arm_cmac_smlad
          then stmp3 + stmp1 * stmp2
          else stmp3 - stmp1 * stmp2 in
        if extra_eqb extra arm_cmac_smlsd || extra_eqb extra arm_cmac_smlad
        then
          tmp4 <- rd_storage (bitrng instr 15 12) ;;
          let stmp3 := stmp3 + to_int tmp4 in
          ret (set_unpred_addr (set_arm_addr (u32 stmp3)))
        else ret (set_unpred_addr (set_arm_addr (u32 stmp3)))
    | _ => ret retval
    end
  else ret set_addr_lin.

(** *** The standard data-processing handlers *)

(** The second switch of [arm_core_data_std_r] and [arm_core_data_std_i],
    entered for the exception-return sub-types with the ALU result in
    [retval]. *)
Definition std_ret_check (instr : Z) (retval : instr_next_addr_t)
  : M instr_next_addr_t :=
  tmp1 <- rd_cpsr ;;
  if negb (truthy (bit instr 20)) then
    let tmp3 := address retval in
    ret (by_low_bits tmp3 (set_unpred_addr (set_thumb_addr tmp3)))
  else
    let mode := Z.land tmp1 0x1f in
    if (mode =? 0x10) || (mode =? 0x1f) then
      ret (set_unpred_addr (set_arm_addr 0x8))
    else if mode =? 0x1a then ret set_undef_addr
    else
      tmp1 <- rd_spsr ;;
      ret (if truthy (bit tmp1 5)
           then set_thumb_addr (address retval) else retval).

(** Operands of [arm_core_data_std_r]: ([tmp1], [tmp2]) after the shift by
    immediate.  The rotate case reuses [tmp1] for its mask. *)
Definition std_r_operands (instr : Z) : M (Z * Z) :=
  let rn := bitrng instr 19 16 in
  v <- rd_storage rn ;;
  let tmp1 := if rn =? 15 then add32 v 8 else v in
  let rm := bitrng instr 3 0 in
  w <- rd_storage rm ;;
  let tmp2 := if rm =? 15 then add32 w 8 else w in
  let tmp3 := bitrng instr 11 7 in
  let shift := bitrng instr 6 5 in
  if shift =? 0 then ret (tmp1, shl32 tmp2 tmp3)
  else if shift =? 1 then
    ret (tmp1, if tmp3 =? 0 then 0 else shr32 tmp2 tmp3)
  else if shift =? 2 then
    let tmp3 := if tmp3 =? 0 then 31 else tmp3 in
    ret (tmp1, asr32 tmp2 tmp3)
  else if shift =? 3 then
    if tmp3 =? 0 then
      c <- rd_cpsr ;;
      let tmp3 := bit c 29 in
      ret (tmp1, Z.lor (shr32 tmp2 1) (shl32 tmp3 31))
    else
      let tmp4 := shl32 tmp2 (32 - tmp3) in
      let tmp2 := shr32 tmp2 tmp3 in
      let tmp1 := mask_from tmp3 in
      ret (tmp1, lor_c (Z.land tmp2 (not32 tmp1)) (Z.land tmp4 tmp1))
  else ret (tmp1, tmp2).

(** The first switch over the sub-type: the ALU operation. *)
Definition std_r_alu (extra : ARM_decode_extra_t) (tmp1 tmp2 : Z)
  (retval : instr_next_addr_t) : M instr_next_addr_t :=
  match extra with
  | arm_cdata_adc_r | arm_ret_adc_r =>
      c <- rd_cpsr ;;
      let tmp3 := u32 (tmp1 + tmp2 + bit c 29) in
      ret (set_arm_addr tmp3)
  | arm_cdata_add_r | arm_cdata_add_r_sp | arm_ret_add_r =>
      ret (set_arm_addr (add32 tmp1 tmp2))
  | arm_cdata_and_r | arm_ret_and_r =>
      ret (set_arm_addr (Z.land tmp1 tmp2))
  | arm_cdata_bic_r | arm_ret_bic_r =>
      ret (set_arm_addr (Z.land tmp1 (not32 tmp2)))
  | arm_cdata_eor_r | arm_ret_eor_r =>
      ret (set_arm_addr (Z.lxor tmp1 tmp2))
  | arm_cdata_mvn_r | arm_ret_mvn_r =>
      ret (set_arm_addr (not32 tmp2))
  | arm_cdata_orr_r | arm_ret_orr_r =>
      ret (set_arm_addr (Z.land tmp1 tmp2))
  | arm_cdata_rsb_r | arm_ret_rsb_r =>
      ret (set_arm_addr (sub32 tmp2 tmp1))
  | arm_cdata_rsc_r | arm_ret_rsc_r =>
      c <- rd_cpsr ;;
      let tmp3 := bit c 29 in
      ret (set_arm_addr (u32 (not32 tmp1 + tmp2 + tmp3)))
  | arm_cdata_sbc_r | arm_ret_sbc_r =>
      c <- rd_cpsr ;;
      let tmp3 := bit c 29 in
      ret (set_arm_addr (u32 (tmp1 + not32 tmp2 + tmp3)))
  | arm_cdata_sub_r | arm_cdata_sub_r_sp | arm_ret_sub_r =>
      ret (set_arm_addr (sub32 tmp1 tmp2))
  | _ => ret retval
  end.

(** The case labels of the second switch. *)
Definition std_r_is_ret (extra : ARM_decode_extra_t) : bool :=
  match extra with
  | arm_ret_adc_r | arm_ret_add_r | arm_ret_and_r | arm_ret_bic_r
  | arm_ret_eor_r | arm_ret_mvn_r | arm_ret_orr_r | arm_ret_rsb_r
  | arm_ret_rsc_r | arm_ret_sbc_r | arm_ret_sub_r => true
  | _ => false
  end.

Definition arm_core_data_std_r (instr : Z) (extra : ARM_decode_extra_t)
  : M instr_next_addr_t :=
  let retval := set_undef_addr in
  if extra_eqb extra arm_cdata_cmn_r || extra_eqb extra arm_cdata_cmp_r
     || extra_eqb extra arm_cdata_teq_r || extra_eqb extra arm_cdata_tst_r
  then ret set_addr_lin
  else if bitrng instr 15 12 =? 15 then
    ops <- std_r_operands instr ;;
    let tmp1 := fst ops in
    let tmp2 := snd ops in
    retval <- std_r_alu extra tmp1 tmp2 retval ;;
    if std_r_is_ret extra then std_ret_check instr retval
    else ret retval
  else ret set_addr_lin.

(** Operands of [arm_core_data_std_sh]: the shift count comes from Rs. *)
Definition std_sh_operands (instr : Z) : M (Z * Z) :=
  let rn := bitrng instr 19 16 in
  v <- rd_storage rn ;;
  let tmp1 := if rn =? 15 then add32 v 8 else v in
  let rm := bitrng instr 3 0 in
  w <- rd_storage rm ;;
  let tmp2 := if rm =? 15 then add32 w 8 else w in
  let rs := bitrng instr 11 8 in
  x <- rd_storage rs ;;
  let tmp3 := if rs =? 15 then add32 x 8 else x in
  let tmp3 := Z.land tmp3 0x1f in
  if negb (tmp3 =? 0) then
    let shift := bitrng instr 6 5 in
    if shift =? 0 then ret (tmp1, shl32 tmp2 tmp3)
    else if shift =? 1 then ret (tmp1, shr32 tmp2 tmp3)
    else if shift =? 2 then ret (tmp1, asr32 tmp2 tmp3)
    else if shift =? 3 then
      let tmp4 := shl32 tmp2 (32 - tmp3) in
      let tmp2 := shr32 tmp2 tmp3 in
      let tmp1 := mask_from tmp3 in
      ret (tmp1, lor_c (Z.land tmp2 (not32 tmp1)) (Z.land tmp4 tmp1))
    else ret (tmp1, tmp2)
  else ret (tmp1, tmp2).

Definition std_sh_alu (extra : ARM_decode_extra_t) (tmp1 tmp2 : Z)
  (retval : instr_next_addr_t) : M instr_next_addr_t :=
  match extra with
  | arm_cdata_adc_rshr =>
      c <- rd_cpsr ;;
      let tmp3 := u32 (tmp1 + tmp2 + bit c 29) in
      ret (set_arm_addr tmp3)
  | arm_cdata_add_rshr => ret (set_arm_addr (add32 tmp1 tmp2))
  | arm_cdata_and_rshr => ret (set_arm_addr (Z.land tmp1 tmp2))
  | arm_cdata_bic_rshr => ret (set_arm_addr (Z.land tmp1 (not32 tmp2)))
  | arm_cdata_eor_rshr => ret (set_arm_addr (Z.lxor tmp1 tmp2))
  | arm_cdata_mvn_rshr => ret (set_arm_addr (not32 tmp2))
  | arm_cdata_orr_rshr => ret (set_arm_addr (Z.land tmp1 tmp2))
  | arm_cdata_rsb_rshr => ret (set_arm_addr (sub32 tmp2 tmp1))
  | arm_cdata_rsc_rshr =>
      c <- rd_cpsr ;;
      let tmp3 := bit c 29 in
      ret (set_arm_addr (u32 (not32 tmp1 + tmp2 + tmp3)))
  | arm_cdata_sbc_rshr =>
      c <- rd_cpsr ;;
      let tmp3 := bit c 29 in
      ret (set_arm_addr (u32 (tmp1 + not32 tmp2 + tmp3)))
  | arm_cdata_sub_rshr => ret (set_arm_addr (sub32 tmp1 tmp2))
  | _ => ret retval
  end.

Definition arm_core_data_std_sh (instr : Z) (extra : ARM_decode_extra_t)
  : M instr_next_addr_t :=
  let retval := set_undef_addr in
  if extra_eqb extra arm_cdata_cmn_rshr || extra_eqb extra arm_cdata_cmp_rshr
     || extra_eqb extra arm_cdata_teq_rshr
     || extra_eqb extra arm_cdata_tst_rshr
  then ret set_addr_lin
  else if bitrng instr 15 12 =? 15 then
    ops <- std_sh_operands instr ;;
    let tmp1 := fst ops in
    let tmp2 := snd ops in
    retval <- std_sh_alu extra tmp1 tmp2 retval ;;
    ret (set_unpred_addr retval)
  else ret set_addr_lin.

(** Operands of [arm_core_data_std_i]: the 8-bit immediate rotated by twice
    bits 11-8. *)
Definition std_i_operands (instr : Z) : M (Z * Z) :=
  let rn := bitrng instr 19 16 in
  v <- rd_storage rn ;;
  let tmp1 := if rn =? 15 then add32 v 8 else v in
  let tmp2 := bitrng instr 7 0 in
  let tmp3 := shl32 (bitrng instr 11 8) 1 in
  let tmp3 := Z.land tmp3 0x1f in
  if negb (tmp3 =? 0) then
    let tmp4 := shl32 tmp2 (32 - tmp3) in
    let tmp2 := shr32 tmp2 tmp3 in
    let tmp1 := mask_from tmp3 in
    ret (tmp1, lor_c (Z.land tmp2 (not32 tmp1)) (Z.land tmp4 tmp1))
  else ret (tmp1, tmp2).

Definition std_i_alu (extra : ARM_decode_extra_t) (tmp1 tmp2 : Z)
  (retval : instr_next_addr_t) : M instr_next_addr_t :=
  match extra with
  | arm_cdata_adc_imm | arm_ret_adc_imm =>
      c <- rd_cpsr ;;
      let tmp3 := u32 (tmp1 + tmp2 + bit c 29) in
      ret (set_arm_addr tmp3)
  | arm_cdata_add_imm | arm_cdata_add_imm_sp | arm_ret_add_imm =>
      ret (set_arm_addr (add32 tmp1 tmp2))
  | arm_cdata_adr_lbla =>
      pc <- rd_r15 ;;
      let tmp3 := Z.land pc (mask_from 2) in
      ret (set_arm_addr (add32 tmp3 tmp2))
  | arm_cdata_adr_lblb =>
      pc <- rd_r15 ;;
      let tmp3 := Z.land pc (mask_from 2) in
      ret (set_arm_addr (sub32 tmp3 tmp2))
  | arm_cdata_and_imm => ret (set_arm_addr (Z.land tmp1 tmp2))
  | arm_cdata_bic_imm | arm_ret_bic_imm =>
      ret (set_arm_addr (Z.land tmp1 (not32 tmp2)))
  | arm_cdata_eor_imm | arm_ret_eor_imm =>
      ret (set_arm_addr (Z.lxor tmp1 tmp2))
  | arm_cdata_mov_imm | arm_ret_mov_imm => ret (set_arm_addr tmp2)
  | arm_cdata_mvn_imm | arm_ret_mvn_imm => ret (set_arm_addr (not32 tmp2))
  | arm_cdata_orr_imm => ret (set_arm_addr (Z.land tmp1 tmp2))
  | arm_cdata_rsb_imm | arm_ret_rsb_imm =>
      ret (set_arm_addr (sub32 tmp2 tmp1))
  | arm_cdata_rsc_imm | arm_ret_rsc_imm =>
      c <- rd_cpsr ;;
      let tmp3 := bit c 29 in
      ret (set_arm_addr (u32 (not32 tmp1 + tmp2 + tmp3)))
  | arm_cdata_sbc_imm | arm_ret_sbc_imm =>
      c <- rd_cpsr ;;
      let tmp3 := bit c 29 in
      ret (set_arm_addr (u32 (tmp1 + not32 tmp2 + tmp3)))
  | arm_cdata_sub_imm | arm_cdata_sub_imm_sp | arm_ret_sub_imm =>
      ret (set_arm_addr (sub32 tmp1 tmp2))
  | _ => ret retval
  end.

Definition std_i_is_ret (extra : ARM_decode_extra_t) : bool :=
  match extra with
  | arm_ret_adc_imm | arm_ret_add_imm | arm_ret_bic_imm
  | arm_ret_eor_imm | arm_ret_mov_imm | arm_ret_mvn_imm
  | arm_ret_rsb_imm | arm_ret_rsc_imm | arm_ret_sbc_imm
  | arm_ret_sub_imm => true
  | _ => false
  end.

Definition arm_core_data_std_i (instr : Z) (extra : ARM_decode_extra_t)
  : M instr_next_addr_t :=
  let retval := set_undef_addr in
  if extra_eqb extra arm_cdata_cmn_imm || extra_eqb extra arm_cdata_cmp_imm
     || extra_eqb extra arm_cdata_teq_imm || extra_eqb extra arm_cdata_tst_imm
  then ret set_addr_lin
  else if bitrng instr 15 12 =? 15 then
    ops <- std_i_operands instr ;;
    let tmp1 := fst ops in
    let tmp2 := snd ops in
    retval <- std_i_alu extra tmp1 tmp2 retval ;;
    if std_i_is_ret extra then std_ret_check instr retval
    else ret retval
  else ret set_addr_lin.

(** *** arm_core_exc

    The operands of [&&] and [||] are evaluated left to right and only as far
    as needed in the source; all of them are reads of the target, so they
    are sequenced here before the test. *)
Definition arm_core_exc (instr : Z) (extra : ARM_decode_extra_t)
  : M instr_next_addr_t :=
  let retval := set_undef_addr in
  match extra with
  | arm_exc_eret =>
      hyp <- check_proc_mode (INSTR_PMODE_HYP U) 0 0 0 ;;
      if hyp then
        elr <- get_elr_hyp ;;
        ret (set_unpred_addr (set_arm_addr elr))
      else
        usr_sys <-
          check_proc_mode (INSTR_PMODE_USR U) (INSTR_PMODE_SYS U) 0 0 ;;
        if usr_sys then ret set_undef_addr
        else
          lr <- rd_r14 ;;
          ret (set_arm_addr lr)
  | arm_exc_bkpt =>
      ret set_addr_lin
  | arm_exc_hvc =>
      sec <- get_security_state ;;
      if sec then ret set_undef_addr
      else
        usr <- check_proc_mode (INSTR_PMODE_USR U) 0 0 0 ;;
        if usr then ret set_undef_addr
        else
          scr <- get_SCR ;;
          if negb (truthy (Z.land scr (Z.shiftl 1 8))) then
            usr <- check_proc_mode (INSTR_PMODE_USR U) 0 0 0 ;;
            if usr then ret set_addr_lin else ret set_undef_addr
          else ret set_addr_lin
  | arm_exc_smc =>
      usr <- check_proc_mode (INSTR_PMODE_USR U) 0 0 0 ;;
      if usr then ret set_undef_addr
      else
        hcr <- get_HCR ;;
        sec <- get_security_state ;;
        if truthy (Z.land hcr (Z.shiftl 1 19)) && negb sec
        then ret set_addr_lin
        else
          scr <- get_SCR ;;
          if truthy (Z.land scr (Z.shiftl 1 7)) then
            if negb sec then ret set_undef_addr else ret set_addr_lin
          else ret set_addr_lin
  | arm_exc_svc =>
      hcr <- get_HCR ;;
      if truthy (Z.land hcr (Z.shiftl 1 27)) then
        sec <- get_security_state ;;
        usr <- check_proc_mode (INSTR_PMODE_USR U) 0 0 0 ;;
        if negb sec && usr then ret set_addr_lin else ret set_addr_lin
      else ret set_addr_lin
  | arm_exc_udf =>
      ret set_undef_addr
  | arm_exc_rfe =>
      hyp <- check_proc_mode (INSTR_PMODE_HYP U) 0 0 0 ;;
      if hyp then ret set_undef_addr
      else
        let tmp1 := bitrng instr 19 16 in
        tmp2 <- rd_storage tmp1 ;;
        let tmp3 := bits instr 0x01800000 in
        tmp3 <-
          (if tmp3 =? 0 then load32 (tmp2 - 4)
           else if tmp3 =? 1 then load32 tmp2
           else if tmp3 =? 2 then load32 (sub32 tmp2 4 - 8)
           else if tmp3 =? 3 then load32 (add32 tmp2 4 + 4)
           else ret tmp3) ;;
        let retval := set_arm_addr tmp3 in
        usr <- check_proc_mode (INSTR_PMODE_USR U) 0 0 0 ;;
        cpsr <- rd_cpsr ;;
        (* [cpsr & 0x01000020 == 0x01000020]: the comparison binds first *)
        let thumbee := Z.land cpsr (Z.b2z (0x01000020 =? 0x01000020)) in
        if usr && truthy thumbee then ret (set_unpred_addr retval)
        else ret retval
  | arm_exc_srs =>
      hyp <- check_proc_mode (INSTR_PMODE_HYP U) 0 0 0 ;;
      if hyp then ret set_undef_addr
      else
        let retval := set_addr_lin in
        usr_sys <-
          check_proc_mode (INSTR_PMODE_USR U) (INSTR_PMODE_SYS U) 0 0 ;;
        mon <- check_proc_mode (INSTR_PMODE_MON U) 0 0 0 ;;
        fiq <- check_proc_mode (INSTR_PMODE_FIQ U) 0 0 0 ;;
        cpa <- check_coproc_access 16 ;;
        sec <- get_security_state ;;
        if usr_sys then ret (set_unpred_addr retval)
        else if bitrng instr 4 0 =? INSTR_PMODE_HYP U
        then ret (set_unpred_addr retval)
        else if mon && negb sec then ret (set_unpred_addr retval)
        else if fiq && cpa && negb sec then ret (set_unpred_addr retval)
        else ret retval
  | _ => ret retval
  end.

(** *** arm_core_ldst

    Rn = bits 19-16, Rt = bits 15-12, Rm = bits 3-0; P = bit 24, U = bit 23,
    B = bit 22, W = bit 21, L = bit 20.  The sub-type is not consulted. *)

(** The offset [tmp2] and the increments of [unp] made while it is
    computed. *)
Definition ldst_offset (instr : Z) : M (Z * Z) :=
  let tmp2 := bitrng instr 15 12 in
  let tmp3 := bit instr 21 in
  if truthy (bit instr 25) then
    let unp := if truthy tmp3 && (tmp2 =? 15) then 1 else 0 in
    let tmp1 := bitrng instr 3 0 in
    let unp := if tmp1 =? 15 then unp + 1 else unp in
    tmp2 <- rd_storage tmp1 ;;
    let tmp3 := bitrng instr 11 7 in
    let shift := bitrng instr 6 5 in
    if shift =? 0 then ret (shl32 tmp2 tmp3, unp)
    else if shift =? 1 then
      ret (if tmp3 =? 0 then 0 else shr32 tmp2 tmp3, unp)
    else if shift =? 2 then
      let tmp3 := if tmp3 =? 0 then 31 else tmp3 in
      ret (asr32 tmp2 tmp3, unp)
    else if shift =? 3 then
      if tmp3 =? 0 then
        c <- rd_cpsr ;;
        let tmp3 := bit c 29 in
        ret (Z.lor (shr32 tmp2 1) (shl32 tmp3 31), unp)
      else
        let tmp4 := shl32 tmp2 (32 - tmp3) in
        let tmp2 := shr32 tmp2 tmp3 in
        let tmp1 := mask_from tmp3 in
        ret (lor_c (Z.land tmp2 (not32 tmp1)) (Z.land tmp4 tmp1), unp)
    else ret (tmp2, unp)
  else ret (bitrng instr 11 0, 0).

(** The load of the transfer value: a byte when B is set, a word
    otherwise. *)
Definition ldst_fetch (instr a : Z) : M Z :=
  if truthy (bit instr 22) then load8 a else load32 a.

Definition arm_core_ldst (instr : Z) (extra : ARM_decode_extra_t)
  : M instr_next_addr_t :=
  let retval := set_undef_addr in
  let tmp1 := bitrng instr 19 16 in
  let tmp2 := bitrng instr 15 12 in
  let tmp3 := bit instr 21 in
  let unp := if truthy tmp3 && (tmp1 =? tmp2) then 1 else 0 in
  res <-
    (if (tmp1 =? 15) || (tmp2 =? 15) then
       off <- ldst_offset instr ;;
       let tmp2 := fst off in
       let unp := unp + snd off in
       let tmp3 := bitrng instr 19 16 in
       let tmp1 := bitrng instr 15 12 in
       let mode := bits instr 0x01200000 in
       if mode =? 0 then
         tmp4 <-
           (if tmp3 =? 15 then
              rn <- rd_storage tmp3 ;;
              if truthy (bit instr 23) then ret (add32 rn tmp2)
              else ret (sub32 rn tmp2)
            else
              if truthy (bit instr 20) then
                a <- rd_storage tmp3 ;;
                ldst_fetch instr a
              else rd_storage tmp1) ;;
         ret (set_arm_addr tmp4, unp)
       else if (mode =? 1) || (mode =? 2) then
         if tmp1 =? 15 then
           tmp4 <-
             (if truthy (bit instr 20) then
                rn <- rd_storage tmp3 ;;
                if truthy (bit instr 23)
                then ldst_fetch instr (add32 rn tmp2)
                else ldst_fetch instr (sub32 rn tmp2)
              else rd_storage tmp1) ;;
           ret (set_arm_addr tmp4, unp)
         else ret (set_addr_lin, unp)
       else if mode =? 3 then
         rn <- rd_storage tmp3 ;;
         let tmp3 :=
           if truthy (bit instr 23) then add32 rn tmp2 else sub32 rn tmp2 in
         rt <- rd_storage tmp1 ;;
         let tmp4 := if tmp3 =? 15 then tmp3 else rt in
         tmp4 <-
           (if (tmp1 =? 15) && truthy (bit instr 20)
            then ldst_fetch instr tmp3 else ret tmp4) ;;
         if tmp4 =? rt then ret (set_addr_lin, unp)
         else ret (set_arm_addr tmp4, unp)
       else ret (retval, unp)
     else ret (set_addr_lin, unp)) ;;
  let retval := fst res in
  let unp := snd res in
  let res :=
    if negb (address retval =? 0xffffffff) then
      let tmp1 := address retval in
      if truthy (bit tmp1 0) then (set_thumb_addr tmp1, unp)
      else if Z.land tmp1 3 =? 0 then (set_arm_addr tmp1, unp)
      else (set_thumb_addr tmp1, unp + 1)
    else (retval, unp) in
  ret (if truthy (snd res) then set_unpred_addr (fst res) else fst res).

(** *** arm_core_data_macd

    RdHi = bits 19-16, RdLo = bits 15-12, Rm = bits 11-8, Rn = bits 3-0.
    The 64-bit accumulator is an integer; only its low 64 bits are read.
    The SMLAL16 case selects two halfwords first and does not use them. *)
Definition macd_pick (hi : bool) (ltmp : Z) : Z :=
  if hi then Z.land (Z.shiftr ltmp 32) 0xffffffff
  else Z.land ltmp 0xffffffff.

Definition arm_core_data_macd (instr : Z) (extra : ARM_decode_extra_t)
  : M instr_next_addr_t :=
  let retval := set_undef_addr in
  let tmp3 := bitrng instr 19 16 in
  let tmp4 := bitrng instr 15 12 in
  if (tmp3 =? 15) || (tmp4 =? 15) then
    let rm := bitrng instr 11 8 in
    let rn := bitrng instr 3 0 in
    vm <- rd_storage rm ;;
    let tmp1 := add32 vm (if rm =? 15 then 8 else 0) in
    vn <- rd_storage rn ;;
    let tmp2 := add32 vn (if rn =? 15 then 8 else 0) in
    tmp4 <-
      match extra with
      | arm_cmac_smlal16 | arm_cmac_umaal =>
          let ltmp := to_int (to_int tmp1 * to_int tmp2) in
          hi <- rd_storage tmp3 ;;
          lo <- rd_storage tmp4 ;;
          let ltmp := ltmp + to_int (to_int hi + to_int lo) in
          ret (macd_pick (tmp3 =? 15) ltmp)
      | arm_cmac_smlal =>
          let ltmp := to_int (to_int tmp1 * to_int tmp2) in
          let ltmp := ltmp + Z.shiftl tmp3 32 in
          let ltmp := ltmp + to_int tmp4 in
          ret (macd_pick (tmp3 =? 15) ltmp)
      | arm_cmac_smull =>
          let ltmp := to_int (to_int tmp1 * to_int tmp2) in
          ret (macd_pick (tmp3 =? 15) ltmp)
      | arm_cmac_umlal =>
          let utmp := mul32 tmp1 tmp2 in
          let utmp := utmp + Z.shiftl tmp3 32 in
          let utmp := utmp + tmp4 in
          ret (macd_pick (tmp3 =? 15) utmp)
      | arm_cmac_umull =>
          let utmp := mul32 tmp1 tmp2 in
          ret (macd_pick (tmp3 =? 15) utmp)
      | arm_cmac_smlald | arm_cmac_smlsld =>
          let tmp1 :=
            if truthy (bit instr 5)
            then Z.lor (bitrng tmp1 31 16) (shl32 (bitrng tmp1 15 0) 16)
            else tmp1 in
          let stmp1 := to_short (Z.land tmp1 0xffff) in
          let stmp2 := to_short (Z.land tmp2 0xffff) in
          let stmp3 := stmp1 * stmp2 in
          let stmp1 := to_short (Z.land (shr32 tmp1 16) 0xffff) in
          let stmp2 := to_short (Z.land (shr32 tmp2 16) 0xffff) in
          let stmp3 :=
            if extra_eqb extra arm_cmac_smlald
            then to_int (stmp3 + stmp1 * stmp2)
            else to_int (stmp3 - stmp1 * stmp2) in
          hi <- rd_storage tmp3 ;;
          lo <- rd_storage tmp4 ;;
          let ltmp := stmp3 in
          let ltmp := ltmp + Z.shiftl (to_int hi) 32 in
          let ltmp := ltmp + to_int lo in
          ret (macd_pick (tmp3 =? 15) ltmp)
      | _ => ret tmp4
      end ;;
    ret (set_unpred_addr (set_arm_addr tmp4))
  else ret set_addr_lin.

(** *** arm_core_data_misc *)

(** The search loop of CLZ: [tmp3] runs from 0 and stops at the first set
    bit counted from the top, or at 32. *)
Fixpoint clz_loop (n : nat) (tmp3 tmp2 : Z) : Z :=
  match n with
  | O => tmp3
  | S n' =>
      if truthy (Z.land tmp2 (shl32 1 (31 - tmp3))) then tmp3
      else clz_loop n' (tmp3 + 1) tmp2
  end.

(** The byte loop of USAD8: the sum of absolute differences in [tmp3]. *)
Fixpoint usad8_loop (n : nat) (tmp4 tmp3 tmp1 tmp2 : Z) : Z :=
  match n with
  | O => tmp3
  | S n' =>
      let htmp1 := Z.land (shr32 tmp1 (8 * tmp4)) 0xff in
      let htmp2 := Z.land (shr32 tmp2 (8 * tmp4)) 0xff in
      let htmp1 :=
        if htmp2 <? htmp1 then htmp1 - htmp2 else htmp2 - htmp1 in
      usad8_loop n' (tmp4 + 1) (add32 tmp3 htmp1) tmp1 tmp2
  end.

(** A register operand read with the PC offset of 8. *)
Definition rd_operand (r : Z) : M Z :=
  v <- rd_storage r ;;
  ret (if r =? 15 then add32 v 8 else v).

Definition arm_core_data_misc (instr : Z) (extra : ARM_decode_extra_t)
  : M instr_next_addr_t :=
  let retval := set_undef_addr in
  match extra with
  | arm_cmisc_movw | arm_cmisc_movt =>
      let tmp1 := bitrng instr 15 12 in
      if tmp1 =? 15 then
        let tmp2 := bits instr 0x000f0fff in
        (* the source compares the instruction word, not the sub-type *)
        if instr =? extra_tag arm_cmisc_movt then
          let tmp2 := shl32 tmp2 16 in
          v <- rd_storage tmp1 ;;
          let tmp1 := Z.land v 0x0000ffff in
          let tmp2 := Z.lor tmp2 tmp1 in
          ret (set_unpred_addr (set_arm_addr tmp2))
        else ret (set_unpred_addr (set_arm_addr tmp2))
      else ret set_addr_lin
  | arm_cmisc_clz =>
      let tmp1 := bitrng instr 15 12 in
      if tmp1 =? 15 then
        let tmp2 := bitrng instr 3 0 in
        let tmp3 := if tmp2 =? 15 then 8 else 0 in
        v <- rd_storage tmp2 ;;
        let tmp2 := add32 v tmp3 in
        let tmp3 := clz_loop 32 0 tmp2 in
        ret (set_unpred_addr (set_arm_addr tmp3))
      else ret set_addr_lin
  | arm_cmisc_bfc =>
      let tmp1 := bitrng instr 15 12 in
      if tmp1 =? 15 then
        let tmp2 := bitrng instr 20 16 in
        let tmp3 := bitrng instr 11 7 in
        let tmp4 := mask_from (u32 (tmp2 - tmp3 + 1)) in
        let tmp4 := shl32 (not32 tmp4) tmp3 in
        let tmp4 := not32 tmp4 in
        v <- rd_storage tmp1 ;;
        let tmp1 := add32 v 8 in
        let tmp1 := Z.land tmp1 tmp4 in
        ret (set_unpred_addr (set_arm_addr tmp1))
      else ret set_addr_lin
  | arm_cmisc_bfi =>
      let tmp1 := bitrng instr 15 12 in
      if tmp1 =? 15 then
        let tmp2 := bitrng instr 20 16 in
        let tmp3 := bitrng instr 11 7 in
        let tmp4 := mask_from (u32 (tmp2 - tmp3 + 1)) in
        let tmp4 := shl32 (not32 tmp4) tmp3 in
        v <- rd_storage tmp1 ;;
        let tmp1 := add32 v 8 in
        let tmp1 := Z.land tmp1 (not32 tmp4) in
        tmp2 <- rd_operand (bitrng instr 3 0) ;;
        let tmp2 := Z.land tmp2 tmp4 in
        let tmp1 := Z.lor tmp1 tmp2 in
        ret (set_unpred_addr (set_arm_addr tmp1))
      else ret set_addr_lin
  | arm_cmisc_rbit =>
      let tmp1 := bitrng instr 15 12 in
      if tmp1 =? 15 then
        tmp1 <- rd_operand (bitrng instr 3 0) ;;
        let tmp1 :=
          Z.lor (shr32 (Z.land tmp1 0xaaaaaaaa) 1)
                (shl32 (Z.land tmp1 0x55555555) 1) in
        let tmp1 :=
          Z.lor (shr32 (Z.land tmp1 0xcccccccc) 2)
                (shl32 (Z.land tmp1 0x33333333) 2) in
        let tmp1 :=
          Z.lor (shr32 (Z.land tmp1 0xf0f0f0f0) 4)
                (shl32 (Z.land tmp1 0x0f0f0f0f) 4) in
        let tmp1 :=
          Z.lor (shr32 (Z.land tmp1 0xff00ff00) 8)
                (shl32 (Z.land tmp1 0x00ff00ff) 8) in
        let tmp1 :=
          Z.lor (shr32 (Z.land tmp1 0xffff0000) 16)
                (shl32 (Z.land tmp1 0x0000ffff) 16) in
        ret (set_unpred_addr (set_arm_addr tmp1))
      else ret set_addr_lin
  | arm_cmisc_rev | arm_cmisc_rev16 =>
      (* the reversed word is computed and not handed to [set_arm_addr] *)
      let tmp1 := bitrng instr 15 12 in
      if tmp1 =? 15 then
        tmp2 <- rd_operand (bitrng instr 3 0) ;;
        ret (set_unpred_addr retval)
      else ret set_addr_lin
  | arm_cmisc_revsh =>
      let tmp1 := bitrng instr 15 12 in
      if tmp1 =? 15 then
        tmp2 <- rd_operand (bitrng instr 3 0) ;;
        let tmp3 := if truthy (bit tmp2 7) then mask_from 16 else 0 in
        let tmp3 := Z.lor tmp3 (shr32 (Z.land tmp2 0x0000ff00) 8) in
        let tmp3 := Z.lor tmp3 (shl32 (Z.land tmp2 0x000000ff) 8) in
        ret (set_unpred_addr (set_arm_addr tmp3))
      else ret set_addr_lin
  | arm_cmisc_sbfx | arm_cmisc_ubfx =>
      let tmp1 := bitrng instr 15 12 in
      if tmp1 =? 15 then
        let tmp2 := bitrng instr 20 16 in
        let tmp3 := bitrng instr 11 7 in
        let tmp4 := mask_from (tmp2 + 1) in
        let tmp4 := shl32 (not32 tmp4) tmp3 in
        tmp1 <- rd_operand (bitrng instr 3 0) ;;
        let tmp1 := Z.land tmp1 tmp4 in
        let tmp1 := shr32 tmp1 tmp3 in
        let tmp1 :=
          if extra_eqb extra arm_cmisc_sbfx && truthy (bit tmp1 tmp2)
          then Z.lor tmp1 (mask_from (tmp2 + 1)) else tmp1 in
        ret (set_unpred_addr (set_arm_addr tmp1))
      else ret set_addr_lin
  | arm_cmisc_sel =>
      let tmp1 := bitrng instr 15 12 in
      if tmp1 =? 15 then
        tmp1 <- rd_operand (bitrng instr 19 16) ;;
        tmp2 <- rd_operand (bitrng instr 3 0) ;;
        tmp3 <- rd_cpsr ;;
        let pick (n : Z) := if truthy (bit tmp3 n) then tmp1 else tmp2 in
        let tmp4 := 0 in
        let tmp4 := Z.lor tmp4 (Z.land (pick 19) 0xff000000) in
        let tmp4 := Z.lor tmp4 (Z.land (pick 18) 0x00ff0000) in
        let tmp4 := Z.lor tmp4 (Z.land (pick 17) 0x0000ff00) in
        let tmp4 := Z.lor tmp4 (Z.land (pick 16) 0x000000ff) in
        ret (set_unpred_addr (set_arm_addr tmp4))
      else ret set_addr_lin
  | arm_cmisc_usad8 | arm_cmisc_usada8 =>
      let tmp1 := bitrng instr 15 12 in
      if tmp1 =? 15 then
        tmp1 <- rd_operand (bitrng instr 11 8) ;;
        tmp2 <- rd_operand (bitrng instr 3 0) ;;
        let tmp3 := usad8_loop 4 0 0 tmp1 tmp2 in
        if extra_eqb extra arm_cmisc_usada8 then
          tmp1 <- rd_storage (bitrng instr 15 12) ;;
          let tmp3 := add32 tmp3 tmp1 in
          ret (set_unpred_addr (set_arm_addr tmp3))
        else ret (set_unpred_addr (set_arm_addr tmp3))
      else ret set_addr_lin
  | _ => ret retval
  end.

(** *** arm_core_data_pack

    Rn = bits 19-16, Rd = bits 15-12, Rm = bits 3-0.  The rotation count
    handed to [instr_util_rorb] is the Rm field, as in the source. *)
Definition arm_core_data_pack (instr : Z) (extra : ARM_decode_extra_t)
  : M instr_next_addr_t :=
  let retval := set_undef_addr in
  match extra with
  | arm_pack_pkh =>
      let tmp4 := bitrng instr 15 12 in
      if tmp4 =? 15 then
        tmp1 <- rd_operand (bitrng instr 3 0) ;;
        let tmp2 := bitrng instr 11 7 in
        tmp3 <- rd_operand (bitrng instr 19 16) ;;
        if truthy (bit instr 6) then
          let tmp1 := asr32 tmp1 tmp2 in
          let tmp4 := Z.land tmp3 0xffff0000 in
          let tmp4 := Z.lor tmp4 (Z.land tmp1 0xffff) in
          ret (set_unpred_addr (set_arm_addr tmp4))
        else
          let tmp1 := shl32 tmp1 tmp2 in
          let tmp4 := Z.land tmp1 0xffff0000 in
          let tmp4 := Z.lor tmp4 (Z.land tmp3 0xffff) in
          ret (set_unpred_addr (set_arm_addr tmp4))
      else ret set_addr_lin
  | arm_pack_sxtb | arm_pack_uxtb | arm_pack_sxtab | arm_pack_uxtab
  | arm_pack_sxtab16 | arm_pack_uxtab16 | arm_pack_sxtb16 | arm_pack_uxtb16
  | arm_pack_sxth | arm_pack_sxtah | arm_pack_uxtah | arm_pack_uxth =>
      let tmp4 := bitrng instr 15 12 in
      if tmp4 =? 15 then
        tmp1 <- rd_operand (bitrng instr 3 0) ;;
        let tmp1 := u32 (instr_util_rorb U tmp1 (bitrng instr 3 0)) in
        let kind := bitrng instr 21 20 in
        tmp2 <-
          (if kind =? 0 then ret 0xff00ff00
           else if kind =? 2 then ret (mask_from 8)
           else if kind =? 3 then ret (mask_from 16)
           else unassigned) ;;
        let tmp3 := 0 in
        let tmp3 :=
          if truthy (bit instr 22) then
            if bitrng instr 21 20 =? 0 then
              let tmp3 :=
                if truthy (bit tmp1 23) then Z.lor tmp3 0xff000000
                else tmp3 in
              if truthy (bit tmp1 7) then Z.lor tmp3 0x0000ff00 else tmp3
            else
              if truthy (Z.land (Z.land tmp1 (not32 tmp2)) (shr32 tmp2 1))
              then tmp2 else tmp3
          else tmp3 in
        let tmp3 := Z.lor tmp3 (Z.land tmp1 (not32 tmp2)) in
        if negb (bitrng instr 19 16 =? 15) then
          tmp1 <- rd_storage (bitrng instr 19 16) ;;
          let tmp3 :=
            if truthy (bit instr 22) then
              if bitrng instr 21 20 =? 0 then
                let stmp1 :=
                  instr_util_shgetlo U tmp1 + instr_util_shgetlo U tmp3 in
                let stmp2 :=
                  instr_util_shgethi U tmp1 + instr_util_shgethi U tmp3 in
                u32 (instr_util_ustuffs16 U stmp2 stmp1)
              else
                (* the sum goes to [stmp1]; [tmp3] is stored back as it is *)
                tmp3
            else
              if bitrng instr 21 20 =? 0 then
                let tmp4 := add32 (bitrng tmp1 31 16) (bitrng tmp3 31 16) in
                let tmp2 := add32 (bitrng tmp1 15 0) (bitrng tmp3 15 0) in
                u32 (instr_util_ustuffu16 U tmp4 tmp2)
              else add32 tmp3 tmp1 in
          ret (set_unpred_addr (set_arm_addr tmp3))
        else ret (set_unpred_addr (set_arm_addr tmp3))
      else ret set_addr_lin
  | _ => ret retval
  end.

(** *** arm_core_data_par

    Rd = bits 15-12, Rn = bits 19-16, Rm = bits 3-0.  [par_lanes] is the
    switch over the sub-type with (Rn) in [tmp1] and (Rm) in [tmp2]; it
    gives the value left in [tmp4], or nothing when no case assigns it. *)
Definition par_lanes (extra : ARM_decode_extra_t) (tmp1 tmp2 : Z)
  : option Z :=
  let hi := instr_util_shgethi U in
  let lo := instr_util_shgetlo U in
  let ssat := instr_util_ssat U in
  let usat := instr_util_usat U in
  let sxb := instr_util_signx_byte U in
  let s16 (a b : Z) := u32 (instr_util_ustuffs16 U a b) in
  let u16 (a b : Z) := u32 (instr_util_ustuffu16 U a b) in
  let s8 (a b c d : Z) := u32 (instr_util_ustuffs8 U a b c d) in
  let u8 (a b c d : Z) := u32 (instr_util_ustuffu8 U a b c d) in
  let half (x : Z) := Z.shiftr x 1 in
  let b3 (x : Z) := Z.land (shr32 x 24) 0xff in
  let b2 (x : Z) := Z.land (shr32 x 16) 0xff in
  let b1 (x : Z) := Z.land (shr32 x 8) 0xff in
  let b0 (x : Z) := Z.land x 0xff in
  let h1 (x : Z) := Z.land (shr32 x 16) 0xffff in
  let h0 (x : Z) := Z.land x 0xffff in
  match extra with
  | arm_par_qadd16 =>
      let stmp1 := ssat (hi tmp1 + hi tmp2) 16 in
      let stmp2 := ssat (lo tmp1 + lo tmp2) 16 in
      Some (s16 stmp1 stmp2)
  | arm_par_qsub16 =>
      let stmp1 := ssat (hi tmp1 - hi tmp2) 16 in
      let stmp2 := ssat (lo tmp1 - lo tmp2) 16 in
      Some (s16 stmp1 stmp2)
  | arm_par_sadd16 =>
      Some (s16 (hi tmp1 + hi tmp2) (lo tmp1 + lo tmp2))
  | arm_par_ssub16 =>
      Some (s16 (hi tmp1 - hi tmp2) (lo tmp1 - lo tmp2))
  | arm_par_shadd16 =>
      Some (s16 (half (hi tmp1 + hi tmp2)) (half (lo tmp1 + lo tmp2)))
  | arm_par_shsub16 =>
      (* the source adds here as well *)
      Some (s16 (half (hi tmp1 + hi tmp2)) (half (lo tmp1 + lo tmp2)))
  | arm_par_qadd8 =>
      let stmp4 := ssat (sxb (b3 tmp1) + sxb (b3 tmp2)) 8 in
      let stmp3 := ssat (sxb (b2 tmp1) + sxb (b2 tmp2)) 8 in
      let stmp2 := ssat (sxb (b1 tmp1) + sxb (b1 tmp2)) 8 in
      let stmp1 := ssat (sxb (b0 tmp1) + sxb (b0 tmp2)) 8 in
      Some (s8 stmp4 stmp3 stmp2 stmp1)
  | arm_par_qsub8 =>
      let stmp4 := ssat (sxb (b3 tmp1) - sxb (b3 tmp2)) 8 in
      let stmp3 := ssat (sxb (b2 tmp1) - sxb (b2 tmp2)) 8 in
      let stmp2 := ssat (sxb (b1 tmp1) - sxb (b1 tmp2)) 8 in
      let stmp1 := ssat (sxb (b0 tmp1) - sxb (b0 tmp2)) 8 in
      Some (s8 stmp4 stmp3 stmp2 stmp1)
  | arm_par_sadd8 =>
      Some (s8 (sxb (b3 tmp1) + sxb (b3 tmp2)) (sxb (b2 tmp1) + sxb (b2 tmp2))
               (sxb (b1 tmp1) + sxb (b1 tmp2)) (sxb (b0 tmp1) + sxb (b0 tmp2)))
  | arm_par_shadd8 =>
      Some (s8 (half (sxb (b3 tmp1) + sxb (b3 tmp2)))
               (half (sxb (b2 tmp1) + sxb (b2 tmp2)))
               (half (sxb (b1 tmp1) + sxb (b1 tmp2)))
               (half (sxb (b0 tmp1) + sxb (b0 tmp2))))
  | arm_par_shsub8 =>
      Some (s8 (half (sxb (b3 tmp1) - sxb (b3 tmp2)))
               (half (sxb (b2 tmp1) - sxb (b2 tmp2)))
               (half (sxb (b1 tmp1) - sxb (b1 tmp2)))
               (half (sxb (b0 tmp1) - sxb (b0 tmp2))))
  | arm_par_ssub8 =>
      Some (s8 (sxb (b3 tmp1) - sxb (b3 tmp2)) (sxb (b2 tmp1) - sxb (b2 tmp2))
               (sxb (b1 tmp1) - sxb (b1 tmp2)) (sxb (b0 tmp1) - sxb (b0 tmp2)))
  | arm_par_qasx =>
      let stmp1 := ssat (lo tmp1 + hi tmp2) 16 in
      let stmp2 := ssat (hi tmp1 - lo tmp2) 16 in
      Some (s16 stmp1 stmp2)
  | arm_par_qsax =>
      let stmp1 := ssat (hi tmp1 + lo tmp2) 16 in
      let stmp2 := ssat (lo tmp1 - hi tmp2) 16 in
      Some (s16 stmp2 stmp1)
  | arm_par_sasx =>
      Some (s16 (lo tmp1 + hi tmp2) (hi tmp1 - lo tmp2))
  | arm_par_shasx =>
      Some (s16 (half (lo tmp1 + hi tmp2)) (half (hi tmp1 - lo tmp2)))
  | arm_par_shsax =>
      Some (s16 (half (hi tmp1 + lo tmp2)) (half (lo tmp1 - hi tmp2)))
  | arm_par_ssax =>
      let stmp1 := hi tmp1 + lo tmp2 in
      let stmp2 := lo tmp1 - hi tmp2 in
      Some (s16 stmp2 stmp1)
  | arm_par_uadd16 =>
      let tmp3 := add32 (h1 tmp1) (h1 tmp2) in
      let tmp2 := add32 (h0 tmp1) (h0 tmp2) in
      Some (u16 tmp3 tmp2)
  | arm_par_uhadd16 =>
      let tmp3 := add32 (h1 tmp1) (h1 tmp2) in
      let tmp2 := add32 (h0 tmp1) (h0 tmp2) in
      Some (u16 (shr32 tmp3 1) (shr32 tmp2 1))
  | arm_par_uhsub16 =>
      let tmp3 := sub32 (h1 tmp1) (h1 tmp2) in
      let tmp2 := sub32 (h0 tmp1) (h0 tmp2) in
      Some (u16 (shr32 tmp3 1) (shr32 tmp2 1))
  | arm_par_uqadd16 =>
      let tmp3 := u32 (usat (add32 (h1 tmp1) (h1 tmp2)) 16) in
      let tmp2 := u32 (usat (add32 (h0 tmp1) (h0 tmp2)) 16) in
      Some (u16 tmp3 tmp2)
  | arm_par_uqsub16 =>
      let tmp3 := u32 (usat (sub32 (h1 tmp1) (h1 tmp2)) 16) in
      let tmp2 := u32 (usat (sub32 (h0 tmp1) (h0 tmp2)) 16) in
      Some (u16 tmp3 tmp2)
  | arm_par_usub16 =>
      let tmp3 := sub32 (h1 tmp1) (h1 tmp2) in
      let tmp2 := sub32 (h0 tmp1) (h0 tmp2) in
      Some (u16 tmp3 tmp2)
  | arm_par_uadd8 =>
      let tmp6 := add32 (b3 tmp1) (b3 tmp2) in
      let tmp5 := add32 (b2 tmp1) (b2 tmp2) in
      let tmp4 := add32 (b1 tmp1) (b1 tmp2) in
      let tmp3 := add32 (b0 tmp1) (b0 tmp2) in
      Some (u8 tmp6 tmp5 tmp4 tmp3)
  | arm_par_uhadd8 =>
      let tmp6 := add32 (b3 tmp1) (b3 tmp2) in
      let tmp5 := add32 (b2 tmp1) (b2 tmp2) in
      let tmp4 := add32 (b1 tmp1) (b1 tmp2) in
      let tmp3 := add32 (b0 tmp1) (b0 tmp2) in
      Some (u8 (shr32 tmp6 1) (shr32 tmp5 1) (shr32 tmp4 1) (shr32 tmp3 1))
  | arm_par_uhsub8 =>
      let tmp6 := sub32 (b3 tmp1) (b3 tmp2) in
      let tmp5 := sub32 (b2 tmp1) (b2 tmp2) in
      let tmp4 := sub32 (b1 tmp1) (b1 tmp2) in
      let tmp3 := sub32 (b0 tmp1) (b0 tmp2) in
      Some (u8 (shr32 tmp6 1) (shr32 tmp5 1) (shr32 tmp4 1) (shr32 tmp3 1))
  | arm_par_uqadd8 =>
      let tmp6 := u32 (usat (to_int (add32 (b3 tmp1) (b3 tmp2))) 8) in
      let tmp5 := u32 (usat (to_int (add32 (b2 tmp1) (b2 tmp2))) 8) in
      let tmp4 := u32 (usat (to_int (add32 (b1 tmp1) (b1 tmp2))) 8) in
      let tmp3 := u32 (usat (to_int (add32 (b0 tmp1) (b0 tmp2))) 8) in
      Some (u8 tmp6 tmp5 tmp4 tmp3)
  | arm_par_uqsub8 =>
      let tmp6 := u32 (usat (to_int (sub32 (b3 tmp1) (b3 tmp2))) 8) in
      let tmp5 := u32 (usat (to_int (sub32 (b2 tmp1) (b2 tmp2))) 8) in
      let tmp4 := u32 (usat (to_int (sub32 (b1 tmp1) (b1 tmp2))) 8) in
      let tmp3 := u32 (usat (to_int (sub32 (b0 tmp1) (b0 tmp2))) 8) in
      Some (u8 tmp6 tmp5 tmp4 tmp3)
  | arm_par_usub8 =>
      let tmp6 := sub32 (b3 tmp1) (b3 tmp2) in
      let tmp5 := sub32 (b2 tmp1) (b2 tmp2) in
      let tmp4 := sub32 (b1 tmp1) (b1 tmp2) in
      let tmp3 := sub32 (b0 tmp1) (b0 tmp2) in
      Some (u8 tmp6 tmp5 tmp4 tmp3)
  | arm_par_uasx =>
      let tmp3 := add32 (h0 tmp1) (h1 tmp2) in
      let tmp4 := sub32 (h1 tmp1) (h0 tmp2) in
      Some (u16 tmp3 tmp4)
  | arm_par_uhasx =>
      let tmp3 := add32 (h0 tmp1) (h1 tmp2) in
      let tmp4 := sub32 (h1 tmp1) (h0 tmp2) in
      Some (u16 (shr32 tmp3 1) (shr32 tmp4 1))
  | arm_par_uhsax =>
      let tmp3 := add32 (h1 tmp1) (h0 tmp2) in
      let tmp4 := sub32 (h0 tmp1) (h1 tmp2) in
      Some (u16 (shr32 tmp3 1) (shr32 tmp4 1))
  | arm_par_uqasx =>
      let tmp3 := u32 (usat (to_int (add32 (h0 tmp1) (h1 tmp2))) 16) in
      let tmp4 := u32 (usat (to_int (sub32 (h1 tmp1) (h0 tmp2))) 16) in
      Some (u16 tmp3 tmp4)
  | arm_par_uqsax =>
      let tmp3 := u32 (usat (to_int (add32 (h1 tmp1) (h0 tmp2))) 16) in
      let tmp4 := u32 (usat (to_int (sub32 (h0 tmp1) (h1 tmp2))) 16) in
      Some (u16 tmp3 tmp4)
  | arm_par_usax =>
      let tmp3 := add32 (h1 tmp1) (h0 tmp2) in
      let tmp4 := sub32 (h0 tmp1) (h1 tmp2) in
      Some (u16 tmp3 tmp4)
  | _ => None
  end.

Definition arm_core_data_par (instr : Z) (extra : ARM_decode_extra_t)
  : M instr_next_addr_t :=
  let retval := set_undef_addr in
  if bitrng instr 15 12 =? 15 then
    tmp1 <- rd_operand (bitrng instr 19 16) ;;
    tmp2 <- rd_operand (bitrng instr 3 0) ;;
    tmp4 <-
      match par_lanes extra tmp1 tmp2 with
      | Some v => ret v
      | None => unassigned
      end ;;
    ret (set_unpred_addr (set_arm_addr tmp4))
  else ret set_addr_lin.

(** *** arm_core_data_sat

    Rn = bits 19-16, Rm = bits 3-0, Rd = bits 15-12 for the saturating
    additions; Rn = bits 3-0 for SSAT and USAT.  The value left in [tmp3],
    or nothing when no case assigns it. *)
Definition sat_qvalue (extra : ARM_decode_extra_t) (tmp1 tmp2 : Z)
  : option Z :=
  let lssat := instr_util_lssat U in
  match extra with
  | arm_sat_qadd | arm_sat_qsub =>
      (* the source adds in both cases *)
      let sltmp := tmp2 + tmp1 in
      let sltmp := lssat sltmp 32 in
      Some (u32 (Z.land sltmp 0xffffffff))
  | arm_sat_qdadd | arm_sat_qdsub =>
      (* the source subtracts in both cases *)
      let sltmp := lssat (2 * tmp1) 32 in
      let sltmp := lssat (tmp2 - sltmp) 32 in
      Some (u32 (Z.land sltmp 0xffffffff))
  | _ => None
  end.

Definition sat_value (instr : Z) (extra : ARM_decode_extra_t) (tmp1 : Z)
  : option Z :=
  let ssat := instr_util_ssat U in
  let usat := instr_util_usat U in
  match extra with
  | arm_sat_ssat | arm_sat_usat =>
      let tmp2 := bitrng instr 11 7 in
      let stmp1 := to_int tmp1 in
      let stmp1 :=
        if truthy (bit instr 6) then
          if tmp2 =? 0 then Z.shiftr stmp1 31 else Z.shiftr stmp1 tmp2
        else
          if negb (tmp2 =? 0) then to_int (Z.shiftl stmp1 tmp2) else stmp1 in
      let stmp2 :=
        if extra_eqb extra arm_sat_ssat
        then ssat stmp1 (bitrng instr 20 16 - 1)
        else to_int (usat stmp1 (bitrng instr 20 16)) in
      Some (u32 stmp2)
  | arm_sat_ssat16 =>
      let stmp1 := ssat (instr_util_shgetlo U tmp1) (bitrng instr 19 16) in
      let stmp2 := ssat (instr_util_shgethi U tmp1) (bitrng instr 19 16) in
      Some (u32 (instr_util_ustuffs16 U stmp2 stmp1))
  | arm_sat_usat16 =>
      let stmp1 := usat (instr_util_shgetlo U tmp1) (bitrng instr 19 16) in
      let stmp2 := usat (instr_util_shgethi U tmp1) (bitrng instr 19 16) in
      Some (u32 (instr_util_ustuffs16 U stmp2 stmp1))
  | _ => None
  end.

Definition arm_core_data_sat (instr : Z) (extra : ARM_decode_extra_t)
  : M instr_next_addr_t :=
  let retval := set_undef_addr in
  if bitrng instr 15 12 =? 15 then
    tmp3 <-
      (if bitrng instr 24 23 =? 2 then
         tmp1 <- rd_operand (bitrng instr 19 16) ;;
         tmp2 <- rd_operand (bitrng instr 3 0) ;;
         match sat_qvalue extra tmp1 tmp2 with
         | Some v => ret v
         | None => ret (bitrng instr 3 0)
         end
       else
         tmp1 <- rd_operand (bitrng instr 3 0) ;;
         match sat_value instr extra tmp1 with
         | Some v => ret v
         | None => ret (bitrng instr 3 0)
         end) ;;
    ret (set_unpred_addr (set_arm_addr tmp3))
  else ret set_addr_lin.

(** *** arm_coproc *)
Definition arm_coproc (instr : Z) (extra : ARM_decode_extra_t)
  : M instr_next_addr_t :=
  let retval := set_undef_addr in
  let tmp := bitrng instr 11 8 in
  if negb ((tmp =? 8) || (tmp =? 9) || (tmp =? 12) || (tmp =? 13)) then
    match extra with
    | arm_cop_mcrr2 | arm_cop_mcrr =>
        if (bitrng instr 19 16 =? 15) || (bitrng instr 15 12 =? 15)
        then ret (set_unpred_addr set_addr_lin)
        else ret set_addr_lin
    | arm_cop_mcr2 | arm_cop_mcr =>
        let retval := set_addr_lin in
        let tmp := bitrng instr 15 12 in
        if tmp =? 15 then ret (set_unpred_addr retval)
        else if tmp =? 13 then ret (set_unpred_addr retval)
        else ret retval
    | arm_cop_ldc2 | arm_cop_ldc | arm_cop_ldc2_pc | arm_cop_ldc_pc
    | arm_cop_stc2 | arm_cop_stc =>
        if negb (bitrng instr 24 21 =? 0)
        then ret (set_unpred_addr set_addr_lin)
        else ret retval
    | arm_cop_mrrc2 | arm_cop_mrrc | arm_cop_mrc2 | arm_cop_mrc
    | arm_cop_cdp2 | arm_cop_cdp =>
        ret (set_unpred_addr set_addr_lin)
    | _ => ret retval
    end
  else ret retval.

(** *** arm_core_ldstm

    Bits 24-20 are B, I, M, W, L; the base register is bits 19-16. *)

(** The loop that counts the registers in the list. *)
Fixpoint ldstm_count (n : nat) (tmp3 tmp4 instr : Z) : Z :=
  match n with
  | O => tmp4
  | S n' =>
      ldstm_count n' (tmp3 + 1)
        (if truthy (Z.land instr (shl32 1 tmp3)) then tmp4 + 1 else tmp4)
        instr
  end.

(** The written-back base when the base register is PC. *)
Definition ldstm_new_base (instr tmp4 : Z) : M instr_next_addr_t :=
  pc <- rd_r15 ;;
  if truthy (bit instr 23)
  then ret (set_arm_addr (add32 pc (4 * tmp4)))
  else ret (set_arm_addr (sub32 pc (4 * tmp4))).

(** The mode checks that close both branches. *)
Definition ldstm_mode_check (retval : instr_next_addr_t)
  : M instr_next_addr_t :=
  usr_sys <-
    check_proc_mode (INSTR_PMODE_USR U) (INSTR_PMODE_SYS U) 0 0 ;;
  hyp <- check_proc_mode (INSTR_PMODE_HYP U) 0 0 0 ;;
  let retval := if usr_sys then set_unpred_addr retval else retval in
  ret (if hyp then set_undef_addr else retval).

Definition arm_core_ldstm (instr : Z) (extra : ARM_decode_extra_t)
  : M instr_next_addr_t :=
  let retval := set_undef_addr in
  if extra_eqb extra arm_cldstm_pop_r then
    if bitrng instr 15 12 =? 15 then
      tmp1 <- rd_r13 ;;
      tmp2 <- load32 tmp1 ;;
      ret (set_arm_addr tmp2)
    else
      let retval := set_addr_lin in
      if bitrng instr 15 12 =? 13 then ret (set_unpred_addr retval)
      else ret retval
  else if extra_eqb extra arm_cldstm_push_r then
    let retval := set_addr_lin in
    if bitrng instr 15 12 =? 13 then ret (set_unpred_addr retval)
    else ret retval
  else
    let tmp1 := bitrng instr 19 16 in
    let tmp4 := ldstm_count 16 0 0 instr in
    if (bit instr 20 =? 0) || (truthy (bit instr 22) && (bit instr 15 =? 0))
    then
      retval <-
        (if (tmp1 =? 15) && truthy (bit instr 21)
         then ldstm_new_base instr tmp4
         else ret set_addr_lin) ;;
      let retval := if tmp1 =? 15 then set_unpred_addr retval else retval in
      let retval :=
        if (tmp1 =? 13) && (truthy (bit instr 13) || (tmp4 <? 2))
        then set_unpred_addr retval else retval in
      if truthy (bit instr 22) then ldstm_mode_check retval
      else ret retval
    else
      (* the exception-return branch stores SPSR in [tmp1] *)
      res <-
        (if (tmp1 =? 15) && truthy (bit instr 21) then
           r <- ldstm_new_base instr tmp4 ;;
           ret (r, tmp1)
         else if truthy (bit instr 15) then
           tmp3 <- rd_storage tmp1 ;;
           let sel := bitrng instr 24 23 in
           let tmp3 :=
             if sel =? 0 then sub32 tmp3 (4 * (tmp4 - 1))
             else if sel =? 1 then add32 tmp3 (4 * (tmp4 - 1))
             else if sel =? 2 then sub32 tmp3 (4 * tmp4)
             else if sel =? 3 then add32 tmp3 (4 * tmp4)
             else tmp3 in
           tmp3 <- load32 tmp3 ;;
           let retval :=
             by_low_bits tmp3 (set_unpred_addr (set_thumb_addr tmp3)) in
           if truthy (bit instr 20) || truthy (bit instr 22) then
             tmp1 <- rd_spsr ;;
             if truthy (bit tmp1 5)
             then ret (set_thumb_addr (address retval), tmp1)
             else
               ret (set_arm_addr (Z.land (address retval) (not32 3)), tmp1)
           else ret (retval, tmp1)
         else ret (set_addr_lin, tmp1)) ;;
      let retval := fst res in
      let tmp1 := snd res in
      let retval := if tmp1 =? 15 then set_unpred_addr retval else retval in
      let retval :=
        if (tmp1 =? 13) && (truthy (bit instr 13) || (tmp4 <? 2))
        then set_unpred_addr retval
        else if tmp4 <? 1 then set_unpred_addr retval
        else retval in
      if truthy (bit instr 22) && truthy (bit instr 15)
      then ldstm_mode_check retval
      else ret retval.

(** *** arm_core_misc *)
Definition arm_core_misc (instr : Z) (extra : ARM_decode_extra_t)
  : M instr_next_addr_t :=
  let retval := set_undef_addr in
  match extra with
  | arm_misc_sev | arm_misc_dbg | arm_misc_setend | arm_misc_clrex
  | arm_misc_dmb | arm_misc_dsb | arm_misc_isb | arm_misc_pld_imm
  | arm_misc_pld_lbl | arm_misc_pli_lbl =>
      ret set_addr_lin
  | arm_misc_pld_r =>
      let retval :=
        if truthy (bit instr 22) && (bitrng instr 19 16 =? 15)
        then set_unpred_addr set_addr_lin else retval in
      (* no break: the PLI case follows *)
      if bitrng instr 3 0 =? 15 then ret (set_unpred_addr set_addr_lin)
      else ret retval
  | arm_misc_pli_r =>
      if bitrng instr 3 0 =? 15 then ret (set_unpred_addr set_addr_lin)
      else ret retval
  | arm_misc_swp =>
      let tmp1 := bitrng instr 19 16 in
      let tmp2 := bitrng instr 15 12 in
      let tmp3 := bitrng instr 3 0 in
      let retval := set_addr_lin in
      let unp :=
        if (tmp1 =? 15) || (tmp2 =? 15) || (tmp3 =? 15)
           || (tmp1 =? tmp2) || (tmp1 =? tmp3)
        then 1 else 0 in
      retval <-
        (if tmp2 =? 15 then
           tmp4 <- rd_storage tmp1 ;;
           tmp1 <- (if truthy (bit instr 22) then load32 tmp4
                    else load8 tmp4) ;;
           ret (set_arm_addr tmp1)
         else ret retval) ;;
      if truthy unp then ret (set_unpred_addr retval) else ret retval
  | _ => ret retval
  end.

(** *** The floating-point and vector arithmetic handlers

    Each of them is [retval = set_addr_lin(); return retval;]. *)
Definition arm_fp (instr : Z) (extra : ARM_decode_extra_t)
  : M instr_next_addr_t := ret set_addr_lin.

Definition arm_v_bits (instr : Z) (extra : ARM_decode_extra_t)
  : M instr_next_addr_t := ret set_addr_lin.

Definition arm_v_comp (instr : Z) (extra : ARM_decode_extra_t)
  : M instr_next_addr_t := ret set_addr_lin.

Definition arm_v_mac (instr : Z) (extra : ARM_decode_extra_t)
  : M instr_next_addr_t := ret set_addr_lin.

Definition arm_v_misc (instr : Z) (extra : ARM_decode_extra_t)
  : M instr_next_addr_t := ret set_addr_lin.

Definition arm_v_par (instr : Z) (extra : ARM_decode_extra_t)
  : M instr_next_addr_t := ret set_addr_lin.

Definition arm_v_shift (instr : Z) (extra : ARM_decode_extra_t)
  : M instr_next_addr_t := ret set_addr_lin.

(** *** The closing test of the load/store handlers

    [if (retval.flag != INSTR_ADDR_UNDEF) if (unp) retval = set_unpred_addr
    (retval);]: the flag word is compared as a whole. *)
Definition flag_is_undef (r : instr_next_addr_t) : bool :=
  flag_eqb (flag r) INSTR_ADDR_UNDEF && negb (unpred r).

Definition finish_unp (retval : instr_next_addr_t) (unp : Z)
  : instr_next_addr_t :=
  if negb (flag_is_undef retval)
  then if truthy unp then set_unpred_addr retval else retval
  else retval.

(** *** arm_core_ldstrd

    Rn = bits 19-16, Rt = bits 15-12, Rm = bits 3-0; bits 24-21 are P, U, I,
    W.  The test for Rt2 = PC compares Rn with 14, as in the source. *)

(** The load of Rt or Rt2 at the address in [tmp3], when one of them is
    PC. *)
Definition ldstrd_fetch (tmp4 tmp3 : Z) : M instr_next_addr_t :=
  if tmp4 =? 15 then
    v <- load32 tmp3 ;;
    ret (set_arm_addr v)
  else if tmp4 =? 14 then
    v <- load32 (add32 tmp3 4) ;;
    ret (set_arm_addr v)
  else ret set_addr_lin.

(** The base aligned, moved by the offset and aligned again. *)
Definition ldstrd_base (instr tmp3 tmp2 : Z) : Z :=
  let tmp3 := Z.land tmp3 (mask_from 2) in
  let tmp3 :=
    if truthy (bit instr 23) then add32 tmp3 tmp2 else sub32 tmp3 tmp2 in
  Z.land tmp3 (mask_from 2).

Definition arm_core_ldstrd (instr : Z) (extra : ARM_decode_extra_t)
  : M instr_next_addr_t :=
  let retval := set_undef_addr in
  let tmp1 := bitrng instr 19 16 in
  let tmp2 := bitrng instr 15 12 in
  let tmp3 := bit instr 21 in
  let unp := if truthy (Z.land tmp2 1) then 1 else 0 in
  let unp := if tmp1 =? 14 then unp + 1 else unp in
  let unp :=
    if truthy (Z.land tmp3
                 (Z.b2z ((tmp1 =? tmp2) || (tmp1 =? add32 tmp2 1))))
    then unp + 1 else unp in
  res <-
    (if (tmp1 =? 14) || (tmp1 =? 15) || (tmp2 =? 15) then
       off <-
         (if truthy (bit instr 22) then
            let unp := if truthy tmp3 && (tmp1 =? 15) then unp + 1 else unp in
            let tmp4 := bitrng instr 3 0 in
            let unp := if tmp4 =? 15 then unp + 1 else unp in
            let unp :=
              if (tmp4 =? tmp1) || (tmp4 =? add32 tmp1 1)
              then unp + 1 else unp in
            tmp2 <- rd_storage tmp4 ;;
            ret (tmp2, unp)
          else ret (bits instr 0x00000f0f, unp)) ;;
       let tmp2 := fst off in
       let unp := snd off in
       let tmp4 := bitrng instr 15 12 in
       let mode := bits instr 0x01200000 in
       if tmp1 =? 15 then
         tmp3 <- rd_storage tmp1 ;;
         if mode =? 0 then
           ret (set_arm_addr (ldstrd_base instr tmp3 tmp2), unp)
         else if mode =? 1 then ret (set_undef_addr, unp)
         else if mode =? 2 then
           if truthy (bit instr 5) then ret (set_addr_lin, unp)
           else
             r <- ldstrd_fetch tmp4 (ldstrd_base instr tmp3 tmp2) ;;
             ret (r, unp)
         else if mode =? 3 then
           ret (set_arm_addr (ldstrd_base instr tmp3 tmp2), unp)
         else ret (retval, unp)
       else
         tmp3 <- rd_storage tmp1 ;;
         if truthy (bit instr 5) then
           if mode =? 0 then
             r <- ldstrd_fetch tmp4 (Z.land tmp3 (mask_from 2)) ;;
             ret (r, unp)
           else if mode =? 1 then ret (set_undef_addr, unp)
           else if (mode =? 2) || (mode =? 3) then
             let tmp3 :=
               if truthy (bit instr 23)
               then add32 tmp3 tmp2 else sub32 tmp3 tmp2 in
             let tmp3 := Z.land tmp3 (mask_from 2) in
             r <- ldstrd_fetch tmp4 tmp3 ;;
             ret (r, unp)
           else ret (retval, unp)
         else
           if mode =? 1 then ret (set_undef_addr, unp)
           else ret (set_addr_lin, unp)
     else ret (set_addr_lin, unp)) ;;
  ret (finish_unp (fst res) (snd res)).

(** *** arm_core_ldstrex

    Rn = bits 19-16; Rt = bits 15-12 for a load; Rd = bits 15-12 and
    Rt = bits 3-0 for a store. *)
Definition arm_core_ldstrex (instr : Z) (extra : ARM_decode_extra_t)
  : M instr_next_addr_t :=
  let retval := set_undef_addr in
  let tmp1 := bitrng instr 19 16 in
  let unp := if tmp1 =? 15 then 1 else 0 in
  if truthy (bit instr 20) then
    let tmp2 := bitrng instr 15 12 in
    if (tmp2 =? 15) || ((tmp2 =? 14) && extra_eqb extra arm_sync_ldrexd)
    then
      let unp := unp + 1 in
      v <- rd_storage tmp1 ;;
      let tmp1 := Z.land v (mask_from 2) in
      tmp3 <-
        match extra with
        | arm_sync_ldrex => load32 tmp1
        | arm_sync_ldrexb => load8 tmp1
        | arm_sync_ldrexh => load16 tmp1
        | arm_sync_ldrexd =>
            if tmp2 =? 15 then load32 tmp1 else load32 (add32 tmp1 4)
        | _ => unassigned
        end ;;
      ret (finish_unp (set_arm_addr tmp3) unp)
    else ret (finish_unp set_addr_lin unp)
  else
    let unp := if tmp1 =? 15 then unp + 1 else unp in
    let tmp2 := bitrng instr 15 12 in
    let unp := if tmp2 =? tmp1 then unp + 1 else unp in
    let tmp3 := bitrng instr 3 0 in
    let unp := if tmp3 =? 15 then unp + 1 else unp in
    let unp := if tmp2 =? tmp1 then unp + 1 else unp in
    let unp :=
      if tmp2 =? 15 then unp + 1
      else if extra_eqb extra arm_sync_strexd then
        if tmp3 =? 14 then unp + 1
        else if truthy (Z.land tmp3 1) then unp + 1
        else unp
      else unp in
    ret (finish_unp (set_arm_addr 0) unp).

(** *** arm_core_ldstrh, arm_core_ldstrsb, arm_core_ldstsh

    Rt = bits 15-12, Rn = bits 19-16, Rm = bits 3-0; the immediate is bits
    11-8 and 3-0.  The three handlers share their first part: the offset in
    [tmp3] and the count [unp].  When PC is neither Rt nor Rn, [tmp3] is not
    assigned. *)
Definition ldsth_offset (instr : Z) : M (Z * Z) :=
  let tmp1 := bitrng instr 15 12 in
  let tmp2 := bitrng instr 19 16 in
  let unp := if truthy (bit instr 21) && (tmp1 =? tmp2) then 1 else 0 in
  if tmp1 =? 15 then
    let unp := unp + 1 in
    if truthy (bit instr 22) then ret (bits instr 0xf0f, unp)
    else
      let unp :=
        if truthy (bit instr 21) && (tmp1 =? tmp2) then unp + 1 else unp in
      let tmp3 := bitrng instr 3 0 in
      let unp := if tmp3 =? 15 then unp + 1 else unp in
      tmp3 <- rd_storage tmp3 ;;
      ret (tmp3, unp)
  else if tmp2 =? 15 then
    if truthy (bit instr 22) then ret (bits instr 0xf0f, unp)
    else
      let unp := if truthy (bit instr 21) then unp + 1 else unp in
      let tmp3 := bitrng instr 3 0 in
      let unp := if tmp3 =? 15 then unp + 1 else unp in
      tmp3 <- rd_storage tmp3 ;;
      ret (tmp3, unp)
  else
    junk <- unassigned ;;
    ret (junk, unp).

(** [tmp4 = storage[tmp3]; tmp4 += tmp3] (or [-=]): the context is indexed
    with the offset itself. *)
Definition ldsth_writeback (instr tmp3 : Z) : M Z :=
  tmp4 <- rd_storage tmp3 ;;
  if truthy (bit instr 23) then ret (add32 tmp4 tmp3)
  else ret (sub32 tmp4 tmp3).

(** The switch on P and W when Rt is PC; [hyp_unp] is the increment of the
    LDRHT case, present in [arm_core_ldstrh] only. *)
Definition ldsth_rt_pc (instr tmp2 tmp3 : Z) (hyp_unp : bool) : M (Z * Z) :=
  let mode := bits instr 0x01200000 in
  if (mode =? 1) || (mode =? 0) then
    hyp <- check_proc_mode (INSTR_PMODE_HYP U) 0 0 0 ;;
    let unp := if (mode =? 1) && hyp_unp && hyp then 1 else 0 in
    tmp4 <- ldsth_writeback instr tmp3 ;;
    if tmp2 =? 15 then ret (tmp4, unp)
    else
      tmp4 <- load16 tmp4 ;;
      ret (tmp4, unp)
  else if mode =? 2 then
    tmp4 <- ldsth_writeback instr tmp3 ;;
    tmp4 <- load16 tmp4 ;;
    ret (tmp4, 0)
  else if mode =? 3 then
    tmp4 <- ldsth_writeback instr tmp3 ;;
    if tmp2 =? 15 then ret (tmp4, 0)
    else
      tmp4 <- load32 tmp4 ;;
      ret (tmp4, 0)
  else
    junk <- unassigned ;;
    ret (junk, 0).

(** The switch on P and W when Rn is PC and Rt is not. *)
Definition ldsth_rn_pc (instr tmp3 : Z) (hyp_unp : bool) : M (Z * Z) :=
  let mode := bits instr 0x01200000 in
  if (mode =? 1) || (mode =? 0) then
    hyp <- check_proc_mode (INSTR_PMODE_HYP U) 0 0 0 ;;
    let unp := if (mode =? 1) && hyp_unp && hyp then 1 else 0 in
    tmp4 <- ldsth_writeback instr tmp3 ;;
    ret (tmp4, unp)
  else if mode =? 2 then ret (tmp3, 0)
  else if mode =? 3 then
    tmp4 <- ldsth_writeback instr tmp3 ;;
    ret (tmp4, 0)
  else
    junk <- unassigned ;;
    ret (junk, 0).

Definition arm_core_ldstrh (instr : Z) (extra : ARM_decode_extra_t)
  : M instr_next_addr_t :=
  let tmp1 := bitrng instr 15 12 in
  let tmp2 := bitrng instr 19 16 in
  off <- ldsth_offset instr ;;
  let tmp3 := fst off in
  let unp := snd off in
  let retval := set_addr_lin in
  if truthy (bit instr 20) then
    if tmp1 =? 15 then
      r <- ldsth_rt_pc instr tmp2 tmp3 true ;;
      ret (finish_unp (set_arm_addr (fst r)) (unp + snd r))
    else if tmp2 =? 15 then
      r <- ldsth_rn_pc instr tmp3 true ;;
      ret (finish_unp (set_arm_addr (fst r)) (unp + snd r))
    else ret (finish_unp retval unp)
  else
    if tmp2 =? 15 then
      r <- ldsth_rn_pc instr tmp3 false ;;
      ret (finish_unp (set_arm_addr (fst r)) unp)
    else ret (finish_unp retval unp).

Definition arm_core_ldstrsb (instr : Z) (extra : ARM_decode_extra_t)
  : M instr_next_addr_t :=
  let tmp1 := bitrng instr 15 12 in
  let tmp2 := bitrng instr 19 16 in
  off <- ldsth_offset instr ;;
  let tmp3 := fst off in
  let unp := snd off in
  let retval := set_addr_lin in
  if tmp1 =? 15 then
    r <- ldsth_rt_pc instr tmp2 tmp3 false ;;
    let tmp4 := u32 (instr_util_signx_byte U (fst r)) in
    ret (finish_unp (set_arm_addr tmp4) unp)
  else if tmp2 =? 15 then
    r <- ldsth_rn_pc instr tmp3 false ;;
    ret (finish_unp (set_arm_addr (fst r)) unp)
  else ret (finish_unp retval unp).

Definition arm_core_ldstsh (instr : Z) (extra : ARM_decode_extra_t)
  : M instr_next_addr_t :=
  let tmp1 := bitrng instr 15 12 in
  let tmp2 := bitrng instr 19 16 in
  off <- ldsth_offset instr ;;
  let tmp3 := fst off in
  let unp := snd off in
  let retval := set_addr_lin in
  if tmp1 =? 15 then
    r <- ldsth_rt_pc instr tmp2 tmp3 false ;;
    let tmp4 := u32 (instr_util_signx_short U (fst r)) in
    ret (finish_unp (set_arm_addr tmp4) unp)
  else if tmp2 =? 15 then
    r <- ldsth_rn_pc instr tmp3 false ;;
    ret (finish_unp (set_arm_addr (fst r)) unp)
  else ret (finish_unp retval unp).

(** *** arm_core_status *)

(** CPS: the mode checks made when bit 17 is set; the result is the
    increment of [unp]. *)
Definition status_cps_mode (tmp1 : Z) : M Z :=
  sec <- get_security_state ;;
  nsacr <- get_NSACR ;;
  scr <- get_SCR ;;
  mon <- check_proc_mode (INSTR_PMODE_MON U) 0 0 0 ;;
  hyp <- check_proc_mode (INSTR_PMODE_HYP U) 0 0 0 ;;
  if tmp1 =? INSTR_PMODE_MON U then
    ret (if negb sec then 1 else 0)
  else if tmp1 =? INSTR_PMODE_FIQ U then
    ret (if truthy (bit nsacr 19) && negb sec then 1 else 0)
  else if tmp1 =? INSTR_PMODE_HYP U then
    if sec && negb mon then ret 1
    else if mon then ret (if Z.land scr 1 =? 0 then 1 else 0)
    else ret (if negb hyp then 1 else 0)
  else if (tmp1 =? INSTR_PMODE_IRQ U) || (tmp1 =? INSTR_PMODE_SVC U)
          || (tmp1 =? INSTR_PMODE_ABT U) || (tmp1 =? INSTR_PMODE_UND U)
          || (tmp1 =? INSTR_PMODE_SYS U)
  then ret 0
  else ret 1.

(** The access itself: MSR never moves the PC, MRS does when Rd is PC. *)
Definition status_access (extra : ARM_decode_extra_t) (tmp1 tmp2 tmp4 : Z)
  : M (instr_next_addr_t * Z) :=
  if extra_eqb extra arm_cstat_msr_b then ret (set_addr_lin, 0)
  else
    if tmp4 =? 15 then
      tmp4 <- get_mode_reg tmp1 tmp2 ;;
      ret (set_arm_addr tmp4, 1)
    else ret (set_addr_lin, 0).

(** The accessed mode and register of a banked MSR/MRS, with the increment
    of [unp]; [tmp1] keeps the field value where no case assigns it. *)
Definition status_banked_target (instr : Z) : Z * Z * Z :=
  let tmp1 := bitrng instr 19 16 in
  let tmp1 := Z.lor tmp1 (shl32 (bit instr 8) 4) in
  let tmp2 := bitrng tmp1 2 0 in
  let sel := bitrng tmp1 4 3 in
  let res :=
    if sel =? 0 then
      let tmp2 := tmp2 + 8 in
      if tmp2 =? 15 then (INSTR_PMODE_USR U, 0, 1)
      else (INSTR_PMODE_USR U, tmp2, 0)
    else if sel =? 1 then
      let tmp2 := tmp2 + 8 in
      if tmp2 =? 15 then (INSTR_PMODE_FIQ U, 0, 1)
      else (INSTR_PMODE_FIQ U, tmp2, 0)
    else if sel =? 2 then
      if tmp2 =? 0 then (INSTR_PMODE_IRQ U, 14, 0)
      else if tmp2 =? 1 then (INSTR_PMODE_IRQ U, 13, 0)
      else if tmp2 =? 2 then (INSTR_PMODE_SVC U, 14, 0)
      else if tmp2 =? 3 then (INSTR_PMODE_SVC U, 13, 0)
      else if tmp2 =? 4 then (INSTR_PMODE_ABT U, 14, 0)
      else if tmp2 =? 5 then (INSTR_PMODE_ABT U, 13, 0)
      else if tmp2 =? 6 then (INSTR_PMODE_UND U, 14, 0)
      else if tmp2 =? 7 then (INSTR_PMODE_UND U, 13, 0)
      else (tmp1, tmp2, 0)
    else if sel =? 3 then
      if (tmp2 =? 0) || (tmp2 =? 1) || (tmp2 =? 2) || (tmp2 =? 3)
      then (tmp1, 0, 1)
      else if tmp2 =? 4 then (INSTR_PMODE_MON U, 14, 0)
      else if tmp2 =? 5 then (INSTR_PMODE_MON U, 13, 0)
      else if tmp2 =? 6 then (INSTR_PMODE_HYP U, 14, 0)
      else if tmp2 =? 7 then (INSTR_PMODE_HYP U, 13, 0)
      else (tmp1, tmp2, 0)
    else (tmp1, tmp2, 0) in
  let '(tmp1, tmp2, unp) := res in
  let tmp2 := if (tmp2 =? 14) && truthy (bit instr 22) then 16 else tmp2 in
  (tmp1, tmp2, unp).

Definition arm_core_status (instr : Z) (extra : ARM_decode_extra_t)
  : M instr_next_addr_t :=
  if extra_eqb extra arm_cstat_cps then
    let retval := set_addr_lin in
    usr <- check_proc_mode (INSTR_PMODE_USR U) 0 0 0 ;;
    if usr then ret retval
    else
      let tmp1 := bitrng instr 4 0 in
      if (bit instr 17 =? 0) && negb (tmp1 =? 0)
      then ret (set_unpred_addr retval)
      else
        let tmp2 := bitrng instr 19 18 in
        (* [(tmp2 == 1) || ((tmp2 = 0) && ...)]: the assignment is 0 *)
        if (tmp2 =? 1) || (truthy 0 && (bit instr 17 =? 0))
        then ret (set_unpred_addr retval)
        else if (bitrng instr 8 6 =? 0) && truthy (bit instr 19)
        then ret (set_unpred_addr retval)
        else if negb (bitrng instr 8 6 =? 0) && negb (truthy (bit instr 19))
        then ret (set_unpred_addr retval)
        else
          unp <- (if truthy (bit instr 17) then status_cps_mode tmp1
                  else ret 0) ;;
          ret (finish_unp retval unp)
  else
    proc_mode <- get_proc_mode ;;
    secure_state <- get_security_state ;;
    let '(tmp1, tmp2, unp) := status_banked_target instr in
    if tmp2 =? 0 then ret (set_unpred_addr set_addr_lin)
    else
      let tmp4 := bitrng instr 15 12 in
      nsacr <- get_NSACR ;;
      let fiq_hidden := truthy (bit nsacr 19) && negb secure_state in
      res <-
        (if proc_mode =? INSTR_PMODE_USR U then ret (set_addr_lin, 1)
         else if proc_mode =? INSTR_PMODE_FIQ U then
           if fiq_hidden then ret (set_addr_lin, 1)
           else if (tmp1 =? INSTR_PMODE_FIQ U) || (tmp1 =? INSTR_PMODE_HYP U)
                   || (tmp1 =? INSTR_PMODE_MON U)
           then ret (set_addr_lin, 1)
           else status_access extra tmp1 tmp2 tmp4
         else if (proc_mode =? INSTR_PMODE_IRQ U)
                 || (proc_mode =? INSTR_PMODE_SVC U)
                 || (proc_mode =? INSTR_PMODE_ABT U)
                 || (proc_mode =? INSTR_PMODE_UND U)
         then
           if proc_mode =? tmp1 then ret (set_addr_lin, 1)
           else if tmp1 =? INSTR_PMODE_HYP U then ret (set_addr_lin, 1)
           else if (tmp1 =? INSTR_PMODE_MON U) && negb secure_state
           then ret (set_addr_lin, 1)
           else if tmp1 =? INSTR_PMODE_FIQ U then
             if fiq_hidden then ret (set_addr_lin, 1)
             else status_access extra tmp1 tmp2 tmp4
           else status_access extra tmp1 tmp2 tmp4
         else if proc_mode =? INSTR_PMODE_MON U then
           status_access extra tmp1 tmp2 tmp4
         else if proc_mode =? INSTR_PMODE_HYP U then
           if (tmp1 =? proc_mode) || (tmp1 =? INSTR_PMODE_MON U)
              || ((tmp1 =? INSTR_PMODE_FIQ U)
                  && truthy (Z.land nsacr (Z.shiftl 1 19)))
           then ret (set_addr_lin, 1)
           else status_access extra tmp1 tmp2 tmp4
         else if proc_mode =? INSTR_PMODE_SYS U then
           if (tmp1 =? proc_mode) || (tmp1 =? INSTR_PMODE_HYP U)
              || (tmp1 =? INSTR_PMODE_MON U)
           then ret (set_addr_lin, 1)
           else status_access extra tmp1 tmp2 tmp4
         else ret (set_addr_lin, 1)) ;;
      ret (finish_unp (fst res) (unp + snd res)).

(** *** arm_vfp_ldst_ext *)
Definition arm_vfp_ldst_ext (instr : Z) (extra : ARM_decode_extra_t)
  : M instr_next_addr_t :=
  let retval := set_undef_addr in
  let finish (retval : instr_next_addr_t) (und unp : Z) :=
    if truthy und then set_undef_addr
    else if truthy unp then set_unpred_addr retval
    else retval in
  match extra with
  | arm_vldstx_vldr_d_imm | arm_vldstx_vldr_s_imm
  | arm_vldstx_vstr_d_imm | arm_vldstx_vstr_s_imm =>
      ret (finish set_addr_lin 0 0)
  | arm_vldstx_vpop32 | arm_vldstx_vpop64
  | arm_vldstx_vpush32 | arm_vldstx_vpush64 =>
      let unp := if Z.land instr 0xff =? 0 then 1 else 0 in
      ret (finish set_addr_lin 0 unp)
  | arm_vldstx_vldm32 | arm_vldstx_vldm64
  | arm_vldstx_vstm32 | arm_vldstx_vstm64 =>
      let tmp3 := shl32 0xd 21 in
      let tmp1 := bits instr tmp3 in
      if bitrng instr 19 16 =? 15 then
        let tmp2 := bitrng instr 7 0 in
        let tmp2 := shl32 tmp2 2 in
        tmp3 <- rd_r15 ;;
        if tmp1 =? 2 then ret (finish (set_arm_addr tmp3) 0 0)
        else if tmp1 =? 3 then
          ret (finish (set_arm_addr (add32 tmp3 tmp2)) 0 0)
        else if tmp1 =? 5 then
          ret (finish (set_arm_addr (sub32 tmp3 tmp2)) 0 0)
        else if (tmp1 =? 1) || (tmp1 =? 7) then
          ret (finish (set_arm_addr tmp3) 1 0)
        else
          tmp4 <- unassigned ;;
          ret (finish (set_arm_addr tmp4) 0 0)
      else
        let und := if (tmp1 =? 1) || (tmp1 =? 7) then 1 else 0 in
        ret (finish set_addr_lin und 0)
  | _ => ret (finish retval 0 0)
  end.

(** *** arm_vfp_xfer_reg *)

(** VMOV between two core registers and a doubleword or two singles: the
    extension register is read into [tmp4], which is not used afterwards;
    the result is [retval] and the count [unp]. *)
Definition xfer_vmov_pair (instr : Z) (extra : ARM_decode_extra_t)
  : M (instr_next_addr_t * Z) :=
  let retval := set_undef_addr in
  let tmp1 := bitrng instr 15 12 in
  let tmp2 := bitrng instr 19 16 in
  let unp := if truthy (bit instr 20) && (tmp1 =? tmp2) then 1 else 0 in
  let ss := extra_eqb extra arm_vfpxfer_vmov_ss in
  let '(tmp3, unp) :=
    if ss then
      let tmp3 := shl32 (Z.land instr 0xff) 1 in
      let tmp3 := Z.lor tmp3 (bit instr 5) in
      if tmp3 =? 31 then (30, unp + 1) else (tmp3, unp)
    else
      let tmp3 := Z.land instr 0xff in
      (Z.lor tmp3 (shl32 (bit instr 5) 4), unp) in
  if (tmp1 =? 15) && (tmp2 =? 15) then
    if truthy (bit instr 20) then
      tmp4 <- rd_neon (if ss then tmp3 + 1 else tmp3 * 2 + 1) ;;
      ret (retval, unp + 1)
    else ret (set_addr_lin, unp + 1)
  else if tmp1 =? 15 then
    if truthy (bit instr 20) then
      tmp4 <- rd_neon (if ss then tmp3 else tmp3 * 2) ;;
      ret (retval, unp + 1)
    else ret (set_addr_lin, unp + 1)
  else if tmp2 =? 15 then
    if truthy (bit instr 20) then
      tmp4 <- rd_neon (if ss then tmp3 + 1 else tmp3 * 2 + 1) ;;
      ret (retval, unp + 1)
    else ret (set_addr_lin, unp + 1)
  else ret (set_addr_lin, unp).

(** VMOV of a scalar to a core register, entered with [und] and [retval]
    from the case before it, which has no [break]. *)
Definition xfer_scalar (instr : Z) (und : Z) (retval : instr_next_addr_t)
  : M (instr_next_addr_t * Z * Z) :=
  let tmp1 := bitrng instr 15 12 in
  let tmp2 := bitrng instr 22 21 in
  let tmp3 := bitrng instr 6 5 in
  let dn := u32 (bitrng instr 19 16 * 2) in
  res <-
    (if truthy (Z.land tmp2 2) then
       let tmp4 := Z.lor (shl32 (Z.land tmp2 1) 2) tmp3 in
       tmp3 <- rd_neon_byte dn tmp4 ;;
       if truthy (bit instr 23) then ret (set_arm_addr tmp3, und)
       else ret (set_arm_addr (u32 (instr_util_signx_byte U tmp3)), und)
     else if truthy (Z.land tmp3 1) then
       let tmp4 := Z.lor (shl32 (Z.land tmp2 1) 1) (shr32 tmp3 1) in
       tmp3 <- rd_neon_byte dn tmp4 ;;
       if truthy (bit instr 23) then ret (set_arm_addr tmp3, und)
       else ret (set_arm_addr (u32 (instr_util_signx_short U tmp3)), und)
     else if truthy (Z.land tmp3 2) then ret (retval, und + 1)
     else if truthy (bit instr 23) then ret (retval, und + 1)
     else
       let tmp4 := Z.land tmp2 1 in
       tmp3 <- rd_neon_byte dn tmp4 ;;
       ret (set_arm_addr tmp3, und)) ;;
  let retval := fst res in
  let und := snd res in
  if und =? 0 then
    if tmp1 =? 15 then ret (retval, und, 1)
    else ret (set_addr_lin, und, 0)
  else ret (set_undef_addr, und, 0).

Definition arm_vfp_xfer_reg (instr : Z) (extra : ARM_decode_extra_t)
  : M instr_next_addr_t :=
  let retval := set_undef_addr in
  let finish (retval : instr_next_addr_t) (und unp : Z) :=
    if truthy und then set_undef_addr
    else if truthy unp then set_unpred_addr retval
    else retval in
  match extra with
  | arm_vfpxfer_vmov_d | arm_vfpxfer_vmov_ss =>
      r <- xfer_vmov_pair instr extra ;;
      ret (finish (fst r) 0 (snd r))
  | arm_vfpxfer_vmrs_fpscr =>
      ret (finish set_addr_lin 0 0)
  | arm_vfpxfer_vmsr_fpscr | arm_vfpxfer_vmsr_r =>
      let unp := if bitrng instr 15 12 =? 15 then 1 else 0 in
      ret (finish set_addr_lin 0 unp)
  | arm_vfpxfer_vmrs_r =>
      let tmp1 := bitrng instr 15 12 in
      if tmp1 =? 15 then
        let tmp2 := bitrng instr 19 16 in
        if tmp2 =? 0 then
          tmp3 <- vmrs 0 ;;
          ret (finish (set_unpred_addr (set_arm_addr tmp3)) 0 0)
        else if tmp2 =? 1 then
          tmp3 <- vmrs 1 ;;
          ret (finish (set_arm_addr tmp3) 0 0)
        else if tmp2 =? 6 then
          tmp3 <- vmrs 6 ;;
          ret (finish (set_unpred_addr (set_arm_addr tmp3)) 0 0)
        else if tmp2 =? 7 then
          tmp3 <- vmrs 7 ;;
          ret (finish (set_unpred_addr (set_arm_addr tmp3)) 0 0)
        else if tmp2 =? 8 then
          tmp3 <- vmrs 8 ;;
          ret (finish (set_unpred_addr (set_arm_addr tmp3)) 0 0)
        else ret (finish set_undef_addr 0 0)
      else ret (finish set_addr_lin 0 0)
  | arm_vfpxfer_vdup =>
      let und :=
        if (bit instr 22 =? 1) && (bit instr 5 =? 1) then 1 else 0 in
      ret (finish set_addr_lin und 0)
  | arm_vfpxfer_vmov_dx =>
      let und :=
        if (bit instr 22 =? 0) && (bitrng instr 6 5 =? 2) then 1 else 0 in
      r <- xfer_scalar instr und set_addr_lin ;;
      let '(retval, und, unp) := r in
      ret (finish retval und unp)
  | arm_vfpxfer_vmov_dt_dx =>
      r <- xfer_scalar instr 0 retval ;;
      let '(retval, und, unp) := r in
      ret (finish retval und unp)
  | arm_vfpxfer_vmov_s =>
      if truthy (bit instr 20) then
        if bitrng instr 15 12 =? 15 then
          let tmp1 := bitrng instr 19 16 in
          tmp2 <- rd_neon tmp1 ;;
          ret (finish (set_arm_addr tmp2) 0 0)
        else ret (finish set_addr_lin 0 0)
      else ret (finish set_addr_lin 0 0)
  | _ => ret (finish set_undef_addr 0 0)
  end.

End Decoder.

(** ** The decode table and the dispatcher *)

(** An entry of [ARM_decode_table].  The table itself is read from
    ARM_decode_table_data.h, which is generated elsewhere: the dispatcher
    takes it as an argument. *)
Record ARM_dec_tbl_entry_t : Type := mk_entry {
  data : Z;
  mask : Z;
  extra : ARM_decode_extra_t;
  decoder : Z -> ARM_decode_extra_t -> M instr_next_addr_t
}.

Definition entry_matches (instr : Z) (e : ARM_dec_tbl_entry_t) : bool :=
  Z.land instr (mask e) =? data e.

(** The [for] loop of the dispatcher with [count] iterations left at index
    [i]; a hit calls the decoder and leaves the loop. *)
Fixpoint dispatch_loop (ARM_decode_table : list ARM_dec_tbl_entry_t)
  (count i : nat) (retval : instr_next_addr_t) (instr : Z)
  : M instr_next_addr_t :=
  match count with
  | O => ret retval
  | S count' =>
      match nth_error ARM_decode_table i with
      | Some e =>
          if entry_matches instr e
          then decoder e instr (extra e)
          else dispatch_loop ARM_decode_table count' (S i) retval instr
      | None => ret retval
      end
  end.

Definition ARM_decoder_dispatch (ARM_decode_table : list ARM_dec_tbl_entry_t)
  (instr : Z) : M instr_next_addr_t :=
  let instr_count := length ARM_decode_table in
  let retval := set_undef_addr in
  dispatch_loop ARM_decode_table instr_count 0 retval instr.

(** The decoding functions of the source file, in the order of the file:
    every function a table entry can name. *)
Definition embedded_decoders (U : instr_util)
  : list (Z -> ARM_decode_extra_t -> M instr_next_addr_t) :=
  [ arm_mux U; arm_branch U; arm_coproc;
    arm_core_data_div; arm_core_data_mac; arm_core_data_macd;
    arm_core_data_misc; arm_core_data_pack U; arm_core_data_par U;
    arm_core_data_sat U; arm_core_data_bit; arm_core_data_std_r;
    arm_core_data_std_sh; arm_core_data_std_i; arm_core_exc U;
    arm_core_ldst; arm_core_ldstm U; arm_core_ldstrd; arm_core_ldstrex;
    arm_core_ldstrh U; arm_core_ldstrsb U; arm_core_ldstsh U;
    arm_core_misc; arm_core_status U;
    arm_fp; arm_v_bits; arm_v_comp; arm_v_mac; arm_v_misc; arm_v_par;
    arm_v_shift; arm_vfp_ldst_elem; arm_vfp_ldst_ext; arm_vfp_xfer_reg U ].

(** The case labels of the exception-return sub-types in the second switch
    of [arm_core_data_bit]. *)
Definition data_bit_is_ret (extra : ARM_decode_extra_t) : bool :=
  match extra with
  | arm_ret_asr_imm | arm_ret_lsr_imm | arm_ret_lsl_imm
  | arm_ret_ror_imm | arm_ret_rrx_pc | arm_ret_mov_pc => true
  | _ => false
  end.

(** The case labels of [arm_core_data_misc] and [arm_core_data_pack]: the
    sub-types these handlers are entered with. *)
Definition misc_handles (extra : ARM_decode_extra_t) : bool :=
  match extra with
  | arm_cmisc_movw | arm_cmisc_movt | arm_cmisc_clz | arm_cmisc_bfc
  | arm_cmisc_bfi | arm_cmisc_rbit | arm_cmisc_rev | arm_cmisc_rev16
  | arm_cmisc_revsh | arm_cmisc_sbfx | arm_cmisc_ubfx | arm_cmisc_sel
  | arm_cmisc_usad8 | arm_cmisc_usada8 => true
  | _ => false
  end.

Definition pack_handles (extra : ARM_decode_extra_t) : bool :=
  match extra with
  | arm_pack_pkh
  | arm_pack_sxtb | arm_pack_uxtb | arm_pack_sxtab | arm_pack_uxtab
  | arm_pack_sxtab16 | arm_pack_uxtab16 | arm_pack_sxtb16 | arm_pack_uxtb16
  | arm_pack_sxth | arm_pack_sxtah | arm_pack_uxtah | arm_pack_uxth => true
  | _ => false
  end.

(** ** Properties of outcomes and computations *)

(** The linear-fallthrough sentinel, with or without the UNPREDICTABLE
    overlay. *)
Definition linear (r : instr_next_addr_t) : Prop :=
  flag r = INSTR_ADDR_ARM /\ address r = 0xffffffff.

(** A computation that hands the target state on unchanged. *)
Definition readonly {A : Type} (m : M A) : Prop :=
  forall s, final m s = s.

(** ** An environment for evaluation *)

(** Modelled from the spec: [will_branch] of instr_util tests the condition
    field (bits 31-28) of the instruction against the flags N, Z, C, V of
    the status word; the A32 condition table is used, with the field 1111
    passing. *)
Definition ConditionPassed (instr : Z) (s : machine) : bool :=
  let cpsr := reg_cpsr (rpi2_reg_context s) in
  let n := Z.testbit cpsr 31 in
  let z := Z.testbit cpsr 30 in
  let c := Z.testbit cpsr 29 in
  let v := Z.testbit cpsr 28 in
  let cond := bitrng instr 31 28 in
  let base := Z.shiftr cond 1 in
  let result :=
    if base =? 0 then z
    else if base =? 1 then c
    else if base =? 2 then n
    else if base =? 3 then v
    else if base =? 4 then c && negb z
    else if base =? 5 then Bool.eqb n v
    else if base =? 6 then Bool.eqb n v && negb z
    else true in
  if Z.testbit cond 0 && negb (cond =? 15) then negb result else result.

(** Modelled from the spec: [check_proc_mode] compares the mode field of the
    current status word with up to four modes, given by their architectural
    numbers; [check_coproc_access] reads the access bit of NSACR;
    [get_proc_mode] is the mode field; the banked registers read by
    [get_mode_reg] are kept behind the context. *)
Definition CurrentModeIs (m1 m2 m3 m4 : Z) (s : machine) : bool :=
  let mode := Z.land (reg_cpsr (rpi2_reg_context s)) 0x1f in
  (mode =? m1) || (mode =? m2) || (mode =? m3) || (mode =? m4).

(** Modelled from the spec: the lane helpers of instr_util rotate right by
    bytes, sign-extend a byte or halfword, saturate to N bits (signed or
    unsigned) and pack halfwords or bytes into a word. *)
Definition signx (w x : Z) : Z :=
  let f := x mod 2 ^ w in if f <? 2 ^ (w - 1) then f else f - 2 ^ w.

Definition clamp (lo hi x : Z) : Z := Z.max lo (Z.min hi x).

Definition rorb (x n : Z) : Z :=
  let k := 8 * (n mod 4) in
  u32 (Z.lor (Z.shiftr (u32 x) k) (Z.shiftl (u32 x) (32 - k))).

Definition stuff16 (hi lo : Z) : Z :=
  Z.lor (Z.shiftl (hi mod 2 ^ 16) 16) (lo mod 2 ^ 16).

Definition stuff8 (b3 b2 b1 b0 : Z) : Z :=
  Z.lor (Z.lor (Z.shiftl (b3 mod 256) 24) (Z.shiftl (b2 mod 256) 16))
        (Z.lor (Z.shiftl (b1 mod 256) 8) (b0 mod 256)).

Definition a32_util : instr_util :=
  mk_instr_util ConditionPassed CurrentModeIs
    (fun n s => Z.testbit (hw_nsacr s) n)
    (fun s => Z.land (reg_cpsr (rpi2_reg_context s)) 0x1f)
    (fun mode reg s => beyond_context s (32 * mode + reg))
    0x10 0x11 0x12 0x13 0x16 0x17 0x1a 0x1b 0x1f
    rorb
    (fun x => signx 16 x)
    (fun x => signx 16 (Z.shiftr (u32 x) 16))
    (fun x => signx 8 x)
    (fun x => signx 16 x)
    (fun x n => clamp (- 2 ^ (n - 1)) (2 ^ (n - 1) - 1) (to_int x))
    (fun x n => clamp 0 (2 ^ n - 1) (to_int x))
    (fun x n => clamp (- 2 ^ (n - 1)) (2 ^ (n - 1) - 1) x)
    stuff16 stuff16 stuff8 stuff8.

(** A target in supervisor mode with all flags clear but Z: r0..r12 hold
    their own number times 0x100, SP = 0x7000, LR = 0x1001, PC = 0x8000;
    memory holds the low byte of each address. *)
Definition sample_context : rpi2_reg_context_t :=
  mk_reg_context
    [0x000; 0x100; 0x200; 0x300; 0x400; 0x500; 0x600; 0x700;
     0x800; 0x900; 0xa00; 0xb00; 0xc00; 0x7000; 0x1001; 0x8000]
    0x40000013 0x00000013.

Definition sample_machine : machine :=
  mk_machine sample_context (fun _ => 0) (fun n => n)
    (fun a => a mod 256) 0 0 0 0 (fun _ => 0) true 0.

(** A small table in the shape of the generated one: BX stands before the
    MOV-to-PC entry, which stands before the general LSL/MOV entry it
    overlaps. *)
Definition sample_table : list ARM_dec_tbl_entry_t :=
  [ mk_entry 0x012fff10 0x0ffffff0 arm_bra_bx_r (arm_branch a32_util);
    mk_entry 0x01a0f000 0x0fe0f070 arm_mux_lsl_i_mov_pc (arm_mux a32_util);
    mk_entry 0x01a00000 0x0fe00070 arm_mux_lsl_i_mov (arm_mux a32_util);
    mk_entry 0x0a000000 0x0f000000 arm_bra_b_lbl (arm_branch a32_util) ].

(** The same target in user mode. *)
Definition user_machine : machine :=
  mk_machine (mk_reg_context (storage sample_context) 0x40000010 0x00000010)
    (fun _ => 0) (fun n => n) (fun a => a mod 256) 0 0 0 0 (fun _ => 0)
    true 0.

(** ** Classes of outcomes and sub-types used in the statements *)

(** An outcome that carries no target address: UNDEFINED, or the linear
    sentinel; either may carry the UNPREDICTABLE overlay. *)
Definition no_address (r : instr_next_addr_t) : Prop :=
  flag r = INSTR_ADDR_UNDEF \/ linear r.

(** The sub-types of [arm_mux] that can end in a computed address: the ones
    forwarded to [arm_core_data_bit], and MRS. *)
Definition mux_forwards (extra : ARM_decode_extra_t) : bool :=
  match extra with
  | arm_mux_lsl_i_mov | arm_mux_lsl_i_mov_pc | arm_mux_ror_i_rrx
  | arm_mux_mrs_r_pr => true
  | _ => false
  end.

(** An outcome that is not a plain computed address: it is flagged
    UNPREDICTABLE, or it is the linear sentinel, or UNDEFINED. *)
Definition flagged_or_plain (r : instr_next_addr_t) : Prop :=
  unpred r = true \/ r = set_addr_lin \/ r = set_undef_addr.

(** The sample target with its memory written another way: the same byte
    at every address. *)
Definition sample_machine_wrapped : machine :=
  mk_machine sample_context (fun _ => 0) (fun n => n)
    (fun a => (a + 256) mod 256) 0 0 0 0 (fun _ => 0) true 0.

(** A non-secure target in supervisor mode, with the given SCR. *)
Definition nonsecure_machine (scr : Z) : machine :=
  mk_machine sample_context (fun _ => 0) (fun n => n) (fun a => a mod 256)
    scr 0 0 0 (fun _ => 0) false 0.

(** The sample target with the T bit set in the saved status word. *)
Definition thumb_return_machine : machine :=
  mk_machine (mk_reg_context (storage sample_context) 0x40000013 0x00000033)
    (fun _ => 0) (fun n => n) (fun a => a mod 256) 0 0 0 0 (fun _ => 0)
    true 0.

(** The sub-types that [arm_mux] forwards to [arm_core_data_bit]. *)
Definition mux_to_data_bit (extra : ARM_decode_extra_t) : bool :=
  match extra with
  | arm_mux_lsl_i_mov | arm_mux_lsl_i_mov_pc | arm_mux_ror_i_rrx => true
  | _ => false
  end.

(** The sub-types of [arm_core_data_misc] whose destination register is
    bits 15-12.  USAD8 and USADA8 have their destination in bits 19-16;
    bits 15-12 are Ra there. *)
Definition misc_rd_15_12 (extra : ARM_decode_extra_t) : bool :=
  match extra with
  | arm_cmisc_movw | arm_cmisc_movt | arm_cmisc_clz | arm_cmisc_bfc
  | arm_cmisc_bfi | arm_cmisc_rbit | arm_cmisc_rev | arm_cmisc_rev16
  | arm_cmisc_revsh | arm_cmisc_sbfx | arm_cmisc_ubfx | arm_cmisc_sel => true
  | _ => false
  end.

(** Byte lane [k] of a 32-bit word. *)
Definition byte_lane (x k : Z) : Z := (u32 x / 2 ^ (8 * k)) mod 256.

(** ** What a decode call reads *)

(** The register snapshot: general registers and status words, and the
    extension register file. *)
Record same_snapshot (s1 s2 : machine) : Prop := mk_same_snapshot {
  snap_context : rpi2_reg_context s1 = rpi2_reg_context s2;
  snap_neon : forall n, neon_storage s1 n = neon_storage s2 n
}.

(** The memory a call reads: target memory through the addresses it
    computes, the words an index outside [storage[0..15]] reaches behind the
    context, and the word of an automatic variable read before it is
    assigned. *)
Record same_memory (s1 s2 : machine) : Prop := mk_same_memory {
  mem_target : forall a, memory s1 a = memory s2 a;
  mem_beyond : forall n, beyond_context s1 n = beyond_context s2 n;
  mem_local : indeterminate s1 = indeterminate s2
}.

(** The system state: the security state and the system registers behind
    the getters and the VMRS instructions, and what the helpers of
    instr_util report (condition, processor mode, coprocessor access, banked
    registers). *)
Record same_system (U : instr_util) (s1 s2 : machine) : Prop :=
mk_same_system {
  sys_secure : hw_secure s1 = hw_secure s2;
  sys_scr : hw_scr s1 = hw_scr s2;
  sys_hcr : hw_hcr s1 = hw_hcr s2;
  sys_nsacr : hw_nsacr s1 = hw_nsacr s2;
  sys_elr_hyp : hw_elr_hyp s1 = hw_elr_hyp s2;
  sys_vfp : forall r, hw_vfp s1 r = hw_vfp s2 r;
  sys_will_branch :
    forall instr, will_branch_of U instr s1 = will_branch_of U instr s2;
  sys_check_proc_mode :
    forall m1 m2 m3 m4,
      check_proc_mode_of U m1 m2 m3 m4 s1 = check_proc_mode_of U m1 m2 m3 m4 s2;
  sys_check_coproc_access :
    forall n, check_coproc_access_of U n s1 = check_coproc_access_of U n s2;
  sys_get_proc_mode : get_proc_mode_of U s1 = get_proc_mode_of U s2;
  sys_get_mode_reg :
    forall mode reg, get_mode_reg_of U mode reg s1 = get_mode_reg_of U mode reg s2
}.

(** A computation that gives the same value in both states. *)
Definition agree (s1 s2 : machine) {A : Type} (m : M A) : Prop :=
  run m s1 = run m s2.

(** ** Frame lemmas: every decoder only reads the target *)

Lemma readonly_ret {A : Type} (a : A) : readonly (ret a).
Proof. intro s. reflexivity. Qed.

Lemma readonly_gets {A : Type} (f : machine -> A) : readonly (gets f).
Proof. intro s. reflexivity. Qed.

Lemma readonly_bind {A B : Type} (m : M A) (k : A -> M B) :
  readonly m -> (forall a, readonly (k a)) -> readonly (bind m k).
Proof.
  intros Hm Hk s. unfold final, bind.
  specialize (Hm s). unfold final in Hm.
  destruct (m s) as [a s'] eqn:E. simpl in Hm. subst s'.
  apply (Hk a).
Qed.

(** A read-only computation in front of a continuation: the continuation
    runs in the state the whole computation started in. *)
Lemma run_bind {A B : Type} (m : M A) (k : A -> M B) (s : machine) :
  readonly m -> run (bind m k) s = run (k (run m s)) s.
Proof.
  intros Hm. unfold run, bind.
  specialize (Hm s). unfold final in Hm.
  destruct (m s) as [a s'] eqn:E. simpl in *. subst s'. reflexivity.
Qed.

Lemma run_ret {A : Type} (a : A) (s : machine) : run (ret a) s = a.
Proof. reflexivity. Qed.

Lemma run_gets {A : Type} (f : machine -> A) (s : machine) :
  run (gets f) s = f s.
Proof. reflexivity. Qed.

Create HintDb readonly.

Lemma readonly_rd_storage n : readonly (rd_storage n).
Proof. apply readonly_gets. Qed.

Lemma readonly_rd_cpsr : readonly rd_cpsr.
Proof. apply readonly_gets. Qed.

Lemma readonly_rd_spsr : readonly rd_spsr.
Proof. apply readonly_gets. Qed.

Lemma readonly_rd_r13 : readonly rd_r13.
Proof. apply readonly_gets. Qed.

Lemma readonly_rd_r14 : readonly rd_r14.
Proof. apply readonly_gets. Qed.

Lemma readonly_rd_r15 : readonly rd_r15.
Proof. apply readonly_gets. Qed.

Lemma readonly_unassigned : readonly unassigned.
Proof. apply readonly_gets. Qed.

Lemma readonly_load8 a : readonly (load8 a).
Proof. apply readonly_gets. Qed.

Lemma readonly_load16 a : readonly (load16 a).
Proof. apply readonly_gets. Qed.

Lemma readonly_load32 a : readonly (load32 a).
Proof. apply readonly_gets. Qed.

Lemma readonly_rd_neon n : readonly (rd_neon n).
Proof. apply readonly_gets. Qed.

Lemma readonly_rd_neon_byte n k : readonly (rd_neon_byte n k).
Proof. apply readonly_gets. Qed.

Lemma readonly_vmrs reg : readonly (vmrs reg).
Proof. apply readonly_gets. Qed.

Lemma readonly_get_proc_mode U : readonly (get_proc_mode U).
Proof. apply readonly_gets. Qed.

Lemma readonly_get_mode_reg U mode reg : readonly (get_mode_reg U mode reg).
Proof. apply readonly_gets. Qed.

Lemma readonly_get_NSACR : readonly get_NSACR.
Proof. apply readonly_gets. Qed.

Lemma readonly_will_branch U instr : readonly (will_branch U instr).
Proof. apply readonly_gets. Qed.

Lemma readonly_check_proc_mode U m1 m2 m3 m4 :
  readonly (check_proc_mode U m1 m2 m3 m4).
Proof. apply readonly_gets. Qed.

Lemma readonly_check_coproc_access U n : readonly (check_coproc_access U n).
Proof. apply readonly_gets. Qed.

Lemma readonly_get_security_state : readonly get_security_state.
Proof. apply readonly_gets. Qed.

Lemma readonly_get_SCR : readonly get_SCR.
Proof. apply readonly_gets. Qed.

Lemma readonly_get_HCR : readonly get_HCR.
Proof. apply readonly_gets. Qed.

Lemma readonly_get_elr_hyp : readonly get_elr_hyp.
Proof. apply readonly_gets. Qed.

#[local] Hint Resolve readonly_rd_storage readonly_rd_cpsr readonly_rd_spsr
  readonly_rd_r13 readonly_rd_r14 readonly_rd_r15 readonly_unassigned
  readonly_load8 readonly_load16 readonly_load32 readonly_rd_neon
  readonly_rd_neon_byte readonly_vmrs readonly_get_proc_mode
  readonly_get_mode_reg readonly_get_NSACR readonly_will_branch readonly_check_proc_mode
  readonly_check_coproc_access readonly_get_security_state readonly_get_SCR
  readonly_get_HCR readonly_get_elr_hyp : readonly.

(** One step through the syntax of a computation: a bind splits, a
    conditional is decided both ways, a leaf is a read or a known
    read-only computation. *)
Ltac readonly_step :=
  lazymatch goal with
  | |- readonly (bind _ _) => apply readonly_bind; [ | intro ]
  | |- readonly (if ?b then _ else _) => destruct b
  | |- readonly (match ?x with _ => _ end) => destruct x
  | |- readonly (ret _) => apply readonly_ret
  | |- readonly (gets _) => apply readonly_gets
  | |- readonly _ => solve [ auto with readonly nocore ]
  end.

Ltac readonly_tac :=
  cbv beta iota zeta; repeat (readonly_step; cbv beta iota zeta).

(** ** Stepping through a computation

    A bind whose first part is read-only is run in the state of the call;
    [run_step] rewrites with that until the handler is an expression over
    the values read, and [run_case] decides the test it stops at. *)
Ltac run_step :=
  match goal with
  | |- context [run (bind ?m ?k) ?s] =>
      rewrite (run_bind m k s) by readonly_tac
  | |- context [run (ret ?a) ?s] => change (run (ret a) s) with a
  | |- context [run (gets ?f) ?s] => change (run (gets f) s) with (f s)
  end; cbv beta zeta.

Ltac run_case :=
  match goal with
  | |- context [run (if ?b then _ else _) _] => destruct b eqn:?
  | |- context [run (match ?x with _ => _ end) _] => destruct x eqn:?
  end; cbv beta iota zeta.

Ltac run_all := cbv beta iota zeta; repeat (first [run_step | run_case]).

Ltac value_cases :=
  repeat match goal with
         | |- context [if ?b then _ else _] => destruct b
         end.

Lemma readonly_arm_vfp_ldst_elem instr extra :
  readonly (arm_vfp_ldst_elem instr extra).
Proof. unfold arm_vfp_ldst_elem. readonly_tac. Qed.

Lemma readonly_data_bit_tmp3 instr extra :
  readonly (data_bit_tmp3 instr extra).
Proof. unfold data_bit_tmp3. destruct extra; readonly_tac. Qed.

#[local] Hint Resolve readonly_arm_vfp_ldst_elem readonly_data_bit_tmp3
  : readonly.

Lemma readonly_arm_core_data_bit instr extra :
  readonly (arm_core_data_bit instr extra).
Proof. unfold arm_core_data_bit. destruct extra; readonly_tac. Qed.

#[local] Hint Resolve readonly_arm_core_data_bit : readonly.

Lemma readonly_arm_mux_switch instr extra :
  readonly (arm_mux_switch instr extra).
Proof. unfold arm_mux_switch. destruct extra; readonly_tac. Qed.

#[local] Hint Resolve readonly_arm_mux_switch : readonly.

Lemma readonly_arm_mux U instr extra : readonly (arm_mux U instr extra).
Proof. unfold arm_mux. readonly_tac. Qed.

Lemma readonly_arm_branch U instr extra : readonly (arm_branch U instr extra).
Proof. unfold arm_branch. destruct extra; readonly_tac. Qed.

Lemma readonly_arm_core_data_div instr extra :
  readonly (arm_core_data_div instr extra).
Proof. unfold arm_core_data_div. readonly_tac. Qed.

Lemma readonly_arm_core_data_mac instr extra :
  readonly (arm_core_data_mac instr extra).
Proof. unfold arm_core_data_mac. destruct extra; readonly_tac. Qed.

Lemma readonly_std_ret_check instr retval :
  readonly (std_ret_check instr retval).
Proof. unfold std_ret_check. readonly_tac. Qed.

Lemma readonly_std_r_operands instr : readonly (std_r_operands instr).
Proof. unfold std_r_operands. readonly_tac. Qed.

Lemma readonly_std_sh_operands instr : readonly (std_sh_operands instr).
Proof. unfold std_sh_operands. readonly_tac. Qed.

Lemma readonly_std_i_operands instr : readonly (std_i_operands instr).
Proof. unfold std_i_operands. readonly_tac. Qed.

Lemma readonly_std_r_alu extra tmp1 tmp2 retval :
  readonly (std_r_alu extra tmp1 tmp2 retval).
Proof. unfold std_r_alu. destruct extra; readonly_tac. Qed.

Lemma readonly_std_sh_alu extra tmp1 tmp2 retval :
  readonly (std_sh_alu extra tmp1 tmp2 retval).
Proof. unfold std_sh_alu. destruct extra; readonly_tac. Qed.

Lemma readonly_std_i_alu extra tmp1 tmp2 retval :
  readonly (std_i_alu extra tmp1 tmp2 retval).
Proof. unfold std_i_alu. destruct extra; readonly_tac. Qed.

#[local] Hint Resolve readonly_std_ret_check readonly_std_r_operands
  readonly_std_sh_operands readonly_std_i_operands readonly_std_r_alu
  readonly_std_sh_alu readonly_std_i_alu : readonly.

Lemma readonly_arm_core_data_std_r instr extra :
  readonly (arm_core_data_std_r instr extra).
Proof. unfold arm_core_data_std_r. readonly_tac. Qed.

Lemma readonly_arm_core_data_std_sh instr extra :
  readonly (arm_core_data_std_sh instr extra).
Proof. unfold arm_core_data_std_sh. readonly_tac. Qed.

Lemma readonly_arm_core_data_std_i instr extra :
  readonly (arm_core_data_std_i instr extra).
Proof. unfold arm_core_data_std_i. readonly_tac. Qed.

Lemma readonly_arm_core_exc U instr extra :
  readonly (arm_core_exc U instr extra).
Proof. unfold arm_core_exc. destruct extra; readonly_tac. Qed.

Lemma readonly_ldst_offset instr : readonly (ldst_offset instr).
Proof. unfold ldst_offset. readonly_tac. Qed.

Lemma readonly_ldst_fetch instr a : readonly (ldst_fetch instr a).
Proof. unfold ldst_fetch. readonly_tac. Qed.

#[local] Hint Resolve readonly_ldst_offset readonly_ldst_fetch : readonly.

Lemma readonly_arm_core_ldst instr extra :
  readonly (arm_core_ldst instr extra).
Proof. unfold arm_core_ldst. readonly_tac. Qed.

Lemma readonly_rd_operand r : readonly (rd_operand r).
Proof. unfold rd_operand. readonly_tac. Qed.

#[local] Hint Resolve readonly_rd_operand : readonly.

Lemma readonly_arm_core_data_macd instr extra :
  readonly (arm_core_data_macd instr extra).
Proof. unfold arm_core_data_macd. destruct extra; readonly_tac. Qed.

Lemma readonly_arm_core_data_misc instr extra :
  readonly (arm_core_data_misc instr extra).
Proof. unfold arm_core_data_misc. destruct extra; readonly_tac. Qed.

Lemma readonly_arm_core_data_pack U instr extra :
  readonly (arm_core_data_pack U instr extra).
Proof. unfold arm_core_data_pack. destruct extra; readonly_tac. Qed.

Lemma readonly_arm_core_data_par U instr extra :
  readonly (arm_core_data_par U instr extra).
Proof. unfold arm_core_data_par. readonly_tac. Qed.

Lemma readonly_arm_core_data_sat U instr extra :
  readonly (arm_core_data_sat U instr extra).
Proof. unfold arm_core_data_sat. readonly_tac. Qed.

Lemma readonly_arm_coproc instr extra : readonly (arm_coproc instr extra).
Proof. unfold arm_coproc. destruct extra; readonly_tac. Qed.

Lemma readonly_ldstm_new_base instr tmp4 :
  readonly (ldstm_new_base instr tmp4).
Proof. unfold ldstm_new_base. readonly_tac. Qed.

Lemma readonly_ldstm_mode_check U retval :
  readonly (ldstm_mode_check U retval).
Proof. unfold ldstm_mode_check. readonly_tac. Qed.

#[local] Hint Resolve readonly_ldstm_new_base readonly_ldstm_mode_check
  : readonly.

Lemma readonly_arm_core_ldstm U instr extra :
  readonly (arm_core_ldstm U instr extra).
Proof. unfold arm_core_ldstm. readonly_tac. Qed.

Lemma readonly_arm_core_misc instr extra :
  readonly (arm_core_misc instr extra).
Proof. unfold arm_core_misc. destruct extra; readonly_tac. Qed.

Lemma readonly_ldstrd_fetch tmp4 tmp3 : readonly (ldstrd_fetch tmp4 tmp3).
Proof. unfold ldstrd_fetch. readonly_tac. Qed.

#[local] Hint Resolve readonly_ldstrd_fetch : readonly.

Lemma readonly_arm_core_ldstrd instr extra :
  readonly (arm_core_ldstrd instr extra).
Proof. unfold arm_core_ldstrd. readonly_tac. Qed.

Lemma readonly_arm_core_ldstrex instr extra :
  readonly (arm_core_ldstrex instr extra).
Proof. unfold arm_core_ldstrex. readonly_tac. Qed.

Lemma readonly_ldsth_offset instr : readonly (ldsth_offset instr).
Proof. unfold ldsth_offset. readonly_tac. Qed.

Lemma readonly_ldsth_writeback instr tmp3 :
  readonly (ldsth_writeback instr tmp3).
Proof. unfold ldsth_writeback. readonly_tac. Qed.

#[local] Hint Resolve readonly_ldsth_offset readonly_ldsth_writeback
  : readonly.

Lemma readonly_ldsth_rt_pc U instr tmp2 tmp3 hyp_unp :
  readonly (ldsth_rt_pc U instr tmp2 tmp3 hyp_unp).
Proof. unfold ldsth_rt_pc. readonly_tac. Qed.

Lemma readonly_ldsth_rn_pc U instr tmp3 hyp_unp :
  readonly (ldsth_rn_pc U instr tmp3 hyp_unp).
Proof. unfold ldsth_rn_pc. readonly_tac. Qed.

#[local] Hint Resolve readonly_ldsth_rt_pc readonly_ldsth_rn_pc : readonly.

Lemma readonly_arm_core_ldstrh U instr extra :
  readonly (arm_core_ldstrh U instr extra).
Proof. unfold arm_core_ldstrh. readonly_tac. Qed.

Lemma readonly_arm_core_ldstrsb U instr extra :
  readonly (arm_core_ldstrsb U instr extra).
Proof. unfold arm_core_ldstrsb. readonly_tac. Qed.

Lemma readonly_arm_core_ldstsh U instr extra :
  readonly (arm_core_ldstsh U instr extra).
Proof. unfold arm_core_ldstsh. readonly_tac. Qed.

Lemma readonly_status_cps_mode U tmp1 : readonly (status_cps_mode U tmp1).
Proof. unfold status_cps_mode. readonly_tac. Qed.

Lemma readonly_status_access U extra tmp1 tmp2 tmp4 :
  readonly (status_access U extra tmp1 tmp2 tmp4).
Proof. unfold status_access. readonly_tac. Qed.

#[local] Hint Resolve readonly_status_cps_mode readonly_status_access
  : readonly.

Lemma readonly_arm_core_status U instr extra :
  readonly (arm_core_status U instr extra).
Proof.
  unfold arm_core_status.
  destruct (status_banked_target U instr) as [[tmp1 tmp2] unp].
  readonly_tac.
Qed.

Lemma readonly_arm_vfp_ldst_ext instr extra :
  readonly (arm_vfp_ldst_ext instr extra).
Proof. unfold arm_vfp_ldst_ext. destruct extra; readonly_tac. Qed.

Lemma readonly_xfer_vmov_pair instr extra :
  readonly (xfer_vmov_pair instr extra).
Proof. unfold xfer_vmov_pair. readonly_tac. Qed.

Lemma readonly_xfer_scalar U instr und retval :
  readonly (xfer_scalar U instr und retval).
Proof. unfold xfer_scalar. readonly_tac. Qed.

#[local] Hint Resolve readonly_xfer_vmov_pair readonly_xfer_scalar : readonly.

Lemma readonly_arm_vfp_xfer_reg U instr extra :
  readonly (arm_vfp_xfer_reg U instr extra).
Proof. unfold arm_vfp_xfer_reg. destruct extra; readonly_tac. Qed.

Lemma readonly_embedded U f instr extra :
  In f (embedded_decoders U) -> readonly (f instr extra).
Proof.
  unfold embedded_decoders. intros H.
  repeat (destruct H as [<-|H]); try contradiction.
  - apply readonly_arm_mux.
  - apply readonly_arm_branch.
  - apply readonly_arm_coproc.
  - apply readonly_arm_core_data_div.
  - apply readonly_arm_core_data_mac.
  - apply readonly_arm_core_data_macd.
  - apply readonly_arm_core_data_misc.
  - apply readonly_arm_core_data_pack.
  - apply readonly_arm_core_data_par.
  - apply readonly_arm_core_data_sat.
  - apply readonly_arm_core_data_bit.
  - apply readonly_arm_core_data_std_r.
  - apply readonly_arm_core_data_std_sh.
  - apply readonly_arm_core_data_std_i.
  - apply readonly_arm_core_exc.
  - apply readonly_arm_core_ldst.
  - apply readonly_arm_core_ldstm.
  - apply readonly_arm_core_ldstrd.
  - apply readonly_arm_core_ldstrex.
  - apply readonly_arm_core_ldstrh.
  - apply readonly_arm_core_ldstrsb.
  - apply readonly_arm_core_ldstsh.
  - apply readonly_arm_core_misc.
  - apply readonly_arm_core_status.
  - apply readonly_ret.
  - apply readonly_ret.
  - apply readonly_ret.
  - apply readonly_ret.
  - apply readonly_ret.
  - apply readonly_ret.
  - apply readonly_ret.
  - apply readonly_arm_vfp_ldst_elem.
  - apply readonly_arm_vfp_ldst_ext.
  - apply readonly_arm_vfp_xfer_reg.
Qed.

(** ** Bit tests *)

Lemma bit_b2z x n : 0 <= n -> bit x n = Z.b2z (Z.testbit x n).
Proof.
  intros Hn. unfold bit.
  change 1 with (Z.ones 1). rewrite Z.land_ones by lia.
  change (2 ^ 1) with 2. rewrite <- Z.bit0_mod.
  rewrite Z.shiftr_spec by lia. rewrite Z.add_0_l. reflexivity.
Qed.

Lemma truthy_bit x n : 0 <= n -> truthy (bit x n) = Z.testbit x n.
Proof.
  intros Hn. rewrite bit_b2z by assumption.
  unfold truthy. destruct (Z.testbit x n); reflexivity.
Qed.

Lemma bit_eqb_0 x n : 0 <= n -> (bit x n =? 0) = negb (Z.testbit x n).
Proof.
  intros Hn. rewrite bit_b2z by assumption.
  destruct (Z.testbit x n); reflexivity.
Qed.

(** ** The dispatcher scans in table order *)

Lemma skipn_nth_error {A : Type} (l : list A) :
  forall i e, nth_error l i = Some e -> skipn i l = e :: skipn (S i) l.
Proof.
  induction l as [|a l IH]; intros [|i] e H; simpl in *; try discriminate.
  - injection H as ->. reflexivity.
  - apply IH. assumption.
Qed.

Lemma dispatch_loop_find tbl instr s retval :
  forall count i, count = (length tbl - i)%nat ->
  dispatch_loop tbl count i retval instr s =
  match find (entry_matches instr) (skipn i tbl) with
  | Some e => decoder e instr (extra e) s
  | None => (retval, s)
  end.
Proof.
  induction count as [|count IH]; intros i Hc; simpl.
  - rewrite skipn_all2 by lia. reflexivity.
  - destruct (nth_error tbl i) as [e|] eqn:E.
    + rewrite (skipn_nth_error tbl i e E). simpl.
      destruct (entry_matches instr e); [reflexivity|].
      apply IH. lia.
    + apply nth_error_None in E. lia.
Qed.

Lemma ARM_decoder_dispatch_find tbl instr s :
  ARM_decoder_dispatch tbl instr s =
  match find (entry_matches instr) tbl with
  | Some e => decoder e instr (extra e) s
  | None => (set_undef_addr, s)
  end.
Proof.
  unfold ARM_decoder_dispatch.
  rewrite (dispatch_loop_find tbl instr s set_undef_addr (length tbl) 0)
    by lia.
  reflexivity.
Qed.

Lemma find_first_match {A : Type} (p : A -> bool) (pre post : list A) (e : A) :
  (forall x, In x pre -> p x = false) -> p e = true ->
  find p (pre ++ e :: post) = Some e.
Proof.
  intros Hpre He. induction pre as [|a pre IH]; simpl.
  - rewrite He. reflexivity.
  - rewrite (Hpre a) by (left; reflexivity).
    apply IH. intros x Hx. apply Hpre. right. assumption.
Qed.

Lemma find_no_match {A : Type} (p : A -> bool) (l : list A) :
  (forall x, In x l -> p x = false) -> find p l = None.
Proof.
  intros H. induction l as [|a l IH]; simpl; [reflexivity|].
  rewrite (H a) by (left; reflexivity).
  apply IH. intros x Hx. apply H. right. assumption.
Qed.

(** C3: the dispatcher returns what the decoder of the first matching entry,
    in table order, returns for the instruction and that entry's sub-type,
    without
    consulting any later entry; when no entry matches it returns the
    UNDEFINED outcome. *)
Theorem ARM_decoder_dispatch_first_match
  (tbl : list ARM_dec_tbl_entry_t) (instr : Z) (s : machine) :
  (forall pre e post,
      tbl = pre ++ e :: post ->
      (forall x, In x pre -> entry_matches instr x = false) ->
      entry_matches instr e = true ->
      ARM_decoder_dispatch tbl instr s = decoder e instr (extra e) s)
  /\ ((forall x, In x tbl -> entry_matches instr x = false) ->
      ARM_decoder_dispatch tbl instr s = (set_undef_addr, s)).
Proof.
  split.
  - intros pre e post -> Hpre He.
    rewrite ARM_decoder_dispatch_find.
    rewrite (find_first_match _ pre post e Hpre He). reflexivity.
  - intros Hnone.
    rewrite ARM_decoder_dispatch_find.
    rewrite (find_no_match _ tbl Hnone). reflexivity.
Qed.

Lemma ARM_decoder_dispatch_first_match_witness :
  ARM_decoder_dispatch sample_table 0xE1A0F00E sample_machine
  = arm_mux a32_util 0xE1A0F00E arm_mux_lsl_i_mov_pc sample_machine
  /\ ARM_decoder_dispatch sample_table 0xFFFFFFFF sample_machine
     = (set_undef_addr, sample_machine).
Proof.
  split.
  - apply (proj1 (ARM_decoder_dispatch_first_match
                    sample_table 0xE1A0F00E sample_machine)
             [mk_entry 0x012fff10 0x0ffffff0 arm_bra_bx_r
                (arm_branch a32_util)]
             (mk_entry 0x01a0f000 0x0fe0f070 arm_mux_lsl_i_mov_pc
                (arm_mux a32_util))
             [mk_entry 0x01a00000 0x0fe00070 arm_mux_lsl_i_mov
                (arm_mux a32_util);
              mk_entry 0x0a000000 0x0f000000 arm_bra_b_lbl
                (arm_branch a32_util)]).
    + reflexivity.
    + intros x [<-|[]]. reflexivity.
    + reflexivity.
  - apply (proj2 (ARM_decoder_dispatch_first_match
                    sample_table 0xFFFFFFFF sample_machine)).
    intros x [<-|[<-|[<-|[<-|[]]]]]; reflexivity.
Defined.

(** ** The multiplexer *)

Lemma flag_eqb_eq a b : flag_eqb a b = true <-> a = b.
Proof. destruct a, b; simpl; split; intro H; congruence. Qed.

(** The multiplexer is its switch followed by the central check, both run
    in the state of the call. *)
Lemma run_arm_mux U instr extra s :
  run (arm_mux U instr extra) s =
  let retval := run (arm_mux_switch instr extra) s in
  if flag_eqb (flag retval) INSTR_ADDR_ARM
  then if negb (will_branch_of U instr s) then set_addr_lin else retval
  else retval.
Proof.
  unfold arm_mux. rewrite run_bind by apply readonly_arm_mux_switch.
  cbv zeta.
  destruct (flag_eqb (flag (run (arm_mux_switch instr extra) s))
              INSTR_ADDR_ARM).
  - rewrite run_bind by apply readonly_will_branch.
    unfold will_branch. rewrite run_gets.
    destruct (will_branch_of U instr s); reflexivity.
  - reflexivity.
Qed.

Lemma arm_mux_switch_state instr extra s :
  mux_to_data_bit extra = false ->
  flag (run (arm_mux_switch instr extra) s) = INSTR_ADDR_ARM
  \/ flag (run (arm_mux_switch instr extra) s) = INSTR_ADDR_UNDEF.
Proof.
  intros H. unfold arm_mux_switch, arm_vfp_ldst_elem.
  destruct extra; try discriminate H; clear H; run_all; value_cases;
    cbn [flag set_addr_lin set_undef_addr set_unpred_addr assign_arm]; auto.
Qed.

(** C1 (amended): when the condition of the instruction does not hold, an
    outcome that the sub-case switch resolved in ARM state (a computed
    address or the linear sentinel, with or without the UNPREDICTABLE
    overlay) is replaced by the plain linear sentinel, and an outcome the
    switch resolved as UNDEFINED is returned as it is.  For every sub-type
    but the three forwarded to the shift handler these are all the cases:
    the multiplexer returns the linear sentinel or UNDEFINED. *)
Theorem arm_mux_condition_gate
  (U : instr_util) (instr : Z) (extra : ARM_decode_extra_t) (s : machine) :
  will_branch_of U instr s = false ->
  (flag (run (arm_mux_switch instr extra) s) = INSTR_ADDR_ARM ->
   run (arm_mux U instr extra) s = set_addr_lin)
  /\ (flag (run (arm_mux_switch instr extra) s) = INSTR_ADDR_UNDEF ->
      run (arm_mux U instr extra) s = run (arm_mux_switch instr extra) s)
  /\ (mux_to_data_bit extra = false ->
      run (arm_mux U instr extra) s = set_addr_lin
      \/ (flag (run (arm_mux_switch instr extra) s) = INSTR_ADDR_UNDEF
          /\ run (arm_mux U instr extra) s
             = run (arm_mux_switch instr extra) s)).
Proof.
  intros Hwb. rewrite run_arm_mux. cbv zeta. rewrite Hwb.
  split; [|split].
  - intros ->. reflexivity.
  - intros ->. reflexivity.
  - intros Hx.
    destruct (arm_mux_switch_state instr extra s Hx) as [Hf | Hf];
      rewrite Hf.
    + left. reflexivity.
    + right. split; reflexivity.
Qed.

Lemma arm_mux_condition_gate_witness :
  run (arm_mux_switch 0x110F0F00 arm_mux_mrs_r_pr) sample_machine
  = set_unpred_addr (set_arm_addr 0x40000013)
  /\ run (arm_mux a32_util 0x110F0F00 arm_mux_mrs_r_pr) sample_machine
     = set_addr_lin
  /\ run (arm_mux a32_util 0x1320F010 arm_mux_msr_i_pr_hints) sample_machine
     = run (arm_mux_switch 0x1320F010 arm_mux_msr_i_pr_hints) sample_machine
  /\ (run (arm_mux a32_util 0x1320F010 arm_mux_msr_i_pr_hints) sample_machine
      = set_addr_lin
      \/ (flag (run (arm_mux_switch 0x1320F010 arm_mux_msr_i_pr_hints)
                  sample_machine) = INSTR_ADDR_UNDEF
          /\ run (arm_mux a32_util 0x1320F010 arm_mux_msr_i_pr_hints)
                sample_machine
             = run (arm_mux_switch 0x1320F010 arm_mux_msr_i_pr_hints)
                 sample_machine)).
Proof.
  split; [reflexivity|]. split; [|split].
  - apply (proj1 (arm_mux_condition_gate a32_util 0x110F0F00
                    arm_mux_mrs_r_pr sample_machine eq_refl)).
    reflexivity.
  - apply (proj1 (proj2 (arm_mux_condition_gate a32_util 0x1320F010
                           arm_mux_msr_i_pr_hints sample_machine eq_refl))).
    reflexivity.
  - apply (proj2 (proj2 (arm_mux_condition_gate a32_util 0x1320F010
                           arm_mux_msr_i_pr_hints sample_machine eq_refl))).
    reflexivity.
Defined.

(** C1, as stated, fails: the reserved hint 0x10 under the condition NE,
    with the Z flag set, does not satisfy its condition, and the multiplexer
    returns UNDEFINED, not the linear sentinel. *)
Lemma arm_mux_condition_fail_undefined :
  will_branch_of a32_util 0x1320F010 sample_machine = false
  /\ run (arm_mux a32_util 0x1320F010 arm_mux_msr_i_pr_hints) sample_machine
     = set_undef_addr
  /\ set_undef_addr <> set_addr_lin.
Proof.
  split; [reflexivity|]. split; [reflexivity|]. discriminate.
Qed.

(** The check reads the state tag, so an outcome in THUMB state is not
    replaced: MOVSNE PC, LR with the Z flag set and the T bit set in the
    saved status word fails its condition and still returns the THUMB
    address in LR. *)
Lemma arm_mux_thumb_outcome_not_replaced :
  will_branch_of a32_util 0x11B0F00E thumb_return_machine = false
  /\ run (arm_mux a32_util 0x11B0F00E arm_mux_lsl_i_mov_pc)
         thumb_return_machine
     = set_thumb_addr 0x1001.
Proof. split; reflexivity. Qed.

(** C9: in the WFE/WFI encoding the switch resolves to linear exactly when
    bits 7-0 are 2 (WFE) and to UNDEFINED for every other value, WFI (3)
    included; the check after the switch leaves both outcomes as they
    are. *)
Theorem arm_mux_wfe_wfi_only_wfe
  (U : instr_util) (instr : Z) (s : machine) :
  run (arm_mux_switch instr arm_mux_wfe_wfi) s
  = (if bitrng instr 7 0 =? 2 then set_addr_lin else set_undef_addr)
  /\ run (arm_mux U instr arm_mux_wfe_wfi) s
     = (if bitrng instr 7 0 =? 2 then set_addr_lin else set_undef_addr)
  /\ run (arm_mux_switch 0xE320F003 arm_mux_wfe_wfi) s = set_undef_addr.
Proof.
  assert (Hsw : run (arm_mux_switch instr arm_mux_wfe_wfi) s
                = (if bitrng instr 7 0 =? 2
                   then set_addr_lin else set_undef_addr)).
  { unfold arm_mux_switch. cbv zeta.
    destruct (bitrng instr 7 0 =? 2); reflexivity. }
  split; [exact Hsw|]. split; [|reflexivity].
  rewrite run_arm_mux. cbv zeta. rewrite Hsw.
  destruct (bitrng instr 7 0 =? 2); simpl.
  - destruct (will_branch_of U instr s); reflexivity.
  - reflexivity.
Qed.

(** C5 (the code at the scenario's input): MOV PC, LR with the S bit clear
    and LR = 0x1001 reaches [arm_core_data_bit] with the sub-type
    [arm_cdata_mov_r], which the second switch sends to its default case:
    the outcome is the linear sentinel, not THUMB at 0x1000. *)
Lemma arm_mux_mov_pc_lr_linear :
  context_word sample_machine 14 = 0x1001
  /\ will_branch_of a32_util 0xE1A0F00E sample_machine = true
  /\ run (arm_mux a32_util 0xE1A0F00E arm_mux_lsl_i_mov_pc) sample_machine
     = set_addr_lin
  /\ run (arm_mux a32_util 0xE1A0F00E arm_mux_lsl_i_mov) sample_machine
     = set_addr_lin
  /\ set_addr_lin <> set_thumb_addr 0x1000.
Proof.
  repeat split; try reflexivity. discriminate.
Qed.

(** ** The branch handler *)

Lemma run_arm_branch_exchange U instr extra s :
  will_branch_of U instr s = true ->
  extra = arm_bra_bx_r \/ extra = arm_bra_blx_r \/ extra = arm_bra_bxj_r ->
  run (arm_branch U instr extra) s =
  let a := context_word s (bitrng instr 3 0) in
  let retval :=
    if truthy (bit a 0) then set_thumb_addr (Z.land a (mask_from 1))
    else if bit a 1 =? 0 then set_arm_addr (Z.land a (mask_from 2))
    else set_unpred_addr set_addr_lin in
  if bitrng instr 3 0 =? 15 then set_unpred_addr retval else retval.
Proof.
  intros Hwb Hextra. unfold arm_branch. cbv zeta.
  rewrite run_bind by apply readonly_will_branch.
  unfold will_branch at 1. rewrite run_gets, Hwb.
  destruct Hextra as [-> | [-> | ->]];
    (rewrite run_bind by apply readonly_rd_storage; reflexivity).
Qed.

(** C6: for BX, BLX and BXJ by register with the condition holding, the
    target is the value of the indexed register: with bit 0 set the state is
    THUMB and bit 0 is cleared; with bits 1:0 clear the state is ARM and
    bits 1:0 are cleared; the remaining pattern gives the linear sentinel in
    ARM state with the UNPREDICTABLE flag; and the flag is set whenever the
    index register is the program counter. *)
Theorem arm_branch_exchange_register
  (U : instr_util) (instr : Z) (extra : ARM_decode_extra_t) (s : machine) :
  will_branch_of U instr s = true ->
  extra = arm_bra_bx_r \/ extra = arm_bra_blx_r \/ extra = arm_bra_bxj_r ->
  let rm := bitrng instr 3 0 in
  let target := context_word s rm in
  let r := run (arm_branch U instr extra) s in
  (Z.testbit target 0 = true ->
   flag r = INSTR_ADDR_THUMB /\ address r = Z.land target 0xfffffffe
   /\ unpred r = (rm =? 15))
  /\ (Z.testbit target 0 = false -> Z.testbit target 1 = false ->
      flag r = INSTR_ADDR_ARM /\ address r = Z.land target 0xfffffffc
      /\ unpred r = (rm =? 15))
  /\ (Z.testbit target 0 = false -> Z.testbit target 1 = true ->
      flag r = INSTR_ADDR_ARM /\ address r = 0xffffffff /\ unpred r = true)
  /\ (rm = 15 -> unpred r = true).
Proof.
  intros Hwb Hextra rm target r.
  subst r. rewrite (run_arm_branch_exchange U instr extra s Hwb Hextra).
  fold rm. fold target. cbv zeta.
  rewrite truthy_bit, bit_eqb_0 by lia.
  change (mask_from 1) with 0xfffffffe.
  change (mask_from 2) with 0xfffffffc.
  split; [|split; [|split]].
  - intros ->. destruct (rm =? 15); repeat split; reflexivity.
  - intros -> ->. destruct (rm =? 15); repeat split; reflexivity.
  - intros -> ->. destruct (rm =? 15); repeat split; reflexivity.
  - intros ->. simpl. reflexivity.
Qed.

Lemma arm_branch_exchange_register_witness :
  let r := run (arm_branch a32_util 0xE12FFF1E arm_bra_bx_r) sample_machine in
  flag r = INSTR_ADDR_THUMB /\ address r = 0x1000 /\ unpred r = false.
Proof.
  apply (proj1 (arm_branch_exchange_register a32_util 0xE12FFF1E
                  arm_bra_bx_r sample_machine eq_refl
                  (or_introl eq_refl))).
  reflexivity.
Defined.

(** ** The gate on the destination register *)

Lemma linear_lin : linear set_addr_lin.
Proof. split; reflexivity. Qed.

Lemma linear_unpred r : linear r -> linear (set_unpred_addr r).
Proof. intros [Hf Ha]. split; assumption. Qed.

Lemma arm_core_data_div_gate instr extra s :
  bitrng instr 19 16 <> 15 ->
  linear (run (arm_core_data_div instr extra) s).
Proof.
  intros H. apply Z.eqb_neq in H.
  unfold arm_core_data_div. cbv zeta. rewrite H. rewrite run_ret.
  destruct ((bitrng instr 11 8 =? 15) || (bitrng instr 3 0 =? 15)).
  - apply linear_unpred, linear_lin.
  - apply linear_lin.
Qed.

Lemma arm_core_data_mac_gate instr extra s :
  bitrng instr 19 16 <> 15 ->
  run (arm_core_data_mac instr extra) s = set_addr_lin.
Proof.
  intros H. apply Z.eqb_neq in H.
  unfold arm_core_data_mac. cbv zeta. rewrite H. reflexivity.
Qed.

Lemma arm_core_data_std_r_gate instr extra s :
  bitrng instr 15 12 <> 15 ->
  run (arm_core_data_std_r instr extra) s = set_addr_lin.
Proof.
  intros H. apply Z.eqb_neq in H.
  unfold arm_core_data_std_r. cbv zeta. rewrite H.
  match goal with |- run (if ?b then _ else _) _ = _ => destruct b end;
    reflexivity.
Qed.

Lemma arm_core_data_std_sh_gate instr extra s :
  bitrng instr 15 12 <> 15 ->
  run (arm_core_data_std_sh instr extra) s = set_addr_lin.
Proof.
  intros H. apply Z.eqb_neq in H.
  unfold arm_core_data_std_sh. cbv zeta. rewrite H.
  match goal with |- run (if ?b then _ else _) _ = _ => destruct b end;
    reflexivity.
Qed.

Lemma arm_core_data_std_i_gate instr extra s :
  bitrng instr 15 12 <> 15 ->
  run (arm_core_data_std_i instr extra) s = set_addr_lin.
Proof.
  intros H. apply Z.eqb_neq in H.
  unfold arm_core_data_std_i. cbv zeta. rewrite H.
  match goal with |- run (if ?b then _ else _) _ = _ => destruct b end;
    reflexivity.
Qed.

Lemma arm_core_data_bit_gate instr extra s :
  bitrng instr 15 12 <> 15 -> data_bit_is_ret extra = false ->
  run (arm_core_data_bit instr extra) s = set_addr_lin.
Proof.
  intros H Hret. apply Z.eqb_neq in H.
  unfold arm_core_data_bit, data_bit_tmp3. cbv zeta. rewrite H.
  rewrite run_bind by apply readonly_unassigned.
  destruct extra; try discriminate Hret; cbv beta iota;
    rewrite ?H; reflexivity.
Qed.

Lemma arm_core_data_macd_gate instr extra s :
  bitrng instr 19 16 <> 15 -> bitrng instr 15 12 <> 15 ->
  run (arm_core_data_macd instr extra) s = set_addr_lin.
Proof.
  intros Hh Hl. apply Z.eqb_neq in Hh. apply Z.eqb_neq in Hl.
  unfold arm_core_data_macd. cbv zeta. rewrite Hh, Hl. reflexivity.
Qed.

Lemma arm_core_data_misc_gate instr extra s :
  bitrng instr 15 12 <> 15 -> misc_handles extra = true ->
  run (arm_core_data_misc instr extra) s = set_addr_lin.
Proof.
  intros H Hx. apply Z.eqb_neq in H.
  unfold arm_core_data_misc. cbv zeta.
  destruct extra; try discriminate Hx; rewrite H; reflexivity.
Qed.

Lemma arm_core_data_pack_gate U instr extra s :
  bitrng instr 15 12 <> 15 -> pack_handles extra = true ->
  run (arm_core_data_pack U instr extra) s = set_addr_lin.
Proof.
  intros H Hx. apply Z.eqb_neq in H.
  unfold arm_core_data_pack. cbv zeta.
  destruct extra; try discriminate Hx; rewrite H; reflexivity.
Qed.

Lemma arm_core_data_par_gate U instr extra s :
  bitrng instr 15 12 <> 15 ->
  run (arm_core_data_par U instr extra) s = set_addr_lin.
Proof.
  intros H. apply Z.eqb_neq in H.
  unfold arm_core_data_par. cbv zeta. rewrite H. reflexivity.
Qed.

Lemma arm_core_data_sat_gate U instr extra s :
  bitrng instr 15 12 <> 15 ->
  run (arm_core_data_sat U instr extra) s = set_addr_lin.
Proof.
  intros H. apply Z.eqb_neq in H.
  unfold arm_core_data_sat. cbv zeta. rewrite H. reflexivity.
Qed.

Lemma arm_core_ldst_gate instr extra s :
  bitrng instr 15 12 <> 15 -> bitrng instr 19 16 <> 15 ->
  linear (run (arm_core_ldst instr extra) s).
Proof.
  intros Ht Hn. apply Z.eqb_neq in Ht. apply Z.eqb_neq in Hn.
  unfold arm_core_ldst. cbv zeta. rewrite Ht, Hn.
  cbv [orb]. rewrite run_bind by apply readonly_ret.
  rewrite !run_ret. cbv [fst snd set_addr_lin address].
  change (negb (0xffffffff =? 0xffffffff)) with false. cbv iota.
  cbv [fst snd].
  match goal with |- linear (if ?b then _ else _) => destruct b end.
  - apply linear_unpred. split; reflexivity.
  - split; reflexivity.
Qed.

Lemma linear_finish_unp r unp : linear r -> linear (finish_unp r unp).
Proof.
  intros H. unfold finish_unp.
  destruct (negb (flag_is_undef r)); [destruct (truthy unp)|];
    auto using linear_unpred.
Qed.

Lemma arm_core_ldstrd_gate instr extra s :
  bitrng instr 15 12 <> 15 ->
  bitrng instr 19 16 <> 15 -> bitrng instr 19 16 <> 14 ->
  linear (run (arm_core_ldstrd instr extra) s).
Proof.
  intros Ht Hn Hn2.
  apply Z.eqb_neq in Ht. apply Z.eqb_neq in Hn. apply Z.eqb_neq in Hn2.
  unfold arm_core_ldstrd. cbv zeta. rewrite Ht, Hn, Hn2.
  cbv [orb]. rewrite run_bind by apply readonly_ret.
  rewrite !run_ret. cbv [fst snd].
  apply linear_finish_unp, linear_lin.
Qed.

Lemma run_ldsth_offset_no_pc instr s :
  bitrng instr 15 12 <> 15 -> bitrng instr 19 16 <> 15 ->
  run (ldsth_offset instr) s =
  (indeterminate s,
   if truthy (bit instr 21) && (bitrng instr 15 12 =? bitrng instr 19 16)
   then 1 else 0).
Proof.
  intros Ht Hn. apply Z.eqb_neq in Ht. apply Z.eqb_neq in Hn.
  unfold ldsth_offset. cbv zeta. rewrite Ht, Hn. reflexivity.
Qed.

Lemma arm_core_ldstrh_gate U instr extra s :
  bitrng instr 15 12 <> 15 -> bitrng instr 19 16 <> 15 ->
  linear (run (arm_core_ldstrh U instr extra) s).
Proof.
  intros Ht Hn. unfold arm_core_ldstrh.
  rewrite run_bind by apply readonly_ldsth_offset.
  rewrite run_ldsth_offset_no_pc by assumption.
  apply Z.eqb_neq in Ht. apply Z.eqb_neq in Hn.
  cbv zeta. rewrite Ht, Hn.
  destruct (truthy (bit instr 20)); rewrite run_ret;
    apply linear_finish_unp, linear_lin.
Qed.

Lemma arm_core_ldstrsb_gate U instr extra s :
  bitrng instr 15 12 <> 15 -> bitrng instr 19 16 <> 15 ->
  linear (run (arm_core_ldstrsb U instr extra) s).
Proof.
  intros Ht Hn. unfold arm_core_ldstrsb.
  rewrite run_bind by apply readonly_ldsth_offset.
  rewrite run_ldsth_offset_no_pc by assumption.
  apply Z.eqb_neq in Ht. apply Z.eqb_neq in Hn.
  cbv zeta. rewrite Ht, Hn. rewrite run_ret.
  apply linear_finish_unp, linear_lin.
Qed.

Lemma arm_core_ldstsh_gate U instr extra s :
  bitrng instr 15 12 <> 15 -> bitrng instr 19 16 <> 15 ->
  linear (run (arm_core_ldstsh U instr extra) s).
Proof.
  intros Ht Hn. unfold arm_core_ldstsh.
  rewrite run_bind by apply readonly_ldsth_offset.
  rewrite run_ldsth_offset_no_pc by assumption.
  apply Z.eqb_neq in Ht. apply Z.eqb_neq in Hn.
  cbv zeta. rewrite Ht, Hn. rewrite run_ret.
  apply linear_finish_unp, linear_lin.
Qed.

Lemma bits_from_clear n i v m :
  Z.testbit m i = false ->
  bits_from (S n) i v m = bits_from n (i + 1) v m.
Proof. intros H. cbn [bits_from]. rewrite H. reflexivity. Qed.

Lemma bits_from_set n i v m :
  Z.testbit m i = true ->
  bits_from (S n) i v m
  = Z.b2z (Z.testbit v i) + 2 * bits_from n (i + 1) v m.
Proof. intros H. cbn [bits_from]. rewrite H. reflexivity. Qed.

(** The P and W bits gathered by [bits(instr, 0x01200000)]: W is bit 0 of
    the result and P bit 1. *)
Lemma bits_p_w instr : bits instr 0x01200000 = bit instr 21 + 2 * bit instr 24.
Proof.
  rewrite !bit_b2z by discriminate.
  unfold bits.
  do 21 (rewrite bits_from_clear by reflexivity).
  rewrite bits_from_set by reflexivity.
  do 2 (rewrite bits_from_clear by reflexivity).
  rewrite bits_from_set by reflexivity.
  do 7 (rewrite bits_from_clear by reflexivity).
  change (bits_from 0 _ _ _) with 0.
  change (0 + 1 + 1 + 1 + 1 + 1 + 1 + 1 + 1 + 1 + 1 + 1 + 1 + 1 + 1 + 1 + 1
          + 1 + 1 + 1 + 1 + 1) with 21.
  change (21 + 1 + 1 + 1) with 24.
  ring.
Qed.

Lemma misc_rd_15_12_handles extra :
  misc_rd_15_12 extra = true -> misc_handles extra = true.
Proof. destruct extra; intros H; try discriminate H; reflexivity. Qed.

(** The offset form (P = 1, W = 0) writes nothing back: with a transfer
    register other than PC the handler has no address to give, whatever the
    base register. *)
Lemma arm_core_ldst_offset_gate instr extra s :
  bitrng instr 15 12 <> 15 -> bit instr 24 = 1 -> bit instr 21 = 0 ->
  linear (run (arm_core_ldst instr extra) s).
Proof.
  intros Ht Hp Hw.
  destruct (Z.eq_dec (bitrng instr 19 16) 15) as [Hn | Hn];
    [|apply arm_core_ldst_gate; assumption].
  assert (Hm : bits instr 0x01200000 = 2)
    by (rewrite bits_p_w, Hp, Hw; reflexivity).
  apply Z.eqb_neq in Ht.
  unfold arm_core_ldst. cbv zeta. rewrite Hn, Ht, Hm, Hw.
  cbn [Z.eqb Pos.eqb orb andb truthy negb].
  rewrite run_bind by readonly_tac.
  rewrite (run_bind (ldst_offset instr)) by apply readonly_ldst_offset.
  rewrite !run_ret. cbv [fst snd set_addr_lin address].
  change (negb (0xffffffff =? 0xffffffff)) with false. cbv iota.
  cbv [fst snd].
  match goal with |- linear (if ?b then _ else _) => destruct b end.
  - apply linear_unpred. split; reflexivity.
  - split; reflexivity.
Qed.

(** The doubleword handler when none of Rt, Rt2 and Rn is PC: the sentinel,
    or UNDEFINED in the P = 0, W = 1 form. *)
Lemma arm_core_ldstrd_no_pc instr extra s :
  bitrng instr 15 12 <> 15 -> bitrng instr 15 12 <> 14 ->
  bitrng instr 19 16 <> 15 ->
  linear (run (arm_core_ldstrd instr extra) s)
  \/ (bits instr 0x01200000 = 1
      /\ flag (run (arm_core_ldstrd instr extra) s) = INSTR_ADDR_UNDEF).
Proof.
  intros Ht Ht2 Hn.
  destruct (Z.eq_dec (bitrng instr 19 16) 14) as [Hn2 | Hn2];
    [|left; apply arm_core_ldstrd_gate; assumption].
  apply Z.eqb_neq in Ht. apply Z.eqb_neq in Ht2.
  unfold arm_core_ldstrd, ldstrd_fetch. cbv zeta. rewrite Hn2, Ht, Ht2.
  change (14 =? 14) with true. change (14 =? 15) with false.
  cbn [orb].
  assert (Hm : bits instr 0x01200000 = 0 \/ bits instr 0x01200000 = 1
               \/ bits instr 0x01200000 = 2 \/ bits instr 0x01200000 = 3).
  { rewrite bits_p_w, !bit_b2z by discriminate.
    destruct (Z.testbit instr 21), (Z.testbit instr 24); cbn; auto. }
  destruct Hm as [Hm | [Hm | [Hm | Hm]]]; rewrite Hm;
    cbn [Z.eqb Pos.eqb orb];
    [left | right; split; [reflexivity|] | left | left];
    run_all; try reflexivity;
    apply linear_finish_unp, linear_lin.
Qed.

(** An exclusive load whose transfer registers do not include PC; LDREXD
    loads Rt2 = Rt + 1 as well. *)
Lemma arm_core_ldstrex_load_gate instr extra s :
  bit instr 20 = 1 ->
  bitrng instr 15 12 <> 15 ->
  (extra_eqb extra arm_sync_ldrexd = true -> bitrng instr 15 12 <> 14) ->
  linear (run (arm_core_ldstrex instr extra) s).
Proof.
  intros Hl Ht Hd. apply Z.eqb_neq in Ht.
  unfold arm_core_ldstrex. cbv zeta. rewrite Hl, Ht.
  assert (Hx : (bitrng instr 15 12 =? 14) && extra_eqb extra arm_sync_ldrexd
               = false).
  { destruct (extra_eqb extra arm_sync_ldrexd).
    - rewrite Bool.andb_true_r. apply Z.eqb_neq. apply Hd. reflexivity.
    - apply Bool.andb_false_r. }
  rewrite Hx.
  cbv [truthy Z.eqb negb orb]. rewrite run_ret.
  apply linear_finish_unp, linear_lin.
Qed.




(** The miscellaneous handler tests bits 15-12 for USAD8 and USADA8, whose
    destination is bits 19-16: USAD8 R0, R1, R2 has the destination R0 and
    gets a computed address. *)
Lemma arm_core_data_misc_usad8_tests_ra :
  bitrng 0xE780F211 19 16 = 0
  /\ run (arm_core_data_misc 0xE780F211 arm_cmisc_usad8) sample_machine
     = set_unpred_addr (set_arm_addr 1).
Proof. split; reflexivity. Qed.

(** ** The defects met at the scenarios of the spec *)

(** C4 (the code at an ORR): the ORR case of the register handler calls
    [set_arm_addr] with the AND of its operands; ORR PC, R1, R2 with
    R1 = 0x100 and R2 = 0x200 yields address 0, where the inclusive OR is
    0x300. *)
Lemma arm_core_data_std_r_orr_is_and :
  (forall tmp1 tmp2 retval s,
      run (std_r_alu arm_cdata_orr_r tmp1 tmp2 retval) s
      = set_arm_addr (Z.land tmp1 tmp2))
  /\ run (std_r_operands 0xE181F002) sample_machine = (0x100, 0x200)
  /\ run (arm_core_data_std_r 0xE181F002 arm_cdata_orr_r) sample_machine
     = set_arm_addr 0
  /\ Z.lor 0x100 0x200 = 0x300.
Proof.
  split; [intros; reflexivity|]. repeat split; reflexivity.
Qed.

(** C7 (the code at the scenario's input): SDIV PC, R1, R0 with R0 = 0
    returns address 0 in ARM state, and the UNPREDICTABLE flag is not
    set. *)
Lemma arm_core_data_div_by_zero_not_flagged :
  bitrng 0xE71FF011 19 16 = 15
  /\ context_word sample_machine (bitrng 0xE71FF011 11 8) = 0
  /\ run (arm_core_data_div 0xE71FF011 arm_div_sdiv) sample_machine
     = set_arm_addr 0
  /\ unpred (run (arm_core_data_div 0xE71FF011 arm_div_sdiv) sample_machine)
     = false.
Proof. repeat split; reflexivity. Qed.

(** ** Exceptions *)

(** C10: BKPT gets the linear sentinel without the UNPREDICTABLE flag in
    every processor mode and security state; the prefetch-abort vector is
    never returned. *)
Theorem arm_core_exc_bkpt_linear
  (U : instr_util) (instr : Z) (s : machine) :
  run (arm_core_exc U instr arm_exc_bkpt) s = set_addr_lin
  /\ unpred (run (arm_core_exc U instr arm_exc_bkpt) s) = false
  /\ address (run (arm_core_exc U instr arm_exc_bkpt) s) <> 0x0c.
Proof. repeat split. discriminate. Qed.

(** ** The outcome as a function of what is read

    Two targets that agree on the register snapshot, on the memory read and
    on the system state give every decoding function the same values to
    read, so they give the same outcome. *)

Create HintDb agree.

Section Agreement.

Variable U : instr_util.
Variables s1 s2 : machine.
Hypothesis Hsnap : same_snapshot s1 s2.
Hypothesis Hmem : same_memory s1 s2.
Hypothesis Hsys : same_system U s1 s2.

Lemma agree_ret {A : Type} (a : A) : agree s1 s2 (ret a).
Proof. reflexivity. Qed.

Lemma agree_bind {A B : Type} (m : M A) (k : A -> M B) :
  readonly m -> agree s1 s2 m -> (forall a, agree s1 s2 (k a)) ->
  agree s1 s2 (bind m k).
Proof.
  intros Hr Hm Hk. unfold agree in *.
  rewrite !run_bind by assumption. rewrite Hm. apply Hk.
Qed.

Lemma context_word_agree n : context_word s1 n = context_word s2 n.
Proof.
  unfold context_word.
  rewrite (snap_context _ _ Hsnap), (mem_beyond _ _ Hmem). reflexivity.
Qed.

Lemma byte_at_agree a : byte_at s1 a = byte_at s2 a.
Proof. unfold byte_at. rewrite (mem_target _ _ Hmem). reflexivity. Qed.

Lemma agree_rd_storage n : agree s1 s2 (rd_storage n).
Proof. apply context_word_agree. Qed.

Lemma agree_rd_r13 : agree s1 s2 rd_r13.
Proof. apply context_word_agree. Qed.

Lemma agree_rd_r14 : agree s1 s2 rd_r14.
Proof. apply context_word_agree. Qed.

Lemma agree_rd_r15 : agree s1 s2 rd_r15.
Proof. apply context_word_agree. Qed.

Lemma agree_rd_cpsr : agree s1 s2 rd_cpsr.
Proof.
  unfold agree, rd_cpsr. rewrite !run_gets.
  rewrite (snap_context _ _ Hsnap). reflexivity.
Qed.

Lemma agree_rd_spsr : agree s1 s2 rd_spsr.
Proof.
  unfold agree, rd_spsr. rewrite !run_gets.
  rewrite (snap_context _ _ Hsnap). reflexivity.
Qed.

Lemma agree_load8 a : agree s1 s2 (load8 a).
Proof. apply byte_at_agree. Qed.

Lemma agree_load16 a : agree s1 s2 (load16 a).
Proof.
  unfold agree, load16, half_at. rewrite !run_gets.
  rewrite !byte_at_agree. reflexivity.
Qed.

Lemma agree_load32 a : agree s1 s2 (load32 a).
Proof.
  unfold agree, load32, word_at. rewrite !run_gets.
  rewrite !byte_at_agree. reflexivity.
Qed.

Lemma agree_rd_neon n : agree s1 s2 (rd_neon n).
Proof. apply (snap_neon _ _ Hsnap). Qed.

Lemma agree_rd_neon_byte n k : agree s1 s2 (rd_neon_byte n k).
Proof.
  unfold agree, rd_neon_byte. rewrite !run_gets.
  rewrite (snap_neon _ _ Hsnap). reflexivity.
Qed.

Lemma agree_unassigned : agree s1 s2 unassigned.
Proof. apply (mem_local _ _ Hmem). Qed.

Lemma agree_vmrs reg : agree s1 s2 (vmrs reg).
Proof. apply (sys_vfp _ _ _ Hsys). Qed.

Lemma agree_get_security_state : agree s1 s2 get_security_state.
Proof. apply (sys_secure _ _ _ Hsys). Qed.

Lemma agree_get_SCR : agree s1 s2 get_SCR.
Proof. apply (sys_scr _ _ _ Hsys). Qed.

Lemma agree_get_HCR : agree s1 s2 get_HCR.
Proof. apply (sys_hcr _ _ _ Hsys). Qed.

Lemma agree_get_NSACR : agree s1 s2 get_NSACR.
Proof. apply (sys_nsacr _ _ _ Hsys). Qed.

Lemma agree_get_elr_hyp : agree s1 s2 get_elr_hyp.
Proof. apply (sys_elr_hyp _ _ _ Hsys). Qed.

Lemma agree_will_branch instr : agree s1 s2 (will_branch U instr).
Proof. apply (sys_will_branch _ _ _ Hsys). Qed.

Lemma agree_check_proc_mode m1 m2 m3 m4 :
  agree s1 s2 (check_proc_mode U m1 m2 m3 m4).
Proof. apply (sys_check_proc_mode _ _ _ Hsys). Qed.

Lemma agree_check_coproc_access n :
  agree s1 s2 (check_coproc_access U n).
Proof. apply (sys_check_coproc_access _ _ _ Hsys). Qed.

Lemma agree_get_proc_mode : agree s1 s2 (get_proc_mode U).
Proof. apply (sys_get_proc_mode _ _ _ Hsys). Qed.

Lemma agree_get_mode_reg mode reg : agree s1 s2 (get_mode_reg U mode reg).
Proof. apply (sys_get_mode_reg _ _ _ Hsys). Qed.

#[local] Hint Resolve agree_rd_storage agree_rd_r13 agree_rd_r14
  agree_rd_r15 agree_rd_cpsr agree_rd_spsr agree_load8 agree_load16
  agree_load32 agree_rd_neon agree_rd_neon_byte agree_unassigned agree_vmrs
  agree_get_security_state agree_get_SCR agree_get_HCR agree_get_NSACR
  agree_get_elr_hyp agree_will_branch agree_check_proc_mode
  agree_check_coproc_access agree_get_proc_mode agree_get_mode_reg : agree.

(** One step through a computation, as for the frame lemmas: the first part
    of a bind is read-only and agrees, so the rest is compared with the same
    value bound. *)
Ltac agree_step :=
  lazymatch goal with
  | |- agree _ _ (bind _ _) =>
      apply agree_bind; [ solve [ readonly_tac ] | | intro ]
  | |- agree _ _ (if ?b then _ else _) => destruct b
  | |- agree _ _ (match ?x with _ => _ end) => destruct x
  | |- agree _ _ (ret _) => apply agree_ret
  | |- agree _ _ _ => solve [ auto with agree nocore ]
  end.

Ltac agree_tac := cbv beta iota zeta; repeat (agree_step; cbv beta iota zeta).

Lemma agree_arm_vfp_ldst_elem instr extra :
  agree s1 s2 (arm_vfp_ldst_elem instr extra).
Proof. unfold arm_vfp_ldst_elem. agree_tac. Qed.

#[local] Hint Resolve agree_arm_vfp_ldst_elem : agree.

Lemma agree_data_bit_tmp3 instr extra :
  agree s1 s2 (data_bit_tmp3 instr extra).
Proof. unfold data_bit_tmp3. destruct extra; agree_tac. Qed.

#[local] Hint Resolve agree_data_bit_tmp3 : agree.

Lemma agree_arm_core_data_bit instr extra :
  agree s1 s2 (arm_core_data_bit instr extra).
Proof. unfold arm_core_data_bit. destruct extra; agree_tac. Qed.

#[local] Hint Resolve agree_arm_core_data_bit : agree.

Lemma agree_arm_mux_switch instr extra :
  agree s1 s2 (arm_mux_switch instr extra).
Proof. unfold arm_mux_switch. destruct extra; agree_tac. Qed.

#[local] Hint Resolve agree_arm_mux_switch : agree.

Lemma agree_arm_mux instr extra :
  agree s1 s2 (arm_mux U instr extra).
Proof. unfold arm_mux. agree_tac. Qed.

#[local] Hint Resolve agree_arm_mux : agree.

Lemma agree_arm_branch instr extra :
  agree s1 s2 (arm_branch U instr extra).
Proof. unfold arm_branch. destruct extra; agree_tac. Qed.

#[local] Hint Resolve agree_arm_branch : agree.

Lemma agree_arm_core_data_div instr extra :
  agree s1 s2 (arm_core_data_div instr extra).
Proof. unfold arm_core_data_div. agree_tac. Qed.

#[local] Hint Resolve agree_arm_core_data_div : agree.

Lemma agree_arm_core_data_mac instr extra :
  agree s1 s2 (arm_core_data_mac instr extra).
Proof. unfold arm_core_data_mac. destruct extra; agree_tac. Qed.

#[local] Hint Resolve agree_arm_core_data_mac : agree.

Lemma agree_std_ret_check instr retval :
  agree s1 s2 (std_ret_check instr retval).
Proof. unfold std_ret_check. agree_tac. Qed.

#[local] Hint Resolve agree_std_ret_check : agree.

Lemma agree_std_r_operands instr :
  agree s1 s2 (std_r_operands instr).
Proof. unfold std_r_operands. agree_tac. Qed.

#[local] Hint Resolve agree_std_r_operands : agree.

Lemma agree_std_sh_operands instr :
  agree s1 s2 (std_sh_operands instr).
Proof. unfold std_sh_operands. agree_tac. Qed.

#[local] Hint Resolve agree_std_sh_operands : agree.

Lemma agree_std_i_operands instr :
  agree s1 s2 (std_i_operands instr).
Proof. unfold std_i_operands. agree_tac. Qed.

#[local] Hint Resolve agree_std_i_operands : agree.

Lemma agree_std_r_alu extra tmp1 tmp2 retval :
  agree s1 s2 (std_r_alu extra tmp1 tmp2 retval).
Proof. unfold std_r_alu. destruct extra; agree_tac. Qed.

#[local] Hint Resolve agree_std_r_alu : agree.

Lemma agree_std_sh_alu extra tmp1 tmp2 retval :
  agree s1 s2 (std_sh_alu extra tmp1 tmp2 retval).
Proof. unfold std_sh_alu. destruct extra; agree_tac. Qed.

#[local] Hint Resolve agree_std_sh_alu : agree.

Lemma agree_std_i_alu extra tmp1 tmp2 retval :
  agree s1 s2 (std_i_alu extra tmp1 tmp2 retval).
Proof. unfold std_i_alu. destruct extra; agree_tac. Qed.

#[local] Hint Resolve agree_std_i_alu : agree.

Lemma agree_arm_core_data_std_r instr extra :
  agree s1 s2 (arm_core_data_std_r instr extra).
Proof. unfold arm_core_data_std_r. agree_tac. Qed.

#[local] Hint Resolve agree_arm_core_data_std_r : agree.

Lemma agree_arm_core_data_std_sh instr extra :
  agree s1 s2 (arm_core_data_std_sh instr extra).
Proof. unfold arm_core_data_std_sh. agree_tac. Qed.

#[local] Hint Resolve agree_arm_core_data_std_sh : agree.

Lemma agree_arm_core_data_std_i instr extra :
  agree s1 s2 (arm_core_data_std_i instr extra).
Proof. unfold arm_core_data_std_i. agree_tac. Qed.

#[local] Hint Resolve agree_arm_core_data_std_i : agree.

Lemma agree_arm_core_exc instr extra :
  agree s1 s2 (arm_core_exc U instr extra).
Proof. unfold arm_core_exc. destruct extra; agree_tac. Qed.

#[local] Hint Resolve agree_arm_core_exc : agree.

Lemma agree_ldst_offset instr :
  agree s1 s2 (ldst_offset instr).
Proof. unfold ldst_offset. agree_tac. Qed.

#[local] Hint Resolve agree_ldst_offset : agree.

Lemma agree_ldst_fetch instr a :
  agree s1 s2 (ldst_fetch instr a).
Proof. unfold ldst_fetch. agree_tac. Qed.

#[local] Hint Resolve agree_ldst_fetch : agree.

Lemma agree_arm_core_ldst instr extra :
  agree s1 s2 (arm_core_ldst instr extra).
Proof. unfold arm_core_ldst. agree_tac. Qed.

#[local] Hint Resolve agree_arm_core_ldst : agree.

Lemma agree_rd_operand r :
  agree s1 s2 (rd_operand r).
Proof. unfold rd_operand. agree_tac. Qed.

#[local] Hint Resolve agree_rd_operand : agree.

Lemma agree_arm_core_data_macd instr extra :
  agree s1 s2 (arm_core_data_macd instr extra).
Proof. unfold arm_core_data_macd. destruct extra; agree_tac. Qed.

#[local] Hint Resolve agree_arm_core_data_macd : agree.

Lemma agree_arm_core_data_misc instr extra :
  agree s1 s2 (arm_core_data_misc instr extra).
Proof. unfold arm_core_data_misc. destruct extra; agree_tac. Qed.

#[local] Hint Resolve agree_arm_core_data_misc : agree.

Lemma agree_arm_core_data_pack instr extra :
  agree s1 s2 (arm_core_data_pack U instr extra).
Proof. unfold arm_core_data_pack. destruct extra; agree_tac. Qed.

#[local] Hint Resolve agree_arm_core_data_pack : agree.

Lemma agree_arm_core_data_par instr extra :
  agree s1 s2 (arm_core_data_par U instr extra).
Proof. unfold arm_core_data_par. agree_tac. Qed.

#[local] Hint Resolve agree_arm_core_data_par : agree.

Lemma agree_arm_core_data_sat instr extra :
  agree s1 s2 (arm_core_data_sat U instr extra).
Proof. unfold arm_core_data_sat. agree_tac. Qed.

#[local] Hint Resolve agree_arm_core_data_sat : agree.

Lemma agree_arm_coproc instr extra :
  agree s1 s2 (arm_coproc instr extra).
Proof. unfold arm_coproc. destruct extra; agree_tac. Qed.

#[local] Hint Resolve agree_arm_coproc : agree.

Lemma agree_ldstm_new_base instr tmp4 :
  agree s1 s2 (ldstm_new_base instr tmp4).
Proof. unfold ldstm_new_base. agree_tac. Qed.

#[local] Hint Resolve agree_ldstm_new_base : agree.

Lemma agree_ldstm_mode_check retval :
  agree s1 s2 (ldstm_mode_check U retval).
Proof. unfold ldstm_mode_check. agree_tac. Qed.

#[local] Hint Resolve agree_ldstm_mode_check : agree.

Lemma agree_arm_core_ldstm instr extra :
  agree s1 s2 (arm_core_ldstm U instr extra).
Proof. unfold arm_core_ldstm. agree_tac. Qed.

#[local] Hint Resolve agree_arm_core_ldstm : agree.

Lemma agree_arm_core_misc instr extra :
  agree s1 s2 (arm_core_misc instr extra).
Proof. unfold arm_core_misc. destruct extra; agree_tac. Qed.

#[local] Hint Resolve agree_arm_core_misc : agree.

Lemma agree_ldstrd_fetch tmp4 tmp3 :
  agree s1 s2 (ldstrd_fetch tmp4 tmp3).
Proof. unfold ldstrd_fetch. agree_tac. Qed.

#[local] Hint Resolve agree_ldstrd_fetch : agree.

Lemma agree_arm_core_ldstrd instr extra :
  agree s1 s2 (arm_core_ldstrd instr extra).
Proof. unfold arm_core_ldstrd. agree_tac. Qed.

#[local] Hint Resolve agree_arm_core_ldstrd : agree.

Lemma agree_arm_core_ldstrex instr extra :
  agree s1 s2 (arm_core_ldstrex instr extra).
Proof. unfold arm_core_ldstrex. agree_tac. Qed.

#[local] Hint Resolve agree_arm_core_ldstrex : agree.

Lemma agree_ldsth_offset instr :
  agree s1 s2 (ldsth_offset instr).
Proof. unfold ldsth_offset. agree_tac. Qed.

#[local] Hint Resolve agree_ldsth_offset : agree.

Lemma agree_ldsth_writeback instr tmp3 :
  agree s1 s2 (ldsth_writeback instr tmp3).
Proof. unfold ldsth_writeback. agree_tac. Qed.

#[local] Hint Resolve agree_ldsth_writeback : agree.

Lemma agree_ldsth_rt_pc instr tmp2 tmp3 hyp_unp :
  agree s1 s2 (ldsth_rt_pc U instr tmp2 tmp3 hyp_unp).
Proof. unfold ldsth_rt_pc. agree_tac. Qed.

#[local] Hint Resolve agree_ldsth_rt_pc : agree.

Lemma agree_ldsth_rn_pc instr tmp3 hyp_unp :
  agree s1 s2 (ldsth_rn_pc U instr tmp3 hyp_unp).
Proof. unfold ldsth_rn_pc. agree_tac. Qed.

#[local] Hint Resolve agree_ldsth_rn_pc : agree.

Lemma agree_arm_core_ldstrh instr extra :
  agree s1 s2 (arm_core_ldstrh U instr extra).
Proof. unfold arm_core_ldstrh. agree_tac. Qed.

#[local] Hint Resolve agree_arm_core_ldstrh : agree.

Lemma agree_arm_core_ldstrsb instr extra :
  agree s1 s2 (arm_core_ldstrsb U instr extra).
Proof. unfold arm_core_ldstrsb. agree_tac. Qed.

#[local] Hint Resolve agree_arm_core_ldstrsb : agree.

Lemma agree_arm_core_ldstsh instr extra :
  agree s1 s2 (arm_core_ldstsh U instr extra).
Proof. unfold arm_core_ldstsh. agree_tac. Qed.

#[local] Hint Resolve agree_arm_core_ldstsh : agree.

Lemma agree_status_cps_mode tmp1 :
  agree s1 s2 (status_cps_mode U tmp1).
Proof. unfold status_cps_mode. agree_tac. Qed.

#[local] Hint Resolve agree_status_cps_mode : agree.

Lemma agree_status_access extra tmp1 tmp2 tmp4 :
  agree s1 s2 (status_access U extra tmp1 tmp2 tmp4).
Proof. unfold status_access. agree_tac. Qed.

#[local] Hint Resolve agree_status_access : agree.

Lemma agree_arm_core_status instr extra :
  agree s1 s2 (arm_core_status U instr extra).
Proof. unfold arm_core_status. destruct (status_banked_target U instr) as [[tmp1 tmp2] unp]. agree_tac. Qed.

#[local] Hint Resolve agree_arm_core_status : agree.

Lemma agree_arm_vfp_ldst_ext instr extra :
  agree s1 s2 (arm_vfp_ldst_ext instr extra).
Proof. unfold arm_vfp_ldst_ext. destruct extra; agree_tac. Qed.

#[local] Hint Resolve agree_arm_vfp_ldst_ext : agree.

Lemma agree_xfer_vmov_pair instr extra :
  agree s1 s2 (xfer_vmov_pair instr extra).
Proof. unfold xfer_vmov_pair. agree_tac. Qed.

#[local] Hint Resolve agree_xfer_vmov_pair : agree.

Lemma agree_xfer_scalar instr und retval :
  agree s1 s2 (xfer_scalar U instr und retval).
Proof. unfold xfer_scalar. agree_tac. Qed.

#[local] Hint Resolve agree_xfer_scalar : agree.

Lemma agree_arm_vfp_xfer_reg instr extra :
  agree s1 s2 (arm_vfp_xfer_reg U instr extra).
Proof. unfold arm_vfp_xfer_reg. destruct extra; agree_tac. Qed.

#[local] Hint Resolve agree_arm_vfp_xfer_reg : agree.

Lemma agree_embedded f instr extra :
  In f (embedded_decoders U) -> agree s1 s2 (f instr extra).
Proof.
  unfold embedded_decoders. intros H.
  repeat (destruct H as [<-|H]); try contradiction;
    auto with agree nocore; apply agree_ret.
Qed.

Lemma agree_dispatch tbl instr :
  Forall (fun e => In (decoder e) (embedded_decoders U)) tbl ->
  agree s1 s2 (ARM_decoder_dispatch tbl instr).
Proof.
  intros Htbl. unfold agree, run.
  rewrite !ARM_decoder_dispatch_find.
  destruct (find (entry_matches instr) tbl) as [e|] eqn:E; [|reflexivity].
  apply find_some in E. destruct E as [Hin _].
  rewrite Forall_forall in Htbl.
  apply (agree_embedded (decoder e) instr (extra e) (Htbl e Hin)).
Qed.

End Agreement.

(** ** The frame of a decode call *)




(** * Further properties of the decoding functions *)

Lemma no_address_lin : no_address set_addr_lin.
Proof. right. apply linear_lin. Qed.

Lemma no_address_undef : no_address set_undef_addr.
Proof. left. reflexivity. Qed.

Lemma no_address_unpred r : no_address r -> no_address (set_unpred_addr r).
Proof.
  intros [H|H]; [left; exact H | right; apply linear_unpred; exact H].
Qed.

Create HintDb outcome.

#[local] Hint Resolve no_address_lin no_address_undef no_address_unpred
  linear_lin linear_unpred : outcome.

(** ** The dispatcher over composed tables *)

Lemma find_app_existsb {A : Type} (p : A -> bool) (l1 l2 : list A) :
  find p (l1 ++ l2) = if existsb p l1 then find p l1 else find p l2.
Proof.
  induction l1 as [|a l1 IH]; simpl; [reflexivity|].
  destruct (p a); [reflexivity | exact IH].
Qed.

(** X1: dispatching over two tables put one after the other is dispatching
    over the first when one of its entries matches the instruction, and over
    the second otherwise; outcome and state are those of that call. *)
Theorem ARM_decoder_dispatch_app
  (t1 t2 : list ARM_dec_tbl_entry_t) (instr : Z) (s : machine) :
  ARM_decoder_dispatch (t1 ++ t2) instr s =
  if existsb (entry_matches instr) t1
  then ARM_decoder_dispatch t1 instr s
  else ARM_decoder_dispatch t2 instr s.
Proof.
  rewrite !ARM_decoder_dispatch_find, find_app_existsb.
  destruct (existsb (entry_matches instr) t1) eqn:E; [reflexivity|].
  reflexivity.
Qed.

Lemma entry_outside_mask e instr :
  Z.land (data e) (mask e) <> data e -> entry_matches instr e = false.
Proof.
  intros H. unfold entry_matches. apply Z.eqb_neq. intros E. apply H.
  rewrite <- E at 1. rewrite <- Z.land_assoc, Z.land_diag. exact E.
Qed.

(** X2: an entry whose data word has a bit outside its mask matches no
    instruction word: taking it out of a table changes no dispatch. *)
Theorem ARM_decoder_dispatch_dead_entry
  (pre post : list ARM_dec_tbl_entry_t) (e : ARM_dec_tbl_entry_t)
  (instr : Z) (s : machine) :
  Z.land (data e) (mask e) <> data e ->
  entry_matches instr e = false
  /\ ARM_decoder_dispatch (pre ++ e :: post) instr s
     = ARM_decoder_dispatch (pre ++ post) instr s.
Proof.
  intros H. pose proof (entry_outside_mask e instr H) as Hm.
  split; [exact Hm|].
  rewrite !ARM_decoder_dispatch_find, !find_app_existsb.
  simpl. rewrite Hm. reflexivity.
Qed.

Lemma ARM_decoder_dispatch_dead_entry_witness :
  entry_matches 0xE12FFF1E
    (mk_entry 0x012fff10 0x0ffffff0 arm_bra_bx_r (arm_branch a32_util))
  = true
  /\ entry_matches 0xE12FFF1E
       (mk_entry 0x112fff10 0x0ffffff0 arm_bra_bx_r (arm_branch a32_util))
     = false
  /\ ARM_decoder_dispatch
       ([] ++ mk_entry 0x112fff10 0x0ffffff0 arm_bra_bx_r
                (arm_branch a32_util) :: sample_table)
       0xE12FFF1E sample_machine
     = ARM_decoder_dispatch ([] ++ sample_table) 0xE12FFF1E sample_machine.
Proof.
  split; [reflexivity|].
  apply (ARM_decoder_dispatch_dead_entry [] sample_table
           (mk_entry 0x112fff10 0x0ffffff0 arm_bra_bx_r (arm_branch a32_util))
           0xE12FFF1E sample_machine).
  vm_compute. discriminate.
Defined.

(** ** The multiplexer *)

Lemma run_arm_vfp_ldst_elem instr extra s :
  run (arm_vfp_ldst_elem instr extra) s = set_undef_addr.
Proof.
  unfold arm_vfp_ldst_elem. cbv zeta. run_step.
  destruct (truthy (vldste_und instr extra)); reflexivity.
Qed.

(** X3: the element and structure load/store handler returns UNDEFINED for
    every instruction word, sub-type and state (its write-back block stands
    behind a [break]); so do the two vector load/store sub-types of the
    multiplexer, whatever the condition check says. *)
Theorem arm_vfp_ldst_elem_always_undefined
  (U : instr_util) (instr : Z) (extra : ARM_decode_extra_t) (s : machine) :
  run (arm_vfp_ldst_elem instr extra) s = set_undef_addr
  /\ run (arm_mux U instr arm_mux_vst_type) s = set_undef_addr
  /\ run (arm_mux U instr arm_mux_vld_type) s = set_undef_addr.
Proof.
  split; [apply run_arm_vfp_ldst_elem|].
  split; rewrite run_arm_mux; unfold arm_mux_switch; cbv zeta;
    repeat match goal with
           | |- context [run (if ?b then _ else _) _] => destruct b
           end;
    rewrite ?run_arm_vfp_ldst_elem; reflexivity.
Qed.

Lemma arm_mux_switch_no_address instr extra s :
  mux_forwards extra = false ->
  no_address (run (arm_mux_switch instr extra) s).
Proof.
  intros H. unfold arm_mux_switch.
  destruct extra; try discriminate H; clear H; run_all;
    rewrite ?run_arm_vfp_ldst_elem; value_cases; auto 6 with outcome.
Qed.

(** X4: apart from the shift and move sub-types it forwards and MRS, the
    multiplexer never returns a computed address: the outcome is UNDEFINED
    or the linear sentinel. *)
Theorem arm_mux_no_address
  (U : instr_util) (instr : Z) (extra : ARM_decode_extra_t) (s : machine) :
  mux_forwards extra = false ->
  no_address (run (arm_mux U instr extra) s).
Proof.
  intros H. rewrite run_arm_mux. cbv zeta.
  pose proof (arm_mux_switch_no_address instr extra s H) as Hs.
  value_cases; auto with outcome.
Qed.

Lemma arm_mux_no_address_witness :
  no_address (run (arm_mux a32_util 0xE320F002 arm_mux_wfe_wfi) sample_machine).
Proof.
  apply (arm_mux_no_address a32_util 0xE320F002 arm_mux_wfe_wfi
           sample_machine).
  reflexivity.
Defined.

(** ** Branches to a label *)

Lemma u32_mod_divide (x n : Z) :
  0 < n -> (n | 2 ^ 32) -> u32 x mod n = x mod n.
Proof.
  intros Hn Hd. unfold u32. apply Z.mod_mod_divide. assumption.
Qed.

Lemma to_int_mod_divide (x n : Z) :
  0 < n -> (n | 2 ^ 32) -> to_int x mod n = x mod n.
Proof.
  intros Hn Hd. unfold to_int. cbv zeta.
  destruct (u32 x <? 2 ^ 31).
  - apply u32_mod_divide; assumption.
  - destruct Hd as [k Hk]. rewrite Hk.
    replace (u32 x - k * n) with (u32 x + (- k) * n) by ring.
    rewrite Z.mod_add by lia.
    apply u32_mod_divide; [assumption | exists k; assumption].
Qed.

Lemma divide_4_word : (4 | 2 ^ 32).
Proof. exists (2 ^ 30). reflexivity. Qed.

Lemma divide_2_word : (2 | 2 ^ 32).
Proof. exists (2 ^ 31). reflexivity. Qed.

Lemma lor_shifted_even (a b : Z) :
  Z.lor (Z.shiftl a 2) (Z.shiftl b 1) mod 2 = 0.
Proof.
  rewrite <- Z.bit0_mod, Z.lor_spec.
  rewrite !Z.shiftl_spec_low by lia. reflexivity.
Qed.

(** X5: a branch to a label that is not taken is linear, for every
    sub-type.  Taken, B and BL give a plain ARM address that differs from
    the PC by a multiple of 4; BLX gives a plain THUMB address that differs
    from the PC by a multiple of 2. *)
Theorem arm_branch_label_target
  (U : instr_util) (instr : Z) (extra : ARM_decode_extra_t) (s : machine) :
  (will_branch_of U instr s = false ->
   run (arm_branch U instr extra) s = set_addr_lin)
  /\ (will_branch_of U instr s = true ->
      (extra = arm_bra_b_lbl \/ extra = arm_bra_bl_lbl ->
       flag (run (arm_branch U instr extra) s) = INSTR_ADDR_ARM
       /\ unpred (run (arm_branch U instr extra) s) = false
       /\ address (run (arm_branch U instr extra) s) mod 4
          = context_word s 15 mod 4)
      /\ (extra = arm_bra_blx_lbl ->
          flag (run (arm_branch U instr extra) s) = INSTR_ADDR_THUMB
          /\ unpred (run (arm_branch U instr extra) s) = false
          /\ address (run (arm_branch U instr extra) s) mod 2
             = context_word s 15 mod 2)).
Proof.
  split.
  - intros Hwb. unfold arm_branch. cbv zeta. run_step.
    unfold will_branch. run_step. rewrite Hwb. reflexivity.
  - intros Hwb. split.
    + intros Hx.
      assert (E : run (arm_branch U instr extra) s =
                  set_arm_addr
                    (u32 (to_int (context_word s 15) + 8
                          + Z.shiftl (sx32 instr 23 0) 2))).
      { unfold arm_branch. cbv zeta. run_step.
        unfold will_branch. run_step. rewrite Hwb.
        destruct Hx as [-> | ->]; run_all; reflexivity. }
      rewrite E. split; [reflexivity|]. split; [reflexivity|].
      cbn [address set_arm_addr].
      rewrite u32_mod_divide by (try lia; apply divide_4_word).
      rewrite Z.shiftl_mul_pow2 by lia. change (2 ^ 2) with 4.
      rewrite Z.mod_add by lia.
      replace 8 with (2 * 4) by reflexivity.
      rewrite Z.mod_add by lia.
      apply to_int_mod_divide; [lia | apply divide_4_word].
    + intros ->.
      assert (E : run (arm_branch U instr arm_bra_blx_lbl) s =
                  set_thumb_addr
                    (u32 (to_int (context_word s 15) + 8
                          + Z.lor (Z.shiftl (sx32 instr 23 0) 2)
                                  (Z.shiftl (bit instr 24) 1)))).
      { unfold arm_branch. cbv zeta. run_step.
        unfold will_branch. run_step. rewrite Hwb.
        run_all. reflexivity. }
      rewrite E. split; [reflexivity|]. split; [reflexivity|].
      cbn [address set_thumb_addr].
      rewrite u32_mod_divide by (try lia; apply divide_2_word).
      rewrite Z.add_mod by lia. rewrite lor_shifted_even.
      rewrite Z.add_0_r, Z.mod_mod by lia.
      replace 8 with (4 * 2) by reflexivity.
      rewrite Z.mod_add by lia.
      apply to_int_mod_divide; [lia | apply divide_2_word].
Qed.

Lemma arm_branch_label_target_witness :
  run (arm_branch a32_util 0x1A000001 arm_bra_b_lbl) sample_machine
  = set_addr_lin
  /\ (flag (run (arm_branch a32_util 0xEA000001 arm_bra_b_lbl) sample_machine)
      = INSTR_ADDR_ARM
      /\ unpred
           (run (arm_branch a32_util 0xEA000001 arm_bra_b_lbl) sample_machine)
         = false
      /\ address
           (run (arm_branch a32_util 0xEA000001 arm_bra_b_lbl) sample_machine)
         mod 4 = context_word sample_machine 15 mod 4)
  /\ (flag
        (run (arm_branch a32_util 0xFB000001 arm_bra_blx_lbl) sample_machine)
      = INSTR_ADDR_THUMB
      /\ unpred
           (run (arm_branch a32_util 0xFB000001 arm_bra_blx_lbl)
              sample_machine)
         = false
      /\ address
           (run (arm_branch a32_util 0xFB000001 arm_bra_blx_lbl)
              sample_machine)
         mod 2 = context_word sample_machine 15 mod 2).
Proof.
  split.
  { apply (proj1 (arm_branch_label_target a32_util 0x1A000001 arm_bra_b_lbl
                    sample_machine)).
    reflexivity. }
  split.
  { apply (proj1 (proj2 (arm_branch_label_target a32_util 0xEA000001
                           arm_bra_b_lbl sample_machine) eq_refl)).
    left. reflexivity. }
  apply (proj2 (proj2 (arm_branch_label_target a32_util 0xFB000001
                         arm_bra_blx_lbl sample_machine) eq_refl)).
  reflexivity.
Defined.

(** ** Division *)

(** X6: with Rd = PC and a zero in the divisor register, SDIV returns the
    plain ARM address 0, while UDIV returns the plain ARM address 15: its
    zero test sets the outcome and the statement after it overwrites that
    with [tmp1], which still holds the number of Rd. *)
Theorem arm_core_data_div_zero_divisor
  (instr : Z) (extra : ARM_decode_extra_t) (s : machine) :
  bitrng instr 19 16 = 15 ->
  bitrng instr 11 8 <> 15 ->
  context_word s (bitrng instr 11 8) = 0 ->
  run (arm_core_data_div instr extra) s =
  if extra_eqb extra arm_div_sdiv then set_arm_addr 0 else set_arm_addr 15.
Proof.
  intros Hd Hm Hz. apply Z.eqb_neq in Hm.
  unfold arm_core_data_div. cbv zeta. rewrite Hd, Hm.
  change (15 =? 15) with true. cbv iota.
  destruct (extra_eqb extra arm_div_sdiv);
    repeat run_step; unfold rd_storage; repeat run_step; rewrite Hz.
  - change (to_int 0 =? 0) with true. reflexivity.
  - change (add32 0 0 =? 0) with true. reflexivity.
Qed.

Lemma arm_core_data_div_zero_divisor_witness :
  run (arm_core_data_div 0xE73FF011 arm_div_udiv) sample_machine
  = set_arm_addr 15.
Proof.
  apply (arm_core_data_div_zero_divisor 0xE73FF011 arm_div_udiv
           sample_machine); [reflexivity | vm_compute; discriminate
                            | reflexivity].
Defined.

Lemma to_int_range x : - 2 ^ 31 <= to_int x < 2 ^ 31.
Proof.
  unfold to_int, u32. cbv zeta.
  pose proof (Z.mod_pos_bound x (2 ^ 32) ltac:(lia)) as H.
  destruct (x mod 2 ^ 32 <? 2 ^ 31) eqn:E.
  - apply Z.ltb_lt in E. lia.
  - apply Z.ltb_ge in E. lia.
Qed.

Lemma to_int_id x : - 2 ^ 31 <= x < 2 ^ 31 -> to_int x = x.
Proof.
  intros H. unfold to_int, u32. cbv zeta.
  destruct (Z_lt_le_dec x 0) as [Hn|Hp].
  - replace (x mod 2 ^ 32) with (x + 2 ^ 32).
    + destruct (x + 2 ^ 32 <? 2 ^ 31) eqn:E; [apply Z.ltb_lt in E; lia | lia].
    + apply Z.mod_unique with (q := -1); lia.
  - rewrite Z.mod_small by lia.
    destruct (x <? 2 ^ 31) eqn:E; [reflexivity | apply Z.ltb_ge in E; lia].
Qed.

Lemma bit_31_sign x :
  - 2 ^ 31 <= x < 2 ^ 31 -> bit (u32 x) 31 = if x <? 0 then 1 else 0.
Proof.
  intros H. unfold bit, u32.
  rewrite Z.shiftr_div_pow2 by lia.
  change 1 with (Z.ones 1) at 1. rewrite Z.land_ones by lia.
  change (2 ^ 1) with 2.
  destruct (x <? 0) eqn:E.
  - apply Z.ltb_lt in E.
    replace (x mod 2 ^ 32) with (x + 2 ^ 32)
      by (apply Z.mod_unique with (q := -1); lia).
    replace ((x + 2 ^ 32) / 2 ^ 31) with 1; [reflexivity|].
    apply Z.div_unique with (r := x + 2 ^ 31); lia.
  - apply Z.ltb_ge in E. rewrite (Z.mod_small x (2 ^ 32)) by lia.
    rewrite Z.div_small by lia. reflexivity.
Qed.

(** With a quotient that is not positive, halving the doubled quotient plus
    one towards minus infinity truncates. *)
Lemma half_double_quot_pos (a b : Z) :
  0 <= a -> 0 < b -> (1 - (2 * a) / b) / 2 = - (a / b).
Proof.
  intros Ha Hb.
  pose proof (Z.div_mod a b ltac:(lia)) as E1.
  pose proof (Z.mod_pos_bound a b Hb) as B1.
  pose proof (Z.div_mod (2 * a) b ltac:(lia)) as E2.
  pose proof (Z.mod_pos_bound (2 * a) b Hb) as B2.
  set (k := a / b) in *. set (m := a mod b) in *.
  set (q := (2 * a) / b) in *. set (r := (2 * a) mod b) in *.
  assert (Hq : q = 2 * k \/ q = 2 * k + 1) by nia.
  destruct Hq as [-> | ->].
  - symmetry. apply Z.div_unique with (r := 1); lia.
  - symmetry. apply Z.div_unique with (r := 0); lia.
Qed.

Lemma sdiv_rounding (n d : Z) :
  (n <? 0) <> (d <? 0) -> d <> 0 ->
  Z.shiftr (Z.quot (Z.shiftl n 1) d + 1) 1 = Z.quot n d.
Proof.
  intros Hs Hd.
  rewrite Z.shiftr_div_pow2, Z.shiftl_mul_pow2 by lia.
  change (2 ^ 1) with 2. rewrite (Z.mul_comm n 2).
  destruct (n <? 0) eqn:En, (d <? 0) eqn:Ed; try congruence.
  - apply Z.ltb_lt in En. apply Z.ltb_ge in Ed.
    remember (- n) as a eqn:Ea.
    assert (Hn : n = - a) by lia. rewrite Hn.
    rewrite Z.mul_opp_r, !Z.quot_opp_l by lia.
    rewrite !Z.quot_div_nonneg by lia.
    replace (- ((2 * a) / d) + 1) with (1 - (2 * a) / d) by lia.
    apply half_double_quot_pos; lia.
  - apply Z.ltb_ge in En. apply Z.ltb_lt in Ed.
    remember (- d) as b eqn:Eb.
    assert (Hb : d = - b) by lia. rewrite Hb.
    rewrite !Z.quot_opp_r by lia.
    rewrite !Z.quot_div_nonneg by lia.
    replace (- ((2 * n) / b) + 1) with (1 - (2 * n) / b) by lia.
    apply half_double_quot_pos; lia.
Qed.

(** X7: with Rd = PC, operand registers other than PC, a divisor that is not
    zero and a dividend of at most 31 significant bits (so that doubling it
    stays in an [int]), SDIV returns the quotient rounded towards zero as a
    plain ARM address, on both paths of its sign test. *)
Theorem arm_core_data_div_sdiv_truncates (instr : Z) (s : machine) :
  bitrng instr 19 16 = 15 ->
  bitrng instr 11 8 <> 15 ->
  bitrng instr 3 0 <> 15 ->
  to_int (context_word s (bitrng instr 11 8)) <> 0 ->
  - 2 ^ 30 <= to_int (context_word s (bitrng instr 3 0)) < 2 ^ 30 ->
  run (arm_core_data_div instr arm_div_sdiv) s =
  set_arm_addr
    (u32 (Z.quot (to_int (context_word s (bitrng instr 3 0)))
                 (to_int (context_word s (bitrng instr 11 8))))).
Proof.
  intros Hd Hm Hn Hnz Hr.
  apply Z.eqb_neq in Hm. apply Z.eqb_neq in Hn.
  unfold arm_core_data_div. cbv zeta. rewrite Hd, Hm, Hn.
  change (15 =? 15) with true.
  change (extra_eqb arm_div_sdiv arm_div_sdiv) with true. cbv iota.
  repeat run_step. unfold rd_storage. repeat run_step.
  set (d := to_int (context_word s (bitrng instr 11 8))) in *.
  set (n := to_int (context_word s (bitrng instr 3 0))) in *.
  pose proof (to_int_range (context_word s (bitrng instr 11 8))) as Rd.
  fold d in Rd.
  apply Z.eqb_neq in Hnz. rewrite Hnz. run_step.
  rewrite !bit_31_sign by lia.
  destruct (n <? 0) eqn:En, (d <? 0) eqn:Ed;
    cbn [Z.eqb Pos.eqb]; try reflexivity.
  - apply Z.ltb_lt in En. apply Z.ltb_ge in Ed. apply Z.eqb_neq in Hnz.
    f_equal. f_equal.
    assert (Hsh : Z.shiftl n 1 = 2 * n)
      by (rewrite Z.shiftl_mul_pow2 by lia; change (2 ^ 1) with 2; lia).
    rewrite (to_int_id (Z.shiftl n 1)) by (rewrite Hsh; lia).
    assert (Hq : - 2 ^ 31 <= Z.quot (Z.shiftl n 1) d <= 0).
    { rewrite Hsh. split.
      - replace (2 * n) with (- (- (2 * n))) by lia.
        rewrite Z.quot_opp_l by lia.
        pose proof (Z.quot_le_upper_bound (- (2 * n)) d (- (2 * n))
                      ltac:(lia) ltac:(nia)). lia.
      - replace (2 * n) with (- (- (2 * n))) by lia.
        rewrite Z.quot_opp_l by lia.
        pose proof (Z.quot_pos (- (2 * n)) d ltac:(lia) ltac:(lia)). lia. }
    rewrite to_int_id by lia.
    apply sdiv_rounding; [|lia].
    rewrite (proj2 (Z.ltb_lt n 0)), (proj2 (Z.ltb_ge d 0)) by lia.
    discriminate.
  - apply Z.ltb_ge in En. apply Z.ltb_lt in Ed. apply Z.eqb_neq in Hnz.
    f_equal. f_equal.
    assert (Hsh : Z.shiftl n 1 = 2 * n)
      by (rewrite Z.shiftl_mul_pow2 by lia; change (2 ^ 1) with 2; lia).
    rewrite (to_int_id (Z.shiftl n 1)) by (rewrite Hsh; lia).
    assert (Hq : - 2 ^ 31 <= Z.quot (Z.shiftl n 1) d <= 0).
    { rewrite Hsh. replace d with (- (- d)) by lia.
      rewrite Z.quot_opp_r by lia. split.
      - pose proof (Z.quot_le_upper_bound (2 * n) (- d) (2 * n)
                      ltac:(lia) ltac:(nia)). lia.
      - pose proof (Z.quot_pos (2 * n) (- d) ltac:(lia) ltac:(lia)). lia. }
    rewrite to_int_id by lia.
    apply sdiv_rounding; [|lia].
    rewrite (proj2 (Z.ltb_ge n 0)), (proj2 (Z.ltb_lt d 0)) by lia.
    discriminate.
Qed.

Lemma arm_core_data_div_sdiv_truncates_witness :
  run (arm_core_data_div 0xE71FF217 arm_div_sdiv) sample_machine
  = set_arm_addr 3.
Proof.
  apply (arm_core_data_div_sdiv_truncates 0xE71FF217 sample_machine).
  - reflexivity.
  - vm_compute. discriminate.
  - vm_compute. discriminate.
  - vm_compute. discriminate.
  - split; [apply Z.leb_le | apply Z.ltb_lt]; reflexivity.
Defined.

(** ** Handlers whose computed addresses are always flagged *)

Lemma flagged_unpred r : flagged_or_plain (set_unpred_addr r).
Proof. left. reflexivity. Qed.

Lemma flagged_lin : flagged_or_plain set_addr_lin.
Proof. right. left. reflexivity. Qed.

Lemma flagged_undef : flagged_or_plain set_undef_addr.
Proof. right. right. reflexivity. Qed.

#[local] Hint Resolve flagged_unpred flagged_lin flagged_undef : outcome.

Lemma arm_core_data_mac_flagged instr extra s :
  flagged_or_plain (run (arm_core_data_mac instr extra) s).
Proof.
  unfold arm_core_data_mac. run_all; auto with outcome.
Qed.

Lemma arm_core_data_macd_flagged instr extra s :
  flagged_or_plain (run (arm_core_data_macd instr extra) s).
Proof.
  unfold arm_core_data_macd. run_all; auto with outcome.
Qed.

Lemma arm_core_data_par_flagged U instr extra s :
  flagged_or_plain (run (arm_core_data_par U instr extra) s).
Proof.
  unfold arm_core_data_par. run_all; auto with outcome.
Qed.

Lemma arm_core_data_sat_flagged U instr extra s :
  flagged_or_plain (run (arm_core_data_sat U instr extra) s).
Proof.
  unfold arm_core_data_sat. run_all; auto with outcome.
Qed.

Lemma arm_core_data_misc_flagged instr extra s :
  flagged_or_plain (run (arm_core_data_misc instr extra) s).
Proof.
  unfold arm_core_data_misc. run_all; auto with outcome.
Qed.

Lemma arm_core_data_pack_flagged U instr extra s :
  flagged_or_plain (run (arm_core_data_pack U instr extra) s).
Proof.
  unfold arm_core_data_pack. run_all; auto with outcome.
Qed.

Lemma arm_core_data_std_sh_flagged instr extra s :
  flagged_or_plain (run (arm_core_data_std_sh instr extra) s).
Proof.
  unfold arm_core_data_std_sh. run_all; auto with outcome.
Qed.

(** X8: the multiply handlers never return a plain computed address: an
    outcome of [arm_core_data_mac] or [arm_core_data_macd] is flagged
    UNPREDICTABLE unless it is the linear sentinel or UNDEFINED. *)
Theorem multiply_results_flagged
  (instr : Z) (extra : ARM_decode_extra_t) (s : machine) :
  flagged_or_plain (run (arm_core_data_mac instr extra) s)
  /\ flagged_or_plain (run (arm_core_data_macd instr extra) s).
Proof.
  split; [apply arm_core_data_mac_flagged | apply arm_core_data_macd_flagged].
Qed.

(** X9: the parallel, saturating, miscellaneous, pack/extend and
    register-shifted-register handlers never return a plain computed
    address either: every address they compute for Rd = PC carries the
    UNPREDICTABLE overlay. *)
Theorem media_results_flagged
  (U : instr_util) (instr : Z) (extra : ARM_decode_extra_t) (s : machine) :
  flagged_or_plain (run (arm_core_data_par U instr extra) s)
  /\ flagged_or_plain (run (arm_core_data_sat U instr extra) s)
  /\ flagged_or_plain (run (arm_core_data_misc instr extra) s)
  /\ flagged_or_plain (run (arm_core_data_pack U instr extra) s)
  /\ flagged_or_plain (run (arm_core_data_std_sh instr extra) s).
Proof.
  split; [apply arm_core_data_par_flagged|].
  split; [apply arm_core_data_sat_flagged|].
  split; [apply arm_core_data_misc_flagged|].
  split; [apply arm_core_data_pack_flagged|].
  apply arm_core_data_std_sh_flagged.
Qed.

(** ** Data-processing with an immediate or a returning sub-type *)

Lemma lor_c_cases a b : lor_c a b = 0 \/ lor_c a b = 1.
Proof. unfold lor_c. destruct (truthy a || truthy b); auto. Qed.

(** X10: a rotated immediate is combined with the logical [||], and the
    mask of the rotation is left in the variable of the first operand.  With
    Rd = PC and a rotation that is not zero, MOV returns the plain ARM
    address 0 or 1, and ADD returns the rotation mask plus that bit, whatever
    Rn holds. *)
Theorem arm_core_data_std_i_rotated_immediate (instr : Z) (s : machine) :
  bitrng instr 15 12 = 15 ->
  Z.land (shl32 (bitrng instr 11 8) 1) 0x1f <> 0 ->
  exists b : Z,
    (b = 0 \/ b = 1)
    /\ run (arm_core_data_std_i instr arm_cdata_mov_imm) s = set_arm_addr b
    /\ run (arm_core_data_std_i instr arm_cdata_add_imm) s
       = set_arm_addr
           (add32 (mask_from (Z.land (shl32 (bitrng instr 11 8) 1) 0x1f)) b).
Proof.
  intros Hd Hr. apply Z.eqb_neq in Hr.
  set (rot := Z.land (shl32 (bitrng instr 11 8) 1) 0x1f) in *.
  set (imm := bitrng instr 7 0).
  exists (lor_c (Z.land (shr32 imm rot) (not32 (mask_from rot)))
                (Z.land (shl32 imm (32 - rot)) (mask_from rot))).
  split; [apply lor_c_cases|].
  split; unfold arm_core_data_std_i, std_i_operands; cbv zeta;
    rewrite Hd; change (15 =? 15) with true; fold rot; rewrite Hr;
    cbn [negb orb extra_eqb extra_tag Z.eqb Pos.eqb];
    repeat run_step; reflexivity.
Qed.

Lemma arm_core_data_std_i_rotated_immediate_witness :
  exists b : Z,
    (b = 0 \/ b = 1)
    /\ run (arm_core_data_std_i 0xE3A0F902 arm_cdata_mov_imm) sample_machine
       = set_arm_addr b
    /\ run (arm_core_data_std_i 0xE3A0F902 arm_cdata_add_imm) sample_machine
       = set_arm_addr
           (add32
              (mask_from (Z.land (shl32 (bitrng 0xE3A0F902 11 8) 1) 0x1f)) b).
Proof.
  apply (arm_core_data_std_i_rotated_immediate 0xE3A0F902 sample_machine).
  - reflexivity.
  - vm_compute. discriminate.
Defined.

Lemma run_std_ret_check_mode instr retval s :
  bit instr 20 = 1 ->
  run (std_ret_check instr retval) s =
  let mode := Z.land (reg_cpsr (rpi2_reg_context s)) 0x1f in
  if (mode =? 0x10) || (mode =? 0x1f) then set_unpred_addr (set_arm_addr 0x8)
  else if mode =? 0x1a then set_undef_addr
  else if truthy (bit (reg_spsr (rpi2_reg_context s)) 5)
       then set_thumb_addr (address retval) else retval.
Proof.
  intros H. unfold std_ret_check, rd_cpsr, rd_spsr. rewrite H.
  cbn [truthy negb Z.eqb]. run_all; reflexivity.
Qed.

(** X11: a returning sub-type with Rd = PC and the S bit set looks at the
    mode of the current status word before anything else: in user and
    system mode the outcome is the SVC vector 0x8 flagged UNPREDICTABLE, in
    hyp mode it is UNDEFINED, whatever the operands are.  This holds for the
    register and immediate data-processing handlers and for the shift
    handler. *)
Theorem exception_return_mode_check
  (instr : Z) (extra : ARM_decode_extra_t) (s : machine) :
  bitrng instr 15 12 = 15 ->
  bit instr 20 = 1 ->
  let mode := Z.land (reg_cpsr (rpi2_reg_context s)) 0x1f in
  let outcome :=
    if (mode =? 0x10) || (mode =? 0x1f)
    then set_unpred_addr (set_arm_addr 0x8) else set_undef_addr in
  mode = 0x10 \/ mode = 0x1f \/ mode = 0x1a ->
  (std_r_is_ret extra = true ->
   run (arm_core_data_std_r instr extra) s = outcome)
  /\ (std_i_is_ret extra = true ->
      run (arm_core_data_std_i instr extra) s = outcome)
  /\ (data_bit_is_ret extra = true ->
      run (arm_core_data_bit instr extra) s = outcome).
Proof.
  intros Hd Hs mode outcome Hm.
  assert (Hout : forall retval,
             run (std_ret_check instr retval) s = outcome).
  { intros retval. rewrite run_std_ret_check_mode by assumption.
    cbv zeta. fold mode. subst outcome.
    destruct Hm as [-> | [-> | ->]]; reflexivity. }
  split; [|split]; intros Hx.
  - unfold arm_core_data_std_r. cbv zeta. rewrite Hd.
    change (15 =? 15) with true.
    destruct extra; try discriminate Hx;
      cbn [extra_eqb extra_tag Z.eqb Pos.eqb orb std_r_is_ret];
      repeat run_step; apply Hout.
  - unfold arm_core_data_std_i. cbv zeta. rewrite Hd.
    change (15 =? 15) with true.
    destruct extra; try discriminate Hx;
      cbn [extra_eqb extra_tag Z.eqb Pos.eqb orb std_i_is_ret];
      repeat run_step; apply Hout.
  - unfold arm_core_data_bit. cbv zeta. run_step.
    destruct extra; try discriminate Hx;
      run_step; unfold rd_cpsr; run_step; rewrite Hs;
      cbn [truthy negb Z.eqb]; fold mode; subst outcome;
      destruct Hm as [-> | [-> | ->]]; reflexivity.
Qed.

Lemma exception_return_mode_check_witness :
  run (arm_core_data_std_r 0xE091F002 arm_ret_add_r) user_machine
  = set_unpred_addr (set_arm_addr 0x8)
  /\ run (arm_core_data_std_i 0xE25EF004 arm_ret_sub_imm) user_machine
     = set_unpred_addr (set_arm_addr 0x8)
  /\ run (arm_core_data_bit 0xE1B0F00E arm_ret_mov_pc) user_machine
     = set_unpred_addr (set_arm_addr 0x8).
Proof.
  split; [|split].
  - apply (exception_return_mode_check 0xE091F002 arm_ret_add_r user_machine);
      [reflexivity | reflexivity | left; reflexivity | reflexivity].
  - apply (exception_return_mode_check 0xE25EF004 arm_ret_sub_imm
             user_machine);
      [reflexivity | reflexivity | left; reflexivity | reflexivity].
  - apply (exception_return_mode_check 0xE1B0F00E arm_ret_mov_pc
             user_machine);
      [reflexivity | reflexivity | left; reflexivity | reflexivity].
Defined.

(** X12: in the other modes the shift handler leaves its outcome as first
    initialised unless the saved status word has the T bit: an exception
    return by MOVS or a shift to ARM state is reported as UNDEFINED, one to
    THUMB state as a plain THUMB address. *)
Theorem arm_core_data_bit_return_to_arm_undefined
  (instr : Z) (extra : ARM_decode_extra_t) (s : machine) :
  data_bit_is_ret extra = true ->
  bit instr 20 = 1 ->
  let mode := Z.land (reg_cpsr (rpi2_reg_context s)) 0x1f in
  mode <> 0x10 -> mode <> 0x1f -> mode <> 0x1a ->
  (Z.testbit (reg_spsr (rpi2_reg_context s)) 5 = false ->
   run (arm_core_data_bit instr extra) s = set_undef_addr)
  /\ (Z.testbit (reg_spsr (rpi2_reg_context s)) 5 = true ->
      run (arm_core_data_bit instr extra) s
      = set_thumb_addr (run (data_bit_tmp3 instr extra) s)).
Proof.
  intros Hx Hs mode H1 H2 H3.
  apply Z.eqb_neq in H1. apply Z.eqb_neq in H2. apply Z.eqb_neq in H3.
  assert (E : run (arm_core_data_bit instr extra) s =
              if truthy (bit (reg_spsr (rpi2_reg_context s)) 5)
              then set_thumb_addr (run (data_bit_tmp3 instr extra) s)
              else set_undef_addr).
  { unfold arm_core_data_bit. cbv zeta. run_step.
    destruct extra; try discriminate Hx;
      run_step; unfold rd_cpsr; run_step; rewrite Hs;
      cbn [truthy negb Z.eqb]; fold mode; rewrite H1, H2, H3;
      cbn [orb]; unfold rd_spsr; repeat run_step; reflexivity. }
  rewrite E, truthy_bit by lia.
  split; intros ->; reflexivity.
Qed.

Lemma arm_core_data_bit_return_to_arm_undefined_witness :
  run (arm_core_data_bit 0xE1B0F00E arm_ret_mov_pc) sample_machine
  = set_undef_addr.
Proof.
  apply (arm_core_data_bit_return_to_arm_undefined 0xE1B0F00E arm_ret_mov_pc
           sample_machine);
    try reflexivity; vm_compute; discriminate.
Defined.

(** ** Exception-generating instructions *)

Lemma truthy_land_shiftl x n :
  0 <= n -> truthy (Z.land x (Z.shiftl 1 n)) = Z.testbit x n.
Proof.
  intros Hn. unfold truthy.
  rewrite Z.shiftl_1_l.
  destruct (Z.testbit x n) eqn:E.
  - apply negb_true_iff, Z.eqb_neq. intros H.
    assert (T : Z.testbit (Z.land x (2 ^ n)) n = true)
      by (rewrite Z.land_spec, E, Z.pow2_bits_true by lia; reflexivity).
    rewrite H, Z.bits_0 in T. discriminate.
  - apply negb_false_iff, Z.eqb_eq. apply Z.bits_inj'. intros i Hi.
    rewrite Z.land_spec, Z.bits_0, Z.pow2_bits_eqb by lia.
    destruct (Z.eqb_spec n i) as [<-|Hne];
      [rewrite E; reflexivity | apply andb_false_r].
Qed.

(** X13: SVC is linear in every state.  HVC is linear exactly when the
    target is non-secure, not in user mode and bit 8 of SCR is set, and
    UNDEFINED otherwise.  SMC is UNDEFINED exactly in user mode, or when the
    target is non-secure with bit 7 of SCR set and bit 19 of HCR clear, and
    linear otherwise. *)
Theorem arm_core_exc_calls
  (U : instr_util) (instr : Z) (s : machine) :
  let usr := check_proc_mode_of U (INSTR_PMODE_USR U) 0 0 0 s in
  run (arm_core_exc U instr arm_exc_svc) s = set_addr_lin
  /\ run (arm_core_exc U instr arm_exc_hvc) s
     = (if negb (hw_secure s) && negb usr && Z.testbit (hw_scr s) 8
        then set_addr_lin else set_undef_addr)
  /\ run (arm_core_exc U instr arm_exc_smc) s
     = (if usr
           || (negb (hw_secure s) && Z.testbit (hw_scr s) 7
               && negb (Z.testbit (hw_hcr s) 19))
        then set_undef_addr else set_addr_lin).
Proof.
  intros usr. subst usr.
  unfold arm_core_exc, check_proc_mode, get_security_state, get_SCR, get_HCR.
  cbv zeta.
  destruct (hw_secure s) eqn:Hsec,
    (check_proc_mode_of U (INSTR_PMODE_USR U) 0 0 0 s) eqn:Husr,
    (Z.testbit (hw_scr s) 8) eqn:Hhce, (Z.testbit (hw_scr s) 7) eqn:Hscd,
    (Z.testbit (hw_hcr s) 19) eqn:Htsc;
    (split; [|split]);
    repeat (first [ run_step
                  | rewrite truthy_land_shiftl by lia
                  | rewrite Hsec | rewrite Husr | rewrite Hhce
                  | rewrite Hscd | rewrite Htsc
                  | progress cbn [negb andb orb]
                  | run_case ]);
    reflexivity.
Qed.

(** ** Load and store *)

Lemma run_rd_storage n s : run (rd_storage n) s = context_word s n.
Proof. reflexivity. Qed.

(** The closing block of [arm_core_ldst]: the state is chosen by the low
    bits of a computed address. *)
Lemma ldst_classified (retval : instr_next_addr_t) (unp : Z) :
  let res :=
    if negb (address retval =? 0xffffffff) then
      let tmp1 := address retval in
      if truthy (bit tmp1 0) then (set_thumb_addr tmp1, unp)
      else if Z.land tmp1 3 =? 0 then (set_arm_addr tmp1, unp)
      else (set_thumb_addr tmp1, unp + 1)
    else (retval, unp) in
  let r := if truthy (snd res) then set_unpred_addr (fst res) else fst res in
  0 <= unp ->
  (flag r = INSTR_ADDR_ARM ->
   address r = 0xffffffff \/ Z.land (address r) 3 = 0)
  /\ (flag r = INSTR_ADDR_THUMB ->
      bit (address r) 0 <> 0 \/ unpred r = true).
Proof.
  cbv zeta. intros Hu.
  destruct (address retval =? 0xffffffff) eqn:Ea; cbn [negb].
  - apply Z.eqb_eq in Ea. cbn [fst snd].
    destruct (truthy unp); cbn [set_unpred_addr flag address unpred];
      (split; [intros _; left; exact Ea
              | intros _; left; rewrite Ea; discriminate]).
  - destruct (truthy (bit (address retval) 0)) eqn:Eb.
    + cbn [fst snd].
      assert (Hb : bit (address retval) 0 <> 0)
        by (unfold truthy in Eb; apply negb_true_iff, Z.eqb_neq in Eb;
            exact Eb).
      destruct (truthy unp);
        cbn [set_unpred_addr set_thumb_addr flag address unpred];
        (split; [intros H; discriminate | intros _; left; exact Hb]).
    + destruct (Z.land (address retval) 3 =? 0) eqn:Ew.
      * apply Z.eqb_eq in Ew. cbn [fst snd].
        destruct (truthy unp);
          cbn [set_unpred_addr set_arm_addr flag address unpred];
          (split; [intros _; right; exact Ew | intros H; discriminate]).
      * cbn [fst snd].
        assert (Ht : truthy (unp + 1) = true)
          by (unfold truthy; apply negb_true_iff, Z.eqb_neq; lia).
        rewrite Ht.
        cbn [set_unpred_addr set_thumb_addr flag address unpred].
        split; [intros H; discriminate | intros _; right; reflexivity].
Qed.

Lemma ldst_offset_unp_nonneg instr s : 0 <= snd (run (ldst_offset instr) s).
Proof.
  unfold ldst_offset. run_all; cbn [snd]; value_cases; lia.
Qed.

(** X14: an outcome of the single load/store handler has the state its
    address asks for: in ARM state the address is the linear sentinel or a
    multiple of 4, and a THUMB outcome whose address has bit 0 clear is
    flagged UNPREDICTABLE. *)
Theorem arm_core_ldst_state_by_alignment
  (instr : Z) (extra : ARM_decode_extra_t) (s : machine) :
  (flag (run (arm_core_ldst instr extra) s) = INSTR_ADDR_ARM ->
   address (run (arm_core_ldst instr extra) s) = 0xffffffff
   \/ Z.land (address (run (arm_core_ldst instr extra) s)) 3 = 0)
  /\ (flag (run (arm_core_ldst instr extra) s) = INSTR_ADDR_THUMB ->
      bit (address (run (arm_core_ldst instr extra) s)) 0 <> 0
      \/ unpred (run (arm_core_ldst instr extra) s) = true).
Proof.
  unfold arm_core_ldst. cbv zeta. run_step.
  match goal with
  | |- context [run ?big s] =>
      assert (Hu : 0 <= snd (run big s));
      [ | generalize dependent (run big s) ]
  end.
  - pose proof (ldst_offset_unp_nonneg instr s).
    run_all; cbn [snd]; value_cases; lia.
  - intros [retval unp] Hu. cbn [fst snd] in *. run_step.
    apply (ldst_classified retval unp Hu).
Qed.

Lemma arm_core_ldst_state_by_alignment_witness :
  address (run (arm_core_ldst 0xE591F000 arm_extras_last) sample_machine)
  = 0xffffffff
  \/ Z.land
       (address (run (arm_core_ldst 0xE591F000 arm_extras_last)
                   sample_machine)) 3 = 0.
Proof.
  apply (proj1 (arm_core_ldst_state_by_alignment 0xE591F000 arm_extras_last
                  sample_machine)).
  reflexivity.
Defined.

Lemma shl32_one k : 0 <= k < 32 -> shl32 1 k = 2 ^ k.
Proof.
  intros H. unfold shl32, u32. rewrite Z.shiftl_1_l.
  apply Z.mod_small. split; [apply Z.pow_nonneg; lia|].
  apply Z.pow_lt_mono_r; lia.
Qed.

Lemma low16_clear_bit instr k :
  Z.land instr 0xffff = 0 -> 0 <= k < 16 -> Z.testbit instr k = false.
Proof.
  intros H Hk.
  assert (T : Z.testbit (Z.land instr 0xffff) k = false)
    by (rewrite H; apply Z.bits_0).
  rewrite Z.land_spec in T. change 0xffff with (Z.ones 16) in T.
  rewrite Z.ones_spec_low in T by lia. rewrite andb_true_r in T. exact T.
Qed.

Lemma low16_clear_land instr k :
  Z.land instr 0xffff = 0 -> 0 <= k < 16 ->
  truthy (Z.land instr (shl32 1 k)) = false.
Proof.
  intros H Hk. rewrite shl32_one by lia.
  rewrite <- Z.shiftl_1_l, truthy_land_shiftl by lia.
  apply low16_clear_bit; assumption.
Qed.

Lemma low16_clear_bit_field instr k :
  Z.land instr 0xffff = 0 -> 0 <= k < 16 -> bit instr k = 0.
Proof.
  intros H Hk. rewrite bit_b2z by lia.
  rewrite (low16_clear_bit instr k H Hk). reflexivity.
Qed.

Lemma ldstm_count_none instr :
  Z.land instr 0xffff = 0 ->
  forall n k acc, 0 <= k -> k + Z.of_nat n <= 16 ->
  ldstm_count n k acc instr = acc.
Proof.
  intros H. induction n as [|n IH]; intros k acc Hk Hn; [reflexivity|].
  cbn [ldstm_count]. rewrite low16_clear_land by (try assumption; lia).
  apply IH; lia.
Qed.

(** X15: a register list without any register (bits 15-0 clear, S bit
    clear): a load multiple is flagged UNPREDICTABLE, whatever the base
    register; a store multiple whose base is neither SP nor PC is the plain
    linear sentinel. *)
Theorem arm_core_ldstm_empty_list
  (U : instr_util) (instr : Z) (extra : ARM_decode_extra_t) (s : machine) :
  extra_eqb extra arm_cldstm_pop_r = false ->
  extra_eqb extra arm_cldstm_push_r = false ->
  Z.land instr 0xffff = 0 ->
  bit instr 22 = 0 ->
  (bit instr 20 = 1 ->
   unpred (run (arm_core_ldstm U instr extra) s) = true)
  /\ (bit instr 20 = 0 ->
      bitrng instr 19 16 <> 15 -> bitrng instr 19 16 <> 13 ->
      run (arm_core_ldstm U instr extra) s = set_addr_lin).
Proof.
  intros Hpop Hpush Hl Hs.
  assert (Hc : ldstm_count 16 0 0 instr = 0)
    by (apply ldstm_count_none; [assumption | lia | simpl; lia]).
  pose proof (low16_clear_bit_field instr 15 Hl ltac:(lia)) as H15.
  pose proof (low16_clear_bit_field instr 13 Hl ltac:(lia)) as H13.
  unfold arm_core_ldstm. cbv zeta.
  rewrite Hpop, Hpush, Hc, Hs, H15, H13.
  split.
  - intros H20. rewrite H20.
    cbn [Z.eqb truthy negb orb andb Z.ltb Z.compare].
    unfold ldstm_new_base, rd_r15.
    run_all; cbn [fst snd]; value_cases; reflexivity.
  - intros H20 Hn15 Hn13. rewrite H20.
    apply Z.eqb_neq in Hn15. apply Z.eqb_neq in Hn13.
    rewrite Hn15, Hn13.
    cbn [Z.eqb truthy negb orb andb]. run_all. reflexivity.
Qed.

Lemma arm_core_ldstm_empty_list_witness :
  unpred (run (arm_core_ldstm a32_util 0xE8910000 arm_extras_last)
            sample_machine) = true
  /\ run (arm_core_ldstm a32_util 0xE8810000 arm_extras_last) sample_machine
     = set_addr_lin.
Proof.
  split.
  - apply (arm_core_ldstm_empty_list a32_util 0xE8910000 arm_extras_last
             sample_machine); reflexivity.
  - apply (arm_core_ldstm_empty_list a32_util 0xE8810000 arm_extras_last
             sample_machine);
      try reflexivity; vm_compute; discriminate.
Defined.

(** X16: the multiple load/store handler computes an address only for the
    PC: a single-register POP of another register and every PUSH are linear,
    and a load or store multiple whose base is not PC and whose list does
    not hold PC carries no address. *)
Theorem arm_core_ldstm_gate
  (U : instr_util) (instr : Z) (extra : ARM_decode_extra_t) (s : machine) :
  (extra = arm_cldstm_pop_r -> bitrng instr 15 12 <> 15 ->
   linear (run (arm_core_ldstm U instr extra) s))
  /\ (extra = arm_cldstm_push_r ->
      linear (run (arm_core_ldstm U instr extra) s))
  /\ (extra_eqb extra arm_cldstm_pop_r = false ->
      extra_eqb extra arm_cldstm_push_r = false ->
      bit instr 15 = 0 -> bitrng instr 19 16 <> 15 ->
      no_address (run (arm_core_ldstm U instr extra) s)).
Proof.
  split; [|split].
  - intros -> Hd. apply Z.eqb_neq in Hd.
    unfold arm_core_ldstm. cbv zeta. rewrite Hd.
    change (extra_eqb arm_cldstm_pop_r arm_cldstm_pop_r) with true.
    run_all; auto with outcome.
  - intros ->. unfold arm_core_ldstm. cbv zeta.
    change (extra_eqb arm_cldstm_push_r arm_cldstm_pop_r) with false.
    change (extra_eqb arm_cldstm_push_r arm_cldstm_push_r) with true.
    run_all; auto with outcome.
  - intros Hpop Hpush H15 Hn. apply Z.eqb_neq in Hn.
    unfold arm_core_ldstm, ldstm_mode_check. cbv zeta.
    rewrite Hpop, Hpush, H15, Hn.
    cbn [Z.eqb truthy negb orb andb].
    run_all; cbn [fst snd]; value_cases; auto 8 with outcome.
Qed.

Lemma arm_core_ldstm_gate_witness :
  linear (run (arm_core_ldstm a32_util 0xE49D0004 arm_cldstm_pop_r)
            sample_machine)
  /\ linear (run (arm_core_ldstm a32_util 0xE52D0004 arm_cldstm_push_r)
               sample_machine)
  /\ no_address (run (arm_core_ldstm a32_util 0xE8B10006 arm_extras_last)
                   sample_machine).
Proof.
  split; [|split].
  - apply (proj1 (arm_core_ldstm_gate a32_util 0xE49D0004 arm_cldstm_pop_r
                    sample_machine));
      [reflexivity | vm_compute; discriminate].
  - apply (proj1 (proj2 (arm_core_ldstm_gate a32_util 0xE52D0004
                           arm_cldstm_push_r sample_machine))).
    reflexivity.
  - apply (proj2 (proj2 (arm_core_ldstm_gate a32_util 0xE8B10006
                           arm_extras_last sample_machine)));
      try reflexivity; vm_compute; discriminate.
Defined.

(** ** Count leading zeros and sum of absolute differences *)

(** The loop started at [k] with the bits above [31 - k] clear. *)
Lemma clz_loop_spec (x : Z) :
  0 < x < 2 ^ 32 ->
  forall n k, 0 <= k -> k + Z.of_nat n = 32 -> x < 2 ^ (32 - k) ->
  clz_loop n k x = 31 - Z.log2 x.
Proof.
  intros Hx. induction n as [|n IH]; intros k Hk Hn Hb.
  - replace k with 32 in Hb by lia. change (2 ^ (32 - 32)) with 1 in Hb. lia.
  - cbn [clz_loop]. rewrite shl32_one by lia.
    rewrite <- Z.shiftl_1_l, truthy_land_shiftl by lia.
    destruct (Z.testbit x (31 - k)) eqn:E.
    + assert (Hl : Z.log2 x = 31 - k); [|lia].
      apply Z.log2_unique; [lia|].
      replace (Z.succ (31 - k)) with (32 - k) by lia.
      split; [|exact Hb].
      apply Z.testbit_true in E; [|lia].
      destruct (Z_lt_le_dec x (2 ^ (31 - k))) as [Hlt|Hge]; [|exact Hge].
      rewrite Z.div_small in E by lia. discriminate.
    + apply IH; [lia | lia |].
      replace (32 - (k + 1)) with (31 - k) by lia.
      destruct (Z_lt_le_dec x (2 ^ (31 - k))) as [Hlt|Hge]; [exact Hlt|].
      exfalso.
      assert (T : Z.testbit x (31 - k) = true); [|congruence].
      apply Z.testbit_true; [lia|].
      replace (x / 2 ^ (31 - k)) with 1; [reflexivity|].
      apply Z.div_unique with (r := x - 2 ^ (31 - k)); [|lia].
      left. split; [lia|].
      replace (2 ^ (32 - k)) with (2 * 2 ^ (31 - k)) in Hb; [lia|].
      rewrite <- Z.pow_succ_r by lia. f_equal. lia.
Qed.

Lemma clz_loop_zero : forall n k, clz_loop n k 0 = k + Z.of_nat n.
Proof.
  induction n as [|n IH]; intros k; cbn [clz_loop]; [lia|].
  rewrite Z.land_0_l. change (truthy 0) with false. cbv iota.
  rewrite IH. lia.
Qed.

(** X17: CLZ with Rd = PC returns the number of leading zeros of its
    operand as an address flagged UNPREDICTABLE: 32 for the word 0, and 31
    minus the position of the highest set bit otherwise. *)
Theorem arm_core_data_misc_clz_counts (instr : Z) (s : machine) :
  bitrng instr 15 12 = 15 ->
  let x := add32 (context_word s (bitrng instr 3 0))
                 (if bitrng instr 3 0 =? 15 then 8 else 0) in
  run (arm_core_data_misc instr arm_cmisc_clz) s
  = set_unpred_addr
      (set_arm_addr (if x =? 0 then 32 else 31 - Z.log2 x)).
Proof.
  intros Hd x. unfold arm_core_data_misc. cbv zeta. rewrite Hd.
  change (15 =? 15) with true. cbv iota.
  repeat run_step. rewrite run_rd_storage. fold x.
  assert (Hx : 0 <= x < 2 ^ 32)
    by (apply Z.mod_pos_bound; reflexivity).
  f_equal. f_equal.
  destruct (Z.eqb_spec x 0) as [->|Hne].
  - rewrite clz_loop_zero. reflexivity.
  - apply clz_loop_spec; simpl; lia.
Qed.

Lemma arm_core_data_misc_clz_counts_witness :
  run (arm_core_data_misc 0xE16FFF11 arm_cmisc_clz) sample_machine
  = set_unpred_addr (set_arm_addr 23).
Proof.
  apply (arm_core_data_misc_clz_counts 0xE16FFF11 sample_machine).
  reflexivity.
Defined.

Lemma byte_range x : 0 <= Z.land x 0xff < 256.
Proof.
  change 0xff with (Z.ones 8). rewrite Z.land_ones by lia.
  apply Z.mod_pos_bound. reflexivity.
Qed.

Lemma add32_small a b :
  0 <= a -> 0 <= b -> a + b < 2 ^ 32 -> add32 a b = a + b.
Proof. intros. unfold add32, u32. apply Z.mod_small. lia. Qed.

Lemma add32_chain d0 d1 d2 d3 :
  0 <= d0 <= 255 -> 0 <= d1 <= 255 -> 0 <= d2 <= 255 -> 0 <= d3 <= 255 ->
  add32 (add32 (add32 (add32 0 d0) d1) d2) d3 = d0 + d1 + d2 + d3.
Proof.
  intros H0 H1 H2 H3.
  rewrite (add32_small 0 d0) by lia.
  rewrite (add32_small (0 + d0) d1) by lia.
  rewrite (add32_small (0 + d0 + d1) d2) by lia.
  rewrite (add32_small (0 + d0 + d1 + d2) d3) by lia.
  lia.
Qed.

(** The four steps of the byte loop as a sum. *)
Lemma usad8_loop_sum tmp1 tmp2 :
  let d (k : Z) :=
    Z.abs (Z.land (shr32 tmp1 (8 * k)) 0xff
           - Z.land (shr32 tmp2 (8 * k)) 0xff) in
  usad8_loop 4 0 0 tmp1 tmp2 = d 0 + d 1 + d 2 + d 3.
Proof.
  cbv zeta. cbn [usad8_loop].
  change (0 + 1) with 1. change (1 + 1) with 2. change (2 + 1) with 3.
  pose proof (byte_range (shr32 tmp1 (8 * 0))).
  pose proof (byte_range (shr32 tmp2 (8 * 0))).
  pose proof (byte_range (shr32 tmp1 (8 * 1))).
  pose proof (byte_range (shr32 tmp2 (8 * 1))).
  pose proof (byte_range (shr32 tmp1 (8 * 2))).
  pose proof (byte_range (shr32 tmp2 (8 * 2))).
  pose proof (byte_range (shr32 tmp1 (8 * 3))).
  pose proof (byte_range (shr32 tmp2 (8 * 3))).
  repeat match goal with
         | |- context [if ?a <? ?b then _ else _] =>
             destruct (Z.ltb_spec a b)
         end;
    rewrite add32_chain by lia; lia.
Qed.

Lemma byte_lane_shr32 x k :
  0 <= k -> Z.land (shr32 x (8 * k)) 0xff = byte_lane x k.
Proof.
  intros Hk. unfold shr32, byte_lane.
  rewrite Z.shiftr_div_pow2 by lia.
  change 0xff with (Z.ones 8). rewrite Z.land_ones by lia.
  reflexivity.
Qed.

(** X18: USAD8 and USADA8 with 1111 in bits 15-12 are given the sum of the
    absolute differences of the four byte lanes of their two operands (a PC
    operand read 8 ahead) as an ARM address flagged UNPREDICTABLE; USADA8
    adds the word of the register in bits 15-12 to the sum, modulo 2^32. *)
Theorem arm_core_data_misc_usad8_sum (instr : Z) (s : machine) :
  bitrng instr 15 12 = 15 ->
  let operand (r : Z) :=
    if r =? 15 then add32 (context_word s r) 8 else context_word s r in
  let a := operand (bitrng instr 11 8) in
  let b := operand (bitrng instr 3 0) in
  let sum :=
    Z.abs (byte_lane a 0 - byte_lane b 0)
    + Z.abs (byte_lane a 1 - byte_lane b 1)
    + Z.abs (byte_lane a 2 - byte_lane b 2)
    + Z.abs (byte_lane a 3 - byte_lane b 3) in
  run (arm_core_data_misc instr arm_cmisc_usad8) s
  = set_unpred_addr (set_arm_addr sum)
  /\ run (arm_core_data_misc instr arm_cmisc_usada8) s
     = set_unpred_addr
         (set_arm_addr (add32 sum (context_word s (bitrng instr 15 12)))).
Proof.
  intros Hd. cbv zeta.
  unfold arm_core_data_misc, rd_operand. cbv zeta. rewrite Hd.
  change (15 =? 15) with true. cbv iota.
  change (extra_eqb arm_cmisc_usad8 arm_cmisc_usada8) with false.
  change (extra_eqb arm_cmisc_usada8 arm_cmisc_usada8) with true.
  cbv iota.
  repeat run_step. unfold rd_storage. repeat run_step.
  rewrite usad8_loop_sum. cbv zeta.
  rewrite !byte_lane_shr32 by lia.
  split; reflexivity.
Qed.

Lemma arm_core_data_misc_usad8_sum_witness :
  run (arm_core_data_misc 0xE780F311 arm_cmisc_usad8) sample_machine
  = set_unpred_addr (set_arm_addr 2)
  /\ run (arm_core_data_misc 0xE780F311 arm_cmisc_usada8) sample_machine
     = set_unpred_addr (set_arm_addr 0x8002).
Proof.
  exact (arm_core_data_misc_usad8_sum 0xE780F311 sample_machine eq_refl).
Defined.

(** ** Exclusive, status and system instructions *)

Lemma finish_unp_flag r u : flag (finish_unp r u) = flag r.
Proof.
  unfold finish_unp.
  destruct (negb (flag_is_undef r)); [destruct (truthy u)|]; reflexivity.
Qed.

Lemma finish_unp_address r u : address (finish_unp r u) = address r.
Proof.
  unfold finish_unp.
  destruct (negb (flag_is_undef r)); [destruct (truthy u)|]; reflexivity.
Qed.

(** X19: a store-exclusive is given the ARM address 0 (the status value of
    a successful store), whatever its register fields are: the outcome is
    never linear, even when no field names the PC. *)
Theorem arm_core_ldstrex_store_address_zero
  (instr : Z) (extra : ARM_decode_extra_t) (s : machine) :
  bit instr 20 = 0 ->
  flag (run (arm_core_ldstrex instr extra) s) = INSTR_ADDR_ARM
  /\ address (run (arm_core_ldstrex instr extra) s) = 0
  /\ ~ linear (run (arm_core_ldstrex instr extra) s).
Proof.
  intros H. unfold arm_core_ldstrex. cbv zeta. rewrite H.
  change (truthy 0) with false. cbv iota. run_step.
  rewrite finish_unp_flag, finish_unp_address.
  split; [reflexivity|]. split; [reflexivity|].
  intros [_ Ha]. rewrite finish_unp_address in Ha. discriminate Ha.
Qed.

Lemma arm_core_ldstrex_store_address_zero_witness :
  flag (run (arm_core_ldstrex 0xE1812F93 arm_extras_last) sample_machine)
  = INSTR_ADDR_ARM
  /\ address (run (arm_core_ldstrex 0xE1812F93 arm_extras_last) sample_machine)
     = 0
  /\ ~ linear (run (arm_core_ldstrex 0xE1812F93 arm_extras_last)
                 sample_machine).
Proof.
  apply (arm_core_ldstrex_store_address_zero 0xE1812F93 arm_extras_last
           sample_machine).
  reflexivity.
Defined.

Lemma status_banked_unp U instr :
  snd (status_banked_target U instr) = 0
  \/ snd (status_banked_target U instr) = 1.
Proof.
  unfold status_banked_target. cbv zeta. value_cases; cbn [snd]; auto.
Qed.

Lemma flagged_finish_lin u : flagged_or_plain (finish_unp set_addr_lin u).
Proof.
  unfold finish_unp. cbn [flag_is_undef flag_eqb flag set_addr_lin negb andb].
  destruct (truthy u); auto with outcome.
Qed.

Lemma flagged_finish_counted v u :
  0 <= u -> flagged_or_plain (finish_unp (set_arm_addr v) (u + 1)).
Proof.
  intros Hu. unfold finish_unp.
  assert (Ht : truthy (u + 1) = true)
    by (unfold truthy; apply negb_true_iff, Z.eqb_neq; lia).
  rewrite Ht. cbn [flag_is_undef flag_eqb flag set_arm_addr negb andb].
  auto with outcome.
Qed.

Lemma run_status_access_plain U extra tmp1 tmp2 tmp4 s :
  extra_eqb extra arm_cstat_msr_b = true \/ (tmp4 =? 15) = false ->
  run (status_access U extra tmp1 tmp2 tmp4) s = (set_addr_lin, 0).
Proof.
  intros H. unfold status_access.
  destruct (extra_eqb extra arm_cstat_msr_b); [reflexivity|].
  destruct H as [H|H]; [discriminate|]. rewrite H. reflexivity.
Qed.

Lemma run_status_access_cases U extra tmp1 tmp2 tmp4 s :
  run (status_access U extra tmp1 tmp2 tmp4) s = (set_addr_lin, 0)
  \/ exists v, run (status_access U extra tmp1 tmp2 tmp4) s
               = (set_arm_addr v, 1).
Proof.
  unfold status_access. run_all; eauto.
Qed.

Lemma linear_flagged r : linear r -> flagged_or_plain r.
Proof.
  destruct r as [f u a]. intros [Hf Ha]. cbn in Hf, Ha. subst.
  destruct u; [left; reflexivity | right; left; reflexivity].
Qed.

Lemma arm_core_status_cps_linear U instr extra s :
  extra_eqb extra arm_cstat_cps = true ->
  linear (run (arm_core_status U instr extra) s).
Proof.
  intros E. unfold arm_core_status. rewrite E. cbv iota zeta.
  run_all; auto using linear_finish_unp with outcome.
Qed.

(** The outcome and the count of the switch over the current mode in the
    banked-register branch. *)
Lemma arm_core_status_banked U instr extra s :
  extra_eqb extra arm_cstat_cps = false ->
  flagged_or_plain (run (arm_core_status U instr extra) s)
  /\ (extra_eqb extra arm_cstat_msr_b = true
      \/ (bitrng instr 15 12 =? 15) = false ->
      linear (run (arm_core_status U instr extra) s)).
Proof.
  intros E. unfold arm_core_status. rewrite E. cbv iota zeta.
  pose proof (status_banked_unp U instr) as Hu.
  destruct (status_banked_target U instr) as [[tmp1 tmp2] unp].
  cbn [snd] in Hu. cbv iota beta.
  repeat run_step.
  destruct (tmp2 =? 0).
  { run_step. split; [auto with outcome | intros _; auto with outcome]. }
  repeat run_step.
  match goal with
  | |- context [finish_unp (fst (run ?c s)) _] =>
      assert (Hc : (run c s = (set_addr_lin, 1) \/ run c s = (set_addr_lin, 0)
                    \/ exists v, run c s = (set_arm_addr v, 1))
                   /\ (extra_eqb extra arm_cstat_msr_b = true
                       \/ (bitrng instr 15 12 =? 15) = false ->
                       run c s = (set_addr_lin, 1)
                       \/ run c s = (set_addr_lin, 0)));
      [ | generalize dependent (run c s) ]
  end.
  - split.
    + run_all; auto;
        match goal with
        | |- context [run (status_access ?u ?e ?a ?b ?c) ?s] =>
            destruct (run_status_access_cases u e a b c s) as [-> | [v ->]]
        end; eauto.
    + intros Hg. run_all; auto;
        rewrite run_status_access_plain by assumption; auto.
  - intros p [Hp Hg]. split.
    + destruct Hp as [-> | [-> | [v ->]]]; cbn [fst snd].
      * apply flagged_finish_lin.
      * apply flagged_finish_lin.
      * apply flagged_finish_counted. lia.
    + intros H. destruct (Hg H) as [-> | ->]; cbn [fst snd];
        apply linear_finish_unp, linear_lin.
Qed.

(** X20: the status handler never returns a plain computed address.  CPS
    and a banked MSR are always linear, and so is a banked MRS whose
    destination is not the PC; an address appears only for a banked MRS to
    the PC, and it is flagged UNPREDICTABLE. *)
Theorem arm_core_status_address_only_mrs_pc
  (U : instr_util) (instr : Z) (extra : ARM_decode_extra_t) (s : machine) :
  flagged_or_plain (run (arm_core_status U instr extra) s)
  /\ (extra = arm_cstat_cps \/ extra = arm_cstat_msr_b
      \/ bitrng instr 15 12 <> 15 ->
      linear (run (arm_core_status U instr extra) s)).
Proof.
  destruct (extra_eqb extra arm_cstat_cps) eqn:E.
  - pose proof (arm_core_status_cps_linear U instr extra s E) as Hl.
    split; [apply linear_flagged; exact Hl | intros _; exact Hl].
  - destruct (arm_core_status_banked U instr extra s E) as [Hf Hg].
    split; [exact Hf|].
    intros [-> | [-> | Hd]].
    + discriminate E.
    + apply Hg. left. reflexivity.
    + apply Hg. right. apply Z.eqb_neq. exact Hd.
Qed.

Lemma arm_core_status_address_only_mrs_pc_witness :
  linear (run (arm_core_status a32_util 0xE1020200 arm_cstat_mrs_b)
            sample_machine).
Proof.
  apply (proj2 (arm_core_status_address_only_mrs_pc a32_util 0xE1020200
                  arm_cstat_mrs_b sample_machine)).
  right. right. vm_compute. discriminate.
Defined.

(** ** Extension-register loads, stores and transfers *)

Lemma xfer_vmov_pair_no_address instr extra s :
  bitrng instr 15 12 <> 15 -> bitrng instr 19 16 <> 15 ->
  fst (run (xfer_vmov_pair instr extra) s) = set_addr_lin.
Proof.
  intros Ht Ht2. apply Z.eqb_neq in Ht. apply Z.eqb_neq in Ht2.
  unfold xfer_vmov_pair. cbv zeta. rewrite Ht, Ht2.
  cbn [andb]. run_all; reflexivity.
Qed.

Lemma xfer_scalar_no_address U instr und retval s :
  bitrng instr 15 12 <> 15 ->
  fst (fst (run (xfer_scalar U instr und retval) s)) = set_addr_lin
  \/ fst (fst (run (xfer_scalar U instr und retval) s)) = set_undef_addr.
Proof.
  intros Ht. apply Z.eqb_neq in Ht.
  unfold xfer_scalar. cbv zeta. rewrite Ht.
  run_all; cbn [fst snd]; auto.
Qed.

(** X21: the extension-register handlers compute an address only for the
    PC.  A load or store of extension registers whose base is not the PC,
    and a transfer whose core register is not the PC (for the two-register
    moves: neither of the two), carry no address: the outcome is linear or
    UNDEFINED. *)
Theorem vfp_handlers_gate
  (U : instr_util) (instr : Z) (extra : ARM_decode_extra_t) (s : machine) :
  (bitrng instr 19 16 <> 15 ->
   no_address (run (arm_vfp_ldst_ext instr extra) s))
  /\ (bitrng instr 15 12 <> 15 ->
      (extra = arm_vfpxfer_vmov_d \/ extra = arm_vfpxfer_vmov_ss ->
       bitrng instr 19 16 <> 15) ->
      no_address (run (arm_vfp_xfer_reg U instr extra) s)).
Proof.
  split.
  - intros Hn. apply Z.eqb_neq in Hn.
    unfold arm_vfp_ldst_ext. cbv zeta.
    destruct extra; rewrite ?Hn; run_all; value_cases; auto with outcome.
  - intros Ht Hp.
    pose proof Ht as Ht'. apply Z.eqb_neq in Ht'.
    unfold arm_vfp_xfer_reg. cbv zeta.
    destruct extra; rewrite ?Ht';
      try (repeat run_step;
           rewrite xfer_vmov_pair_no_address by auto;
           value_cases; auto with outcome);
      try (repeat run_step;
           match goal with
           | |- context [run (xfer_scalar ?u ?i ?n ?r) ?st] =>
               let H := fresh in
               destruct (xfer_scalar_no_address u i n r st Ht) as [H|H];
               destruct (run (xfer_scalar u i n r) st) as [[rv und] unp];
               cbn [fst snd] in H; subst rv
           end;
           cbv beta iota; value_cases; auto with outcome);
      run_all; value_cases; auto with outcome.
Qed.

Lemma vfp_handlers_gate_witness :
  no_address (run (arm_vfp_ldst_ext 0xECB10A02 arm_vldstx_vldm32)
                sample_machine)
  /\ no_address (run (arm_vfp_xfer_reg a32_util 0xEC510B10 arm_vfpxfer_vmov_d)
                   sample_machine).
Proof.
  split.
  - apply (proj1 (vfp_handlers_gate a32_util 0xECB10A02 arm_vldstx_vldm32
                    sample_machine)).
    vm_compute. discriminate.
  - apply (proj2 (vfp_handlers_gate a32_util 0xEC510B10 arm_vfpxfer_vmov_d
                    sample_machine)).
    + vm_compute. discriminate.
    + intros _. vm_compute. discriminate.
Defined.

(** X22: the coprocessor handler never returns an address.  The handler of
    the miscellaneous instructions returns one only for SWP with Rt = PC,
    and the exception handler only for ERET and RFE: every other outcome of
    theirs is linear or UNDEFINED. *)
Theorem system_handlers_no_address
  (U : instr_util) (instr : Z) (extra : ARM_decode_extra_t) (s : machine) :
  no_address (run (arm_coproc instr extra) s)
  /\ (extra <> arm_misc_swp \/ bitrng instr 15 12 <> 15 ->
      no_address (run (arm_core_misc instr extra) s))
  /\ (extra <> arm_exc_eret -> extra <> arm_exc_rfe ->
      no_address (run (arm_core_exc U instr extra) s)).
Proof.
  split; [|split].
  - unfold arm_coproc. run_all; auto with outcome.
  - intros H. unfold arm_core_misc. cbv zeta.
    destruct extra;
      try (destruct H as [H|H];
           [contradiction H; reflexivity
           | apply Z.eqb_neq in H; rewrite H ]);
      run_all; value_cases; auto with outcome.
  - intros H1 H2. unfold arm_core_exc. cbv zeta.
    destruct extra; try (contradiction H1; reflexivity);
      try (contradiction H2; reflexivity);
      run_all; auto with outcome.
Qed.

Lemma system_handlers_no_address_witness :
  no_address (run (arm_core_misc 0xE1010092 arm_misc_swp) sample_machine)
  /\ no_address (run (arm_core_exc a32_util 0xF96D0513 arm_exc_srs)
                   sample_machine).
Proof.
  split.
  - apply (proj1 (proj2 (system_handlers_no_address a32_util 0xE1010092
                           arm_misc_swp sample_machine))).
    right. vm_compute. discriminate.
  - apply (proj2 (proj2 (system_handlers_no_address a32_util 0xF96D0513
                           arm_exc_srs sample_machine)));
      discriminate.
Defined.

(** ** Flags that exclude each other *)

Lemma finish_unp_exclusive r u :
  unpred r = false ->
  flag (finish_unp r u) = INSTR_ADDR_UNDEF ->
  unpred (finish_unp r u) = false.
Proof.
  intros Hr. unfold finish_unp, flag_is_undef. rewrite Hr.
  cbn [negb]. rewrite andb_true_r.
  destruct (flag_eqb (flag r) INSTR_ADDR_UNDEF) eqn:E; cbn [negb].
  - intros _. exact Hr.
  - destruct (truthy u); [|intros _; exact Hr].
    cbn [set_unpred_addr flag]. intros H.
    apply flag_eqb_eq in H. congruence.
Qed.

Lemma ldstrd_fetch_plain tmp4 tmp3 s :
  unpred (run (ldstrd_fetch tmp4 tmp3) s) = false.
Proof. unfold ldstrd_fetch. run_all; reflexivity. Qed.

(** X23: in the doubleword, exclusive, halfword, signed-byte and
    signed-halfword load/store handlers UNDEFINED and UNPREDICTABLE exclude
    each other: the closing test adds the overlay only to an outcome that
    is not UNDEFINED. *)
Theorem load_store_undefined_never_flagged
  (U : instr_util) (instr : Z) (extra : ARM_decode_extra_t) (s : machine) :
  (flag (run (arm_core_ldstrd instr extra) s) = INSTR_ADDR_UNDEF ->
   unpred (run (arm_core_ldstrd instr extra) s) = false)
  /\ (flag (run (arm_core_ldstrex instr extra) s) = INSTR_ADDR_UNDEF ->
      unpred (run (arm_core_ldstrex instr extra) s) = false)
  /\ (flag (run (arm_core_ldstrh U instr extra) s) = INSTR_ADDR_UNDEF ->
      unpred (run (arm_core_ldstrh U instr extra) s) = false)
  /\ (flag (run (arm_core_ldstrsb U instr extra) s) = INSTR_ADDR_UNDEF ->
      unpred (run (arm_core_ldstrsb U instr extra) s) = false)
  /\ (flag (run (arm_core_ldstsh U instr extra) s) = INSTR_ADDR_UNDEF ->
      unpred (run (arm_core_ldstsh U instr extra) s) = false).
Proof.
  split; [|split; [|split; [|split]]].
  - unfold arm_core_ldstrd. cbv zeta. run_step.
    match goal with
    | |- context [finish_unp (fst (run ?c s)) _] =>
        assert (Hc : unpred (fst (run c s)) = false);
        [ | generalize dependent (run c s) ]
    end.
    + run_all; cbn [fst]; rewrite ?ldstrd_fetch_plain; reflexivity.
    + intros p Hp. run_step. apply finish_unp_exclusive. exact Hp.
  - unfold arm_core_ldstrex. run_all;
      apply finish_unp_exclusive; reflexivity.
  - unfold arm_core_ldstrh. run_all;
      apply finish_unp_exclusive; reflexivity.
  - unfold arm_core_ldstrsb. run_all;
      apply finish_unp_exclusive; reflexivity.
  - unfold arm_core_ldstsh. run_all;
      apply finish_unp_exclusive; reflexivity.
Qed.

Lemma load_store_undefined_never_flagged_witness :
  unpred (run (arm_core_ldstrd 0xE0EF00D0 arm_extras_last) sample_machine)
  = false.
Proof.
  apply (proj1 (load_store_undefined_never_flagged a32_util 0xE0EF00D0
                  arm_extras_last sample_machine)).
  reflexivity.
Defined.

(** X24: a move from an extension register to two core registers one of
    which is the PC reads the extension register and then leaves the outcome
    as first initialised: the result is UNDEFINED with the UNPREDICTABLE
    overlay, not the address that was read. *)
Theorem arm_vfp_xfer_reg_pair_to_pc
  (U : instr_util) (instr : Z) (extra : ARM_decode_extra_t) (s : machine) :
  extra = arm_vfpxfer_vmov_d \/ extra = arm_vfpxfer_vmov_ss ->
  bit instr 20 = 1 ->
  bitrng instr 15 12 = 15 \/ bitrng instr 19 16 = 15 ->
  run (arm_vfp_xfer_reg U instr extra) s = set_unpred_addr set_undef_addr.
Proof.
  intros Hx Hl Hpc.
  assert (Hp : fst (run (xfer_vmov_pair instr extra) s) = set_undef_addr
               /\ 1 <= snd (run (xfer_vmov_pair instr extra) s)).
  { unfold xfer_vmov_pair. cbv zeta. rewrite Hl.
    cbn [truthy negb Z.eqb andb].
    destruct Hpc as [Ht | Ht2].
    - rewrite Ht. change (15 =? 15) with true. cbn [andb].
      value_cases; run_all; cbn [fst snd]; split; try reflexivity; lia.
    - rewrite Ht2. change (15 =? 15) with true.
      rewrite ?andb_true_r.
      value_cases; run_all; cbn [fst snd]; split; try reflexivity; lia. }
  destruct Hp as [Hf Hs].
  unfold arm_vfp_xfer_reg. cbv zeta.
  destruct Hx as [-> | ->]; repeat run_step; rewrite Hf;
    change (truthy 0) with false; cbv iota;
    match goal with
    | |- context [truthy ?u] =>
        replace (truthy u) with true
          by (symmetry; unfold truthy; apply negb_true_iff, Z.eqb_neq; lia)
    end;
    reflexivity.
Qed.

Lemma arm_vfp_xfer_reg_pair_to_pc_witness :
  run (arm_vfp_xfer_reg a32_util 0xEC5F0B10 arm_vfpxfer_vmov_d) sample_machine
  = set_unpred_addr set_undef_addr.
Proof.
  apply (arm_vfp_xfer_reg_pair_to_pc a32_util 0xEC5F0B10 arm_vfpxfer_vmov_d
           sample_machine).
  - left. reflexivity.
  - reflexivity.
  - right. reflexivity.
Defined.
